(** * Lesotho passport portal: the client-side view model

    A shallow embedding of the logic-bearing parts of the single-page
    application: the appointment eligibility view of the application
    detail page, the applicant's appointment list, the reschedule page,
    the officer's daily schedule, the status timeline, the status label
    helpers, the local-storage helpers and the response interceptor of
    the HTTP client.

    Conventions.  JavaScript strings are modelled as [string]; every
    string the embedded code inspects (status names, appointment types,
    property names) is ASCII.  [===] on strings is [String.eqb].  A React
    component is modelled by the pure function from its state to what it
    renders, and an event handler by the function from the state to the
    effects it performs. *)

From Stdlib Require Import ZArith Ascii String List Bool Lia.
From stdpp Require Import base option list strings gmap.

Local Open Scope string_scope.
Local Open Scope list_scope.

(** ** Data model: what the REST API returns *)

Record Application := mkApplication {
  app_id : string;
  application_number : string;
  app_status : string
}.

Record Appointment := mkAppointment {
  apt_id : string;
  apt_application_id : string;
  apt_application_number : string;
  apt_type : string;
  apt_status : string;
  can_be_rescheduled : bool
}.

Record TimeSlot := mkTimeSlot {
  slot_id : string;
  start_time : string;
  available_capacity : Z
}.

(** ** pages/ApplicationDetail: appointment eligibility view *)

Module ApplicationDetail.

(** The component state the helpers close over: [application] is
    [null] until the fetch returns, [appointments] starts as [[]]. *)
Record State := mkState {
  application : option Application;
  appointments : list Appointment
}.

(** [fetchData] keeps the appointments of this application only:
    [apt.application_id === id || apt.application_number ===
    appData.application_number]. *)
Definition filterAppointments (id : string) (appData : Application)
    (appointmentsData : list Appointment) : list Appointment :=
  filter (fun apt =>
            Is_true (String.eqb (apt_application_id apt) id
                     || String.eqb (apt_application_number apt)
                                   (application_number appData)))
         appointmentsData.

Definition fetchData (id : string) (appData : Application)
    (appointmentsData : list Appointment) : State :=
  {| application := Some appData;
     appointments := filterAppointments id appData appointmentsData |}.

(** [appointments.find(apt => apt.type === 'submission')] *)
Definition getSubmissionAppointment (st : State) : option Appointment :=
  List.find (fun apt => String.eqb (apt_type apt) "submission")
            (appointments st).

(** [appointments.find(apt => apt.type === 'collection')] *)
Definition getCollectionAppointment (st : State) : option Appointment :=
  List.find (fun apt => String.eqb (apt_type apt) "collection")
            (appointments st).

(** [application?.status === s]: [undefined === s] is false. *)
Definition statusIs (st : State) (s : string) : bool :=
  match application st with
  | Some app => String.eqb (app_status app) s
  | None => false
  end.

(** An array element is an object, hence truthy; [undefined] is falsy. *)
Definition truthy {A} (o : option A) : bool :=
  match o with Some _ => true | None => false end.

Definition canBookSubmission (st : State) : bool :=
  statusIs st "submitted" && negb (truthy (getSubmissionAppointment st)).

Definition canBookCollection (st : State) : bool :=
  statusIs st "ready_for_pickup" && negb (truthy (getCollectionAppointment st)).

(** What an appointment card offers. *)
Inductive CardAction :=
| RescheduleLink (appointment_id : string) (application_id : string)
| CancelButton (appointment_id : string).

(** [{apt.can_be_rescheduled && (<Link ..>Reschedule</Link>
    <button ..>Cancel</button>)}] *)
Definition cardActions (app : Application) (apt : Appointment)
    : list CardAction :=
  if can_be_rescheduled apt
  then [RescheduleLink (apt_id apt) (app_id app); CancelButton (apt_id apt)]
  else [].

Inductive AppointmentKind := Submission | Collection.

(** The body of one of the two appointment sections. *)
Inductive SectionBody :=
| AppointmentCard (apt : Appointment) (actions : list CardAction)
| BookAppointmentLink (kind : AppointmentKind) (application_id : string)
| InfoText (text : string).

(** The submission section: card, else booking link, else a note. *)
Definition submissionSection (app : Application) (st : State) : SectionBody :=
  match getSubmissionAppointment st with
  | Some apt => AppointmentCard apt (cardActions app apt)
  | None =>
      if canBookSubmission st
      then BookAppointmentLink Submission (app_id app)
      else InfoText (if String.eqb (app_status app) "submitted"
                     then "Loading..."
                     else "No submission appointment needed at this stage")
  end.

Definition collectionSection (app : Application) (st : State) : SectionBody :=
  match getCollectionAppointment st with
  | Some apt => AppointmentCard apt (cardActions app apt)
  | None =>
      if canBookCollection st
      then BookAppointmentLink Collection (app_id app)
      else InfoText "Collection appointment will be available once your passport is ready"
  end.

(** The appointment part of the page; nothing of it is rendered while
    [application] is [null] (the "not found" card is shown instead). *)
Definition render (st : State) : option (SectionBody * SectionBody) :=
  match application st with
  | None => None
  | Some app => Some (submissionSection app st, collectionSection app st)
  end.

Definition offersBookSubmission (st : State) : Prop :=
  exists sub col aid,
    render st = Some (sub, col) /\ sub = BookAppointmentLink Submission aid.

Definition offersBookCollection (st : State) : Prop :=
  exists sub col aid,
    render st = Some (sub, col) /\ col = BookAppointmentLink Collection aid.

Definition isReschedule (a : CardAction) : bool :=
  match a with RescheduleLink _ _ => true | CancelButton _ => false end.

Definition isCancel (a : CardAction) : bool :=
  match a with CancelButton _ => true | RescheduleLink _ _ => false end.

(** What [find] yields for a type: nothing when the list has no
    appointment of the type, else the appointment that has the type and
    is preceded only by appointments of other types. *)
Definition firstOfType (t : string) (appts : list Appointment)
    (result : option Appointment) : Prop :=
  match result with
  | None => Forall (fun a => apt_type a <> t) appts
  | Some apt =>
      exists before after,
        appts = before ++ apt :: after
        /\ Forall (fun a => apt_type a <> t) before
        /\ apt_type apt = t
  end.

(** An appointment of type [t] that has not been cancelled. *)
Definition activeOfType (t : string) (a : Appointment) : Prop :=
  apt_type a = t /\ apt_status a <> "cancelled".

End ApplicationDetail.

(** ** pages/applicant/MyAppointments: the applicant's appointment list *)

Module MyAppointments.

Inductive RowAction :=
| CancelAppointmentButton (appointment_id : string).

(** [{appointment.status === 'scheduled' &&
      appointment.can_be_rescheduled && (<button>Cancel
      Appointment</button>)}]; the row has no other action. *)
Definition rowActions (appointment : Appointment) : list RowAction :=
  if String.eqb (apt_status appointment) "scheduled"
     && can_be_rescheduled appointment
  then [CancelAppointmentButton (apt_id appointment)]
  else [].

Definition cancelVisible (appointment : Appointment) : bool :=
  existsb (fun a => match a with CancelAppointmentButton _ => true end)
          (rowActions appointment).

Definition render (appointments : list Appointment)
    : list (Appointment * list RowAction) :=
  map (fun appointment => (appointment, rowActions appointment)) appointments.

End MyAppointments.

(** ** pages/applicant/RescheduleAppointment: the reschedule page *)

Module RescheduleAppointment.

(** Route parameter [id], query parameter [application] and the
    [useState] cells of the component. *)
Record State := mkState {
  id : string;
  applicationId : option string;
  loading : bool;
  appointment : option Appointment;
  application : option Application;
  selectedDate : string;
  selectedSlot : option TimeSlot;
  reason : string
}.

Definition initial (id : string) (applicationId : option string) : State :=
  {| id := id; applicationId := applicationId; loading := false;
     appointment := None; application := None; selectedDate := "";
     selectedSlot := None; reason := "" |}.

(** [fetchData]: [appointments.find(a => a.id === id)], and the
    application when the query parameter is present. *)
Definition fetchData (appointments : list Appointment)
    (appData : option Application) (st : State) : State :=
  {| id := id st; applicationId := applicationId st; loading := loading st;
     appointment := List.find (fun a => String.eqb (apt_id a) (id st)) appointments;
     application := match appData with
                    | Some a => Some a
                    | None => application st
                    end;
     selectedDate := selectedDate st; selectedSlot := selectedSlot st;
     reason := reason st |}.

Definition setSelectedSlot (slot : TimeSlot) (st : State) : State :=
  {| id := id st; applicationId := applicationId st; loading := loading st;
     appointment := appointment st; application := application st;
     selectedDate := selectedDate st; selectedSlot := Some slot;
     reason := reason st |}.

Definition setLoading (b : bool) (st : State) : State :=
  {| id := id st; applicationId := applicationId st; loading := b;
     appointment := appointment st; application := application st;
     selectedDate := selectedDate st; selectedSlot := selectedSlot st;
     reason := reason st |}.

Inductive Effect :=
| ToastError (message : string)
| ToastSuccess (message : string)
| RescheduleRequest (appointment_id new_time_slot_id reason : string)
| Navigate (path : string).

(** How the awaited call settles; [detail] is the truthy
    [error.response?.data?.detail], when there is one. *)
Inductive ApiOutcome :=
| Resolved
| Rejected (detail : option string).

(** [`/applicant/applications/${applicationId}`] *)
Definition applicationPath (applicationId : option string) : string :=
  "/applicant/applications/" ++ default "null" applicationId.

Definition handleReschedule (outcome : ApiOutcome) (st : State)
    : list Effect * State :=
  match selectedSlot st with
  | None => ([ToastError "Please select a time slot"], st)
  | Some slot =>
      let request := RescheduleRequest (id st) (slot_id slot) (reason st) in
      let settled :=
        match outcome with
        | Resolved =>
            [ToastSuccess "Appointment rescheduled successfully!";
             Navigate (applicationPath (applicationId st))]
        | Rejected detail =>
            [ToastError (default "Failed to reschedule" detail)]
        end in
      (request :: settled, setLoading false (setLoading true st))
  end.

(** The page shows a spinner until both [appointment] and
    [application] are loaded; the confirm button is
    [disabled={!selectedSlot || loading}]. *)
Definition confirmButton (st : State) : option bool :=
  match appointment st, application st with
  | Some _, Some _ =>
      Some (negb (match selectedSlot st with Some _ => false | None => true end
                  || loading st))
  | _, _ => None
  end.

(** A click on "Confirm Reschedule": nothing happens unless the button
    is rendered and enabled. *)
Definition clickConfirm (outcome : ApiOutcome) (st : State)
    : list Effect * State :=
  match confirmButton st with
  | Some true => handleReschedule outcome st
  | _ => ([], st)
  end.

Definition isRequest (e : Effect) : bool :=
  match e with RescheduleRequest _ _ _ => true | _ => false end.

End RescheduleAppointment.

(** ** pages/officer/DailySchedule: check-in and completion *)

Module DailySchedule.

Inductive ActionCell :=
| CheckInButton (appointment_id : string)
| CompleteButton (appointment_id : string)
| CompletedLabel
| EmptyCell.

(** The chain of conditionals in the action column. *)
Definition actionCell (appointment : Appointment) : ActionCell :=
  let status := apt_status appointment in
  if String.eqb status "scheduled"
     || String.eqb status "confirmed"
     || String.eqb status "rescheduled"
  then CheckInButton (apt_id appointment)
  else if String.eqb status "checked_in"
  then CompleteButton (apt_id appointment)
  else if String.eqb status "completed"
  then CompletedLabel
  else EmptyCell.

(** [filteredAppointments]: every appointment under ['all'], else
    those of the selected type; [[]] while there is no schedule. *)
Definition filteredAppointments (schedule : option (list Appointment))
    (filterType : string) : list Appointment :=
  match schedule with
  | None => []
  | Some appointments =>
      List.filter (fun apt => if String.eqb filterType "all" then true
                              else String.eqb (apt_type apt) filterType)
                  appointments
  end.

Definition render (schedule : option (list Appointment)) (filterType : string)
    : list (Appointment * ActionCell) :=
  map (fun appointment => (appointment, actionCell appointment))
      (filteredAppointments schedule filterType).

Inductive ApiCall :=
| checkInAppointment (appointment_id : string)
| completeAppointment (appointment_id : string).

(** [handleCheckIn] issues the call at once; [handleComplete] first
    asks [window.confirm] and returns when the officer declines. *)
Definition handleCheckIn (appointmentId : string) : list ApiCall :=
  [checkInAppointment appointmentId].

Definition handleComplete (confirmed : bool) (appointmentId : string)
    : list ApiCall :=
  if negb confirmed then [] else [completeAppointment appointmentId].

(** What a click in the action column of a row sends. *)
Definition click (confirmed : bool) (cell : ActionCell) : list ApiCall :=
  match cell with
  | CheckInButton i => handleCheckIn i
  | CompleteButton i => handleComplete confirmed i
  | CompletedLabel | EmptyCell => []
  end.

Definition isButton (cell : ActionCell) : bool :=
  match cell with
  | CheckInButton _ | CompleteButton _ => true
  | CompletedLabel | EmptyCell => false
  end.

(** The statuses from which an appointment can be checked in. *)
Definition checkInStatus (status : string) : Prop :=
  status = "scheduled" \/ status = "confirmed" \/ status = "rescheduled".

End DailySchedule.

(** ** components/applicant/StatusTimeline *)

Module StatusTimeline.

Record Step := mkStep { key : string; label : string }.

Definition STATUSES : list Step :=
  [ mkStep "submitted" "Submitted";
    mkStep "under_review" "Under Review";
    mkStep "processing" "Processing";
    mkStep "quality_check" "Quality Check";
    mkStep "ready_for_pickup" "Ready for Pickup";
    mkStep "collected" "Collected" ].

(** [Array.prototype.findIndex]: the first index whose element
    satisfies the predicate, [-1] when there is none. *)
Fixpoint findIndexFrom {A} (p : A -> bool) (l : list A) (i : Z) : Z :=
  match l with
  | [] => (-1)%Z
  | x :: rest => if p x then i else findIndexFrom p rest (i + 1)%Z
  end.

Definition findIndex {A} (p : A -> bool) (l : list A) : Z :=
  findIndexFrom p l 0%Z.

Definition currentIndex (status : string) : Z :=
  findIndex (fun s => String.eqb (key s) status) STATUSES.

Definition isCompleted (status : string) (index : Z) : bool :=
  (index <=? currentIndex status)%Z.

Definition isCurrent (status : string) (index : Z) : bool :=
  (index =? currentIndex status)%Z.

(** One rendered row: the step, whether its icon and title use the
    completed style, whether "Current Status" is shown, and the
    connecting line ([None] under the last step). *)
Record StepView := mkStepView {
  step : Step;
  completed : bool;
  current : bool;
  connector : option bool
}.

Definition renderStep (status : string) (index : nat) (s : Step) : StepView :=
  let i := Z.of_nat index in
  {| step := s;
     completed := isCompleted status i;
     current := isCurrent status i;
     connector := if (i <? Z.of_nat (length STATUSES) - 1)%Z
                  then Some (isCompleted status i) else None |}.

Definition render (status : string) : list StepView :=
  imap (renderStep status) STATUSES.

End StatusTimeline.


(** ** pages/applicant/MyApplications: status label and colour *)

Module MyApplications.

(** The status values of the application lifecycle; they are also the
    nine keys of the [colors] table below. *)
Definition APPLICATION_STATUSES : list string :=
  [ "submitted"; "under_review"; "documents_required"; "processing";
    "quality_check"; "ready_for_pickup"; "collected"; "expired"; "rejected" ].

(** The [colors] object literal of [getStatusColor]. *)
Definition colors : gmap string string :=
  list_to_map
    [ ("submitted", "bg-blue-100 text-blue-800");
      ("under_review", "bg-yellow-100 text-yellow-800");
      ("documents_required", "bg-orange-100 text-orange-800");
      ("processing", "bg-purple-100 text-purple-800");
      ("quality_check", "bg-indigo-100 text-indigo-800");
      ("ready_for_pickup", "bg-green-100 text-green-800");
      ("collected", "bg-gray-100 text-gray-800");
      ("expired", "bg-red-100 text-red-800");
      ("rejected", "bg-red-100 text-red-800") ].

(** [colors[status] || 'bg-gray-100 text-gray-800']: a missing key reads
    as [undefined] and an empty string is falsy.  (Statuses are server
    enum values; the names that an object literal inherits from
    [Object.prototype] are not among them.) *)
Definition getStatusColor (status : string) : string :=
  match colors !! status with
  | Some c => if String.eqb c "" then "bg-gray-100 text-gray-800" else c
  | None => "bg-gray-100 text-gray-800"
  end.

(** [String.prototype.split] with a one-character separator: the pieces
    between the separators, empty pieces included; [''.split('_')] is
    [['']]. *)
Fixpoint split (sep : ascii) (s : string) : list string :=
  match s with
  | EmptyString => [""]
  | String c rest =>
      if Ascii.eqb c sep then "" :: split sep rest
      else match split sep rest with
           | w :: ws => String c w :: ws
           | [] => [String c ""]
           end
  end.

(** [Array.prototype.join] *)
Fixpoint join (sep : string) (words : list string) : string :=
  match words with
  | [] => ""
  | [w] => w
  | w :: ws => w ++ sep ++ join sep ws
  end.

(** [charAt(n)]: the one-character string at position [n], [''] past
    the end. *)
Definition charAt (n : nat) (s : string) : string :=
  match String.get n s with
  | Some c => String c ""
  | None => ""
  end.

(** [slice(n)] for a non-negative [n]: the string without its first [n]
    characters. *)
Fixpoint slice (n : nat) (s : string) : string :=
  match n, s with
  | O, _ => s
  | S _, EmptyString => ""
  | S m, String _ rest => slice m rest
  end.

Definition isLower (c : ascii) : bool :=
  (97 <=? nat_of_ascii c)%nat && (nat_of_ascii c <=? 122)%nat.

Definition isUpper (c : ascii) : bool :=
  (65 <=? nat_of_ascii c)%nat && (nat_of_ascii c <=? 90)%nat.

(** [toUpperCase] on ASCII text: [a]..[z] move to [A]..[Z], every other
    ASCII character stays. *)
Definition upperChar (c : ascii) : ascii :=
  if isLower c then ascii_of_nat (nat_of_ascii c - 32) else c.

Fixpoint toUpperCase (s : string) : string :=
  match s with
  | EmptyString => ""
  | String c rest => String (upperChar c) (toUpperCase rest)
  end.

(** [word.charAt(0).toUpperCase() + word.slice(1)] *)
Definition capitalize (word : string) : string :=
  toUpperCase (charAt 0 word) ++ slice 1 word.

(** [status.split('_').map(capitalize).join(' ')] *)
Definition formatStatus (status : string) : string :=
  join " " (map capitalize (split "_" status)).

(** A Title Case word: a capital letter followed by small letters. *)
Definition isTitleWord (w : string) : bool :=
  match w with
  | EmptyString => false
  | String c rest => isUpper c && forallb isLower (list_ascii_of_string rest)
  end.

(** A Title Case label: one or more Title Case words, one space apart. *)
Definition isTitleCase (lbl : string) : bool :=
  forallb isTitleWord (split " " lbl).

(** Whether [needle] occurs in [s]. *)
Fixpoint contains (needle s : string) : bool :=
  String.prefix needle s
  || match s with
     | EmptyString => false
     | String _ rest => contains needle rest
     end.

(** [free sep s]: the separator does not occur in [s]. *)
Fixpoint free (sep : ascii) (s : string) : bool :=
  match s with
  | EmptyString => true
  | String c rest => negb (Ascii.eqb c sep) && free sep rest
  end.

End MyApplications.

(** ** utils/constants *)

Module Constants.

Definition AUTH_TOKEN : string := "passport_auth_token".
Definition USER_DATA : string := "passport_user_data".
Definition THEME : string := "passport_theme".

Definition NETWORK_ERROR : string := "Network error. Please check your connection.".
Definition UNAUTHORIZED : string := "Session expired. Please login again.".
Definition FORBIDDEN : string := "You do not have permission to perform this action.".
Definition NOT_FOUND : string := "The requested resource was not found.".
Definition SERVER_ERROR : string := "Server error. Please try again later.".
Definition VALIDATION_ERROR : string := "Please check your input and try again.".

End Constants.

(** ** utils/storage: guarded access to [localStorage] *)

Module Storage.

(** The browser's storage area: its items, and whether [setItem]
    succeeds.  [setItem] raises when the quota is exhausted or the
    browser denies storage; that is the case the helpers probe for. *)
Record LocalStorage := mkLocalStorage {
  items : gmap string string;
  accepts_writes : bool
}.

Definition withItems (f : gmap string string -> gmap string string)
    (ls : LocalStorage) : LocalStorage :=
  {| items := f (items ls); accepts_writes := accepts_writes ls |}.

(** [isLocalStorageAvailable]: write and remove a probe key; any
    exception means "not available". *)
Definition isLocalStorageAvailable (ls : LocalStorage) : bool * LocalStorage :=
  let testKey := "__localStorage_test__" in
  if accepts_writes ls
  then (true, withItems (fun m => delete testKey (<[testKey := "test"]> m)) ls)
  else (false, ls).

(** [removeItem]: refuses when the probe fails, else removes the key. *)
Definition removeItem (key : string) (ls : LocalStorage) : bool * LocalStorage :=
  let '(available, ls1) := isLocalStorageAvailable ls in
  if negb available then (false, ls1)
  else (true, withItems (delete key) ls1).

Definition removeAuthToken (ls : LocalStorage) : bool * LocalStorage :=
  removeItem Constants.AUTH_TOKEN ls.

Definition removeUserData (ls : LocalStorage) : bool * LocalStorage :=
  removeItem Constants.USER_DATA ls.

(** [clearAuthData]: both removals run, the result is their conjunction. *)
Definition clearAuthData (ls : LocalStorage) : bool * LocalStorage :=
  let '(tokenRemoved, ls1) := removeAuthToken ls in
  let '(userDataRemoved, ls2) := removeUserData ls1 in
  (tokenRemoved && userDataRemoved, ls2).

End Storage.


(** ** api/axios: the response interceptor of the HTTP client *)

Module ApiClient.

(** JavaScript values as they arrive in a parsed response body and as
    the interceptor builds them.  Numbers are the integers (status
    codes); an object is the finite map of its own properties. *)
#[warnings="-register-all"] Inductive JSValue :=
| JUndefined
| JNull
| JBool (b : bool)
| JNum (n : Z)
| JStr (s : string)
| JArr (elems : list JSValue)
| JObj (props : gmap string JSValue).

(** [ToBoolean] *)
Definition truthy (v : JSValue) : bool :=
  match v with
  | JUndefined | JNull => false
  | JBool b => b
  | JNum n => negb (n =? 0)%Z
  | JStr s => negb (String.eqb s "")
  | JArr _ | JObj _ => true
  end.

(** A step of the handler either yields a value or raises the
    [TypeError] of reading a property of [undefined] or [null]. *)
Inductive Completion (A : Type) :=
| Normal (a : A)
| ThrowTypeError.
Arguments Normal {A} a.
Arguments ThrowTypeError {A}.

#[global] Instance completion_ret : MRet Completion := fun A a => Normal a.

#[global] Instance completion_bind : MBind Completion := fun A B k c =>
  match c with
  | Normal a => k a
  | ThrowTypeError => ThrowTypeError
  end.

(** [v.name] for the names the handler reads, [detail] and [msg]: an own
    property of an object, [undefined] on any other value that has
    properties, a [TypeError] on [undefined] and [null]. *)
Definition getProp (v : JSValue) (name : string) : Completion JSValue :=
  match v with
  | JUndefined | JNull => ThrowTypeError
  | JObj props => Normal (default JUndefined (props !! name))
  | JBool _ | JNum _ | JStr _ | JArr _ => Normal JUndefined
  end.

Definition isArray (v : JSValue) : bool :=
  match v with JArr _ => true | _ => false end.

(** [typeof v === "string"] *)
Definition isString (v : JSValue) : bool :=
  match v with JStr _ => true | _ => false end.

(** [arr[0]] on an array: its first element, [undefined] when empty. *)
Definition first (v : JSValue) : JSValue :=
  match v with
  | JArr (x :: _) => x
  | _ => JUndefined
  end.

(** [a || b] *)
Definition orElse (a b : JSValue) : JSValue := if truthy a then a else b.

(** [error.response], when the server answered. *)
Record Response := mkResponse {
  status : Z;
  data : JSValue
}.

Record AxiosError := mkAxiosError {
  response : option Response
}.

(** The part of the browser the handler touches. *)
Record Browser := mkBrowser {
  localStorage : Storage.LocalStorage;
  location_href : string
}.

(** How the promise returned by the handler settles: rejected with the
    object passed to [Promise.reject], or rejected with the [TypeError]
    raised while the handler ran. *)
Inductive Settlement :=
| Rejects (reason : JSValue)
| RejectsTypeError.

Definition settle (c : Completion JSValue) : Settlement :=
  match c with
  | Normal v => Rejects v
  | ThrowTypeError => RejectsTypeError
  end.

(** The object literal [{ message, status, data }]. *)
Definition rejection (message : JSValue) (status : Z) (data : JSValue) : JSValue :=
  JObj (<["message" := message]> (<["status" := JNum status]> (<["data" := data]> ∅))).

(** The [case 422] block. *)
Definition validationRejection (status : Z) (data : JSValue) : Completion JSValue :=
  detail ← getProp data "detail";
  validationMessage ←
    (if truthy detail && isArray detail then
       let firstError := first detail in
       msg ← getProp firstError "msg";
       mret (if truthy msg then msg else JStr Constants.VALIDATION_ERROR)
     else if isString detail then mret detail
     else mret (JStr Constants.VALIDATION_ERROR));
  mret (JObj (<["message" := validationMessage]>
               (<["status" := JNum status]>
               (<["data" := data]>
               (<["errors" := detail]> ∅))))).

(** The [default] block: [message: data.detail || "An error occurred"]. *)
Definition defaultRejection (status : Z) (data : JSValue) : Completion JSValue :=
  detail ← getProp data "detail";
  mret (rejection (orElse detail (JStr "An error occurred")) status data).

(** The rejection handler installed with
    [apiClient.interceptors.response.use]. *)
Definition onRejected (error : AxiosError) (b : Browser) : Browser * Settlement :=
  match response error with
  | None =>
      (b, Rejects (JObj (<["message" := JStr Constants.NETWORK_ERROR]>
                        (<["status" := JNum 0]> ∅))))
  | Some r =>
      let status := status r in
      let data := data r in
      if (status =? 401)%Z then
        let '(_, ls) := Storage.clearAuthData (localStorage b) in
        ({| localStorage := ls; location_href := "/login" |},
         Rejects (rejection (JStr Constants.UNAUTHORIZED) status data))
      else if (status =? 403)%Z then
        (b, Rejects (rejection (JStr Constants.FORBIDDEN) status data))
      else if (status =? 404)%Z then
        (b, Rejects (rejection (JStr Constants.NOT_FOUND) status data))
      else if (status =? 422)%Z then
        (b, settle (validationRejection status data))
      else if (status =? 500)%Z || (status =? 502)%Z || (status =? 503)%Z then
        (b, Rejects (rejection (JStr Constants.SERVER_ERROR) status data))
      else
        (b, settle (defaultRejection status data))
  end.

(** Reading a property of the rejection value. *)
Definition field (name : string) (v : JSValue) : option JSValue :=
  match v with
  | JObj props => props !! name
  | _ => None
  end.

(** The normalized shape: an object with own properties [message],
    [status] and [data]. *)
Definition normalized (s : Settlement) : Prop :=
  match s with
  | Rejects v =>
      is_Some (field "message" v) /\ is_Some (field "status" v)
      /\ is_Some (field "data" v)
  | RejectsTypeError => False
  end.

Definition messageOf (s : Settlement) : option JSValue :=
  match s with
  | Rejects v => field "message" v
  | RejectsTypeError => None
  end.

Definition statusOf (s : Settlement) : option JSValue :=
  match s with
  | Rejects v => field "status" v
  | RejectsTypeError => None
  end.

(** Values whose properties can be read without a [TypeError]. *)
Definition readable (v : JSValue) : bool :=
  match v with
  | JUndefined | JNull => false
  | _ => true
  end.

(** The statuses whose [case] block never reads the body. *)
Definition fixedMessageStatus (status : Z) : bool :=
  (status =? 401)%Z || (status =? 403)%Z || (status =? 404)%Z
  || (status =? 500)%Z || (status =? 502)%Z || (status =? 503)%Z.

(** [data.detail] when [data] is readable. *)
Definition detailOf (data : JSValue) : JSValue :=
  match data with
  | JObj props => default JUndefined (props !! "detail")
  | _ => JUndefined
  end.

(** The handler reads no property of [undefined] or [null]: either the
    status has a fixed message, or the body is readable and, for a 422
    whose [detail] is an array, so is the first element. *)
Definition bodyReadable (r : Response) : bool :=
  fixedMessageStatus (status r)
  || readable (data r)
     && (negb (status r =? 422)%Z
         || negb (isArray (detailOf (data r)))
         || readable (first (detailOf (data r)))).

(** [firstError.msg] when the first element is readable. *)
Definition msgOf (firstError : JSValue) : JSValue :=
  match firstError with
  | JObj props => default JUndefined (props !! "msg")
  | _ => JUndefined
  end.

(** The message the [case 422] block chooses once it could read
    [detail] and the first element. *)
Definition validationMessageOf (detail : JSValue) : JSValue :=
  if isArray detail
  then (if truthy (msgOf (first detail)) then msgOf (first detail)
        else JStr Constants.VALIDATION_ERROR)
  else if isString detail then detail
  else JStr Constants.VALIDATION_ERROR.

Definition dataOf (s : Settlement) : option JSValue :=
  match s with
  | Rejects v => field "data" v
  | RejectsTypeError => None
  end.

(** The error of a call that was answered with HTTP 401. *)
Definition unauthorized (d : JSValue) : AxiosError :=
  mkAxiosError (Some (mkResponse 401 d)).

End ApiClient.


(** ** String helpers of utils/validators and utils/formatters

    The regular expressions of the two files are character classes and
    fixed repetitions; each is written out as the boolean matcher of its
    language. *)

Module Text.

(** [[0-9]], which is also [\d]. *)
Definition isDigit (c : ascii) : bool :=
  (48 <=? nat_of_ascii c)%nat && (nat_of_ascii c <=? 57)%nat.

(** [\s] on ASCII text: tab, line feed, vertical tab, form feed,
    carriage return and space. *)
Definition isSpace (c : ascii) : bool :=
  (9 <=? nat_of_ascii c)%nat && (nat_of_ascii c <=? 13)%nat
  || (nat_of_ascii c =? 32)%nat.

(** [s.replace(/[^keep]/g, '')] *)
Fixpoint filterChars (keep : ascii -> bool) (s : string) : string :=
  match s with
  | EmptyString => ""
  | String c rest =>
      if keep c then String c (filterChars keep rest) else filterChars keep rest
  end.

(** [s.replace(/\s/g, '')] *)
Definition removeSpaces (s : string) : string :=
  filterChars (fun c => negb (isSpace c)) s.

(** [s.replace(/\D/g, '')] *)
Definition digitsOnly (s : string) : string := filterChars isDigit s.

Fixpoint allChars (p : ascii -> bool) (s : string) : bool :=
  match s with
  | EmptyString => true
  | String c rest => p c && allChars p rest
  end.

(** [/[class]/.test(s)] *)
Fixpoint anyChar (p : ascii -> bool) (s : string) : bool :=
  match s with
  | EmptyString => false
  | String c rest => p c || anyChar p rest
  end.

(** [/^[0-9]{n}$/.test(s)] *)
Definition digitsN (n : nat) (s : string) : bool :=
  (String.length s =? n)%nat && allChars isDigit s.

Fixpoint trimStart (s : string) : string :=
  match s with
  | EmptyString => ""
  | String c rest => if isSpace c then trimStart rest else s
  end.

Fixpoint trimEnd (s : string) : string :=
  match s with
  | EmptyString => ""
  | String c rest =>
      match trimEnd rest with
      | EmptyString => if isSpace c then "" else String c ""
      | t => String c t
      end
  end.

(** [s.trim()] *)
Definition trim (s : string) : string := trimEnd (trimStart s).

(** [s.substring(from, to)] for [from <= to]; both ends are clamped to
    the length of [s]. *)
Definition substring (from to : nat) (s : string) : string :=
  String.substring from (to - from) s.

(** [toLowerCase] on ASCII text. *)
Definition lowerChar (c : ascii) : ascii :=
  if MyApplications.isUpper c then ascii_of_nat (nat_of_ascii c + 32) else c.

Fixpoint toLowerCase (s : string) : string :=
  match s with
  | EmptyString => ""
  | String c rest => String (lowerChar c) (toLowerCase rest)
  end.

End Text.

(** ** utils/formatters *)

Module Formatters.
Import Text.

(** [formatPhoneNumber]: the digits of the input, shown as
    [+266 XXXX XXXX] when they start with the country code or are eight;
    any other input is returned as it came. *)
Definition formatPhoneNumber (phone : string) : string :=
  if String.eqb phone "" then "N/A"
  else
    let cleaned := digitsOnly phone in
    if String.prefix "266" cleaned then
      let number := MyApplications.slice 3 cleaned in
      "+266 " ++ substring 0 4 number ++ " " ++ MyApplications.slice 4 number
    else if (String.length cleaned =? 8)%nat then
      "+266 " ++ substring 0 4 cleaned ++ " " ++ MyApplications.slice 4 cleaned
    else phone.

(** [formatApplicationNumber] *)
Definition formatApplicationNumber (appNumber : string) : string :=
  if String.eqb appNumber "" then "N/A"
  else if MyApplications.contains "-" appNumber then appNumber
  else if (9 <=? String.length appNumber)%nat then
    "PASS-" ++ substring 0 4 appNumber ++ "-" ++ MyApplications.slice 4 appNumber
  else appNumber.

(** [formatIdNumber] *)
Definition formatIdNumber (idNumber : string) : string :=
  if String.eqb idNumber "" then "N/A"
  else
    let cleaned := digitsOnly idNumber in
    if (String.length cleaned =? 13)%nat then
      substring 0 3 cleaned ++ " " ++ substring 3 6 cleaned ++ " "
      ++ substring 6 9 cleaned ++ " " ++ MyApplications.slice 9 cleaned
    else idNumber.

(** [truncateText(text, maxLength)] *)
Definition truncateText (text : string) (maxLength : nat) : string :=
  if String.eqb text "" then ""
  else if (String.length text <=? maxLength)%nat then text
  else substring 0 maxLength text ++ "...".

(** [capitalizeWords] *)
Definition capitalizeWords (text : string) : string :=
  if String.eqb text "" then ""
  else MyApplications.join " "
         (map MyApplications.capitalize
              (MyApplications.split " " (toLowerCase text))).

(** [getInitials] *)
Definition getInitials (name : string) : string :=
  if String.eqb name "" then "?"
  else substring 0 2
         (MyApplications.join ""
            (map (fun word => MyApplications.toUpperCase (MyApplications.charAt 0 word))
                 (MyApplications.split " " name))).

(** The display form of eight local digits: [+266 XXXX XXXX]. *)
Definition localFormat (l : string) : string :=
  "+266 " ++ substring 0 4 l ++ " " ++ MyApplications.slice 4 l.

End Formatters.

(** ** utils/validators *)

Module Validation.
Import Text.

Definition MIN_PASSWORD_LENGTH : nat := 8.
Definition MAX_PASSWORD_LENGTH : nat := 128.

(** [PHONE_REGEX = /^(\+266|266)?[0-9]{8}$/] *)
Definition PHONE_REGEX (s : string) : bool :=
  digitsN 8 s
  || String.prefix "+266" s && digitsN 8 (MyApplications.slice 4 s)
  || String.prefix "266" s && digitsN 8 (MyApplications.slice 3 s).

(** [ID_NUMBER_REGEX = /^[0-9]{13}$/] *)
Definition ID_NUMBER_REGEX (s : string) : bool := digitsN 13 s.

Definition isValidPhone (phone : string) : bool :=
  if String.eqb phone "" then false else PHONE_REGEX (removeSpaces phone).

Definition isValidIdNumber (idNumber : string) : bool :=
  if String.eqb idNumber "" then false else ID_NUMBER_REGEX (removeSpaces idNumber).

(** [/^P[0-9]{6}$/.test(passportNumber.trim().toUpperCase())] *)
Definition isValidPassportNumber (passportNumber : string) : bool :=
  if String.eqb passportNumber "" then false
  else match MyApplications.toUpperCase (trim passportNumber) with
       | String c rest => Ascii.eqb c "P" && digitsN 6 rest
       | EmptyString => false
       end.

(** [/^(PASS-\d{4}-\d{5}|\d{9,})$/.test(appNumber.trim())] *)
Definition isValidApplicationNumber (appNumber : string) : bool :=
  if String.eqb appNumber "" then false
  else
    let t := trim appNumber in
    String.prefix "PASS-" t && digitsN 4 (substring 5 9 t)
      && String.eqb (substring 9 10 t) "-" && digitsN 5 (MyApplications.slice 10 t)
    || allChars isDigit t && (9 <=? String.length t)%nat.

(** The class of special characters in [validatePassword]: the
    punctuation listed in the string below and the double quote, which
    is character 34. *)
Definition isSpecial (c : ascii) : bool :=
  existsb (Ascii.eqb c) (list_ascii_of_string "!@#$%^&*(),.?:{}|<>")
  || Ascii.eqb c (ascii_of_nat 34).

Record PasswordCheck := mkPasswordCheck {
  isValid : bool;
  errors : list string
}.

(** [errors.push(message)] when the condition holds. *)
Definition pushIf (condition : bool) (message : string) (errors : list string)
    : list string :=
  if condition then errors ++ [message] else errors.

(** [validatePassword] *)
Definition validatePassword (password : string) : PasswordCheck :=
  if String.eqb password "" then mkPasswordCheck false ["Password is required"]
  else
    let errors := [] in
    let errors := pushIf (String.length password <? MIN_PASSWORD_LENGTH)%nat
                    "Password must be at least 8 characters" errors in
    let errors := pushIf (MAX_PASSWORD_LENGTH <? String.length password)%nat
                    "Password must be less than 128 characters" errors in
    let errors := pushIf (negb (anyChar MyApplications.isUpper password))
                    "Password must contain at least one uppercase letter" errors in
    let errors := pushIf (negb (anyChar MyApplications.isLower password))
                    "Password must contain at least one lowercase letter" errors in
    let errors := pushIf (negb (anyChar isDigit password))
                    "Password must contain at least one number" errors in
    let errors := pushIf (negb (anyChar isSpecial password))
                    "Password must contain at least one special character" errors in
    mkPasswordCheck (Nat.eqb (List.length errors) 0) errors.

End Validation.

(** ** utils/storage: reading and writing values

    [JSON.parse], [JSON.stringify] and the string conversion of template
    literals are platform functions; the helpers are modelled over any
    such functions.  [JSON_parse s] is [None] when parsing raises,
    [serialize v] is the text [localStorage] ends up with for a value
    that is not a string, and [display v] is the text a template literal
    shows for a value that is not a string. *)

Module StorageAccess.
Import Storage ApiClient.

(** The key [isLocalStorageAvailable] writes and removes. *)
Definition probeKey : string := "__localStorage_test__".

Section Builtins.

Variable JSON_parse : string -> option JSValue.
Variable serialize : JSValue -> string.
Variable display : JSValue -> string.

(** [getItem]: the default when the probe fails or the key is missing,
    else the parsed item, or the raw string when it is not JSON. *)
Definition getItem (key : string) (defaultValue : JSValue) (ls : LocalStorage)
    : JSValue * LocalStorage :=
  let '(available, ls1) := isLocalStorageAvailable ls in
  if negb available then (defaultValue, ls1)
  else match items ls1 !! key with
       | None => (defaultValue, ls1)
       | Some item =>
           match JSON_parse item with
           | Some value => (value, ls1)
           | None => (JStr item, ls1)
           end
       end.

(** [typeof value === 'string' ? value : JSON.stringify(value)] *)
Definition serializedValue (value : JSValue) : string :=
  match value with
  | JStr s => s
  | _ => serialize value
  end.

(** [setItem] *)
Definition setItem (key : string) (value : JSValue) (ls : LocalStorage)
    : bool * LocalStorage :=
  let '(available, ls1) := isLocalStorageAvailable ls in
  if negb available then (false, ls1)
  else (true, withItems (insert key (serializedValue value)) ls1).

(** [clear] *)
Definition clear (ls : LocalStorage) : bool * LocalStorage :=
  let '(available, ls1) := isLocalStorageAvailable ls in
  if negb available then (false, ls1)
  else (true, withItems (fun _ => ∅) ls1).

Definition getAuthToken (ls : LocalStorage) : JSValue * LocalStorage :=
  getItem Constants.AUTH_TOKEN JNull ls.

Definition setAuthToken (token : JSValue) (ls : LocalStorage) : bool * LocalStorage :=
  setItem Constants.AUTH_TOKEN token ls.

Definition getUserData (ls : LocalStorage) : JSValue * LocalStorage :=
  getItem Constants.USER_DATA JNull ls.

Definition setUserData (userData : JSValue) (ls : LocalStorage) : bool * LocalStorage :=
  setItem Constants.USER_DATA userData ls.

(** [isAuthenticated]: [!!token] *)
Definition isAuthenticated (ls : LocalStorage) : bool * LocalStorage :=
  let '(token, ls1) := getAuthToken ls in (truthy token, ls1).

Definition getTheme (ls : LocalStorage) : JSValue * LocalStorage :=
  getItem Constants.THEME (JStr "light") ls.

Definition setTheme (theme : JSValue) (ls : LocalStorage) : bool * LocalStorage :=
  setItem Constants.THEME theme ls.

(** A value inside a template literal. *)
Definition template (v : JSValue) : string :=
  match v with
  | JStr s => s
  | _ => display v
  end.

(** The request interceptor of api/axios: with a truthy token the
    request gets [Authorization: Bearer <token>], else it goes out as it
    is. *)
Definition onRequest (headers : gmap string string) (ls : LocalStorage)
    : gmap string string * LocalStorage :=
  let '(token, ls1) := getAuthToken ls in
  if truthy token
  then (<["Authorization" := ("Bearer " ++ template token)%string]> headers, ls1)
  else (headers, ls1).

End Builtins.

End StorageAccess.

(** ** contexts/AuthProvider *)

Module AuthProvider.
Import Storage ApiClient.

(** The [useState] cells of the provider. *)
Record State := mkState {
  user : JSValue;
  loading : bool;
  isAuthenticated : bool
}.

Definition initial : State :=
  {| user := JNull; loading := true; isAuthenticated := false |}.

(** How an awaited API call settles: with the response body, or with
    the rejection of the response interceptor. *)
Inductive ApiOutcome :=
| Resolved (response : JSValue)
| Rejected (error : Settlement).

Inductive Toast :=
| ToastSuccess (message : string)
| ToastError (message : JSValue)
| ToastEngineError.

(** What [login] gives back to the page: the response, or the error it
    rethrows. *)
Inductive LoginResult :=
| Returned (response : JSValue)
| Rethrown (error : Settlement).

Section Builtins.

Variable JSON_parse : string -> option JSValue.
Variable serialize : JSValue -> string.
Variable display : JSValue -> string.

Definition setUser (u : JSValue) (st : State) : State :=
  {| user := u; loading := loading st; isAuthenticated := isAuthenticated st |}.

Definition setIsAuthenticated (b : bool) (st : State) : State :=
  {| user := user st; loading := loading st; isAuthenticated := b |}.

Definition setLoading (b : bool) (st : State) : State :=
  {| user := user st; loading := b; isAuthenticated := isAuthenticated st |}.

(** The [catch] block of [login]: [toast.error(error.message || 'Login
    failed')], then the error is thrown again.  The message of a
    [TypeError] is the engine's. *)
Definition loginFailed (error : Settlement) (st : State) (ls : LocalStorage)
    : State * LocalStorage * list Toast * LoginResult :=
  let toast :=
    match error with
    | Rejects reason =>
        ToastError (orElse (default JUndefined (field "message" reason))
                           (JStr "Login failed"))
    | RejectsTypeError => ToastEngineError
    end in
  (st, ls, [toast], Rethrown error).

(** The [try] block of [login] once the API call has resolved. *)
Definition loginResolved (response : JSValue) (st : State) (ls : LocalStorage)
    : State * LocalStorage * list Toast * LoginResult :=
  match getProp response "access_token" with
  | ThrowTypeError => loginFailed RejectsTypeError st ls
  | Normal access_token =>
      let ls1 := if truthy access_token
                 then snd (StorageAccess.setAuthToken serialize access_token ls)
                 else ls in
      match getProp response "user" with
      | ThrowTypeError => loginFailed RejectsTypeError st ls1
      | Normal responseUser =>
          let '(st1, ls2) :=
            if truthy responseUser
            then (setIsAuthenticated true (setUser responseUser st),
                  snd (StorageAccess.setUserData serialize responseUser ls1))
            else (st, ls1) in
          match getProp responseUser "first_name", getProp responseUser "last_name" with
          | Normal first_name, Normal last_name =>
              let fullName :=
                (StorageAccess.template display first_name ++ " "
                 ++ StorageAccess.template display last_name)%string in
              (st1, ls2, [ToastSuccess ("Welcome back, " ++ fullName ++ "!")%string],
               Returned response)
          | _, _ => loginFailed RejectsTypeError st1 ls2
          end
      end
  end.

(** [login] *)
Definition login (outcome : ApiOutcome) (st : State) (ls : LocalStorage)
    : State * LocalStorage * list Toast * LoginResult :=
  match outcome with
  | Resolved response => loginResolved response st ls
  | Rejected error => loginFailed error st ls
  end.

(** [logout]: whatever the API call did, the [finally] block clears the
    stored session and the state. *)
Definition logout (outcome : ApiOutcome) (st : State) (ls : LocalStorage)
    : State * LocalStorage * list Toast :=
  (setIsAuthenticated false (setUser JNull st),
   snd (clearAuthData ls),
   [ToastSuccess "Logged out successfully"]).

(** [initAuth]: with a stored user the session is checked against
    [/auth/me]; [getCurrentUser] is the outcome of that call. *)
Definition initAuth (getCurrentUser : ApiOutcome) (st : State) (ls : LocalStorage)
    : State * LocalStorage :=
  let '(storedUser, ls1) := StorageAccess.getUserData JSON_parse ls in
  if truthy storedUser then
    match getCurrentUser with
    | Resolved currentUser =>
        (setLoading false (setIsAuthenticated true (setUser currentUser st)), ls1)
    | Rejected _ =>
        (setLoading false (setIsAuthenticated false (setUser JNull st)),
         snd (clearAuthData ls1))
    end
  else (setLoading false st, ls1).

(** [hasRole]: [user?.role === role] *)
Definition hasRole (role : string) (st : State) : bool :=
  match user st with
  | JObj props =>
      match props !! "role" with
      | Some (JStr r) => String.eqb r role
      | _ => false
      end
  | _ => false
  end.

End Builtins.

End AuthProvider.

(** ** components/applicant/ApplicationForm: the four-step wizard *)

Module ApplicationForm.

(** A form value: the text of an input, a chosen file, or [null]. *)
Inductive FormValue :=
| Text (s : string)
| FileValue (name : string)
| NullValue.

(** [!!formData[field]]; a missing field reads as [undefined]. *)
Definition filled (v : option FormValue) : bool :=
  match v with
  | Some (Text s) => negb (String.eqb s "")
  | Some (FileValue _) => true
  | Some NullValue | None => false
  end.

Record State := mkState {
  currentStep : Z;
  isSubmitting : bool;
  formData : gmap string FormValue;
  errors : gmap string string
}.

Definition STEPS_length : Z := 4.

Definition initialFormData : gmap string FormValue :=
  list_to_map
    [ ("first_name", Text ""); ("last_name", Text ""); ("email", Text "");
      ("phone", Text ""); ("date_of_birth", Text ""); ("place_of_birth", Text "");
      ("nationality", Text "Lesotho"); ("gender", Text "");
      ("residential_address", Text ""); ("submission_location_id", Text "");
      ("emergency_contact_name", Text ""); ("emergency_contact_phone", Text "");
      ("emergency_contact_relationship", Text "");
      ("passport_type", Text "regular"); ("reason_for_issuance", Text "");
      ("previous_passport_number", Text "");
      ("photo", NullValue); ("id_document", NullValue); ("notes", Text "") ].

Definition initial : State :=
  {| currentStep := 1; isSubmitting := false;
     formData := initialFormData; errors := ∅ |}.

(** The checks of [validateStep], step by step: the field and the
    message it gets when it is empty. *)
Definition required (step : Z) : list (string * string) :=
  if (step =? 1)%Z then
    [ ("first_name", "First name is required");
      ("last_name", "Last name is required");
      ("gender", "Gender is required");
      ("email", "Email is required");
      ("phone", "Phone is required");
      ("date_of_birth", "Date of birth is required");
      ("place_of_birth", "Place of birth is required");
      ("residential_address", "Address is required");
      ("submission_location_id", "Office location is required") ]
  else if (step =? 2)%Z then
    [ ("reason_for_issuance", "Reason is required") ]
  else if (step =? 3)%Z then
    [ ("photo", "Passport photo is required");
      ("id_document", "ID document is required") ]
  else [].

(** [newErrors] after the checks of a step. *)
Definition newErrors (step : Z) (data : gmap string FormValue) : gmap string string :=
  foldl (fun errs check =>
           if filled (data !! fst check) then errs
           else <[fst check := snd check]> errs)
        ∅ (required step).

(** [validateStep]: the errors are replaced, and the step is valid
    when there is none. *)
Definition validateStep (step : Z) (st : State) : bool * State :=
  let errs := newErrors step (formData st) in
  (bool_decide (errs = ∅),
   {| currentStep := currentStep st; isSubmitting := isSubmitting st;
      formData := formData st; errors := errs |}).

Definition setCurrentStep (f : Z -> Z) (st : State) : State :=
  {| currentStep := f (currentStep st); isSubmitting := isSubmitting st;
     formData := formData st; errors := errors st |}.

Definition setIsSubmitting (b : bool) (st : State) : State :=
  {| currentStep := currentStep st; isSubmitting := b;
     formData := formData st; errors := errors st |}.

(** [nextStep] *)
Definition nextStep (st : State) : State :=
  let '(valid, st1) := validateStep (currentStep st) st in
  if valid then setCurrentStep (fun prev => Z.min (prev + 1) STEPS_length) st1
  else st1.

(** [prevStep] *)
Definition prevStep (st : State) : State :=
  setCurrentStep (fun prev => Z.max (prev - 1) 1) st.

(** [if (errors[name]) setErrors(prev => ({ ...prev, [name]: '' }))] *)
Definition clearError (name : string) (errs : gmap string string)
    : gmap string string :=
  match errs !! name with
  | Some message => if String.eqb message "" then errs else <[name := ""]> errs
  | None => errs
  end.

(** [handleChange] *)
Definition handleChange (name value : string) (st : State) : State :=
  {| currentStep := currentStep st; isSubmitting := isSubmitting st;
     formData := <[name := Text value]> (formData st);
     errors := clearError name (errors st) |}.

(** [handleFileChange]: nothing happens when no file was chosen. *)
Definition handleFileChange (name : string) (file : option string) (st : State)
    : State :=
  match file with
  | Some f =>
      {| currentStep := currentStep st; isSubmitting := isSubmitting st;
         formData := <[name := FileValue f]> (formData st);
         errors := clearError name (errors st) |}
  | None => st
  end.

(** The text of a field, [''] for anything that is not text. *)
Definition textOf (data : gmap string FormValue) (field : string) : string :=
  match data !! field with
  | Some (Text s) => s
  | _ => ""
  end.

(** A payload property that is always sent. *)
Definition always (data : gmap string FormValue) (field : string)
    : string * ApiClient.JSValue :=
  (field, ApiClient.JStr (textOf data field)).

(** [formData.field || undefined]: the property is left out of the
    request when the field is empty. *)
Definition whenFilled (data : gmap string FormValue) (field : string)
    : list (string * ApiClient.JSValue) :=
  if String.eqb (textOf data field) "" then []
  else [(field, ApiClient.JStr (textOf data field))].

(** [applicationData] of [handleSubmit]. *)
Definition applicationData (data : gmap string FormValue)
    : gmap string ApiClient.JSValue :=
  list_to_map
    ([ always data "first_name"; always data "last_name"; always data "gender";
       always data "email"; always data "phone"; always data "date_of_birth";
       always data "place_of_birth"; always data "nationality";
       always data "residential_address"; always data "submission_location_id" ]
     ++ whenFilled data "emergency_contact_name"
     ++ whenFilled data "emergency_contact_phone"
     ++ whenFilled data "emergency_contact_relationship"
     ++ [ always data "passport_type"; ("pages", ApiClient.JNum 32);
          ("reason_for_issuance",
           ApiClient.JStr (Text.toLowerCase (textOf data "reason_for_issuance"))) ]
     ++ whenFilled data "previous_passport_number"
     ++ whenFilled data "notes").

Inductive Effect :=
| CreateApplication (payload : gmap string ApiClient.JSValue)
| UploadDocuments (application_id : string) (parts : list string)
| ToastSuccess (message : string)
| ToastError (message : string)
| Navigate (path : string).

(** How [applicationsApi.create] settles. *)
Inductive CreateOutcome :=
| Created (id application_number : string)
| CreateRejected (detail : option string).

(** The files appended to the upload, in order. *)
Definition uploadParts (data : gmap string FormValue) : list string :=
  (if filled (data !! "photo") then ["passport_photo"] else [])
  ++ (if filled (data !! "id_document") then ["id_document"] else []).

(** [handleSubmit]; [uploadOk] tells whether the document upload went
    through. *)
Definition handleSubmit (created : CreateOutcome) (uploadOk : bool) (st : State)
    : list Effect * State :=
  let '(valid, st1) := validateStep (currentStep st) st in
  if negb valid then ([], st1)
  else
    let data := formData st1 in
    let request := CreateApplication (applicationData data) in
    match created with
    | Created id number =>
        let upload :=
          if filled (data !! "photo") || filled (data !! "id_document")
          then UploadDocuments id (uploadParts data)
               :: (if uploadOk then []
                   else [ToastError "Documents failed to upload, but application was created"])
          else [] in
        (request :: upload
           ++ [ ToastSuccess ("Application submitted successfully! Application #: " ++ number)%string;
                Navigate ("/applicant/appointments/book-submission?application=" ++ id)%string ],
         setIsSubmitting false st1)
    | CreateRejected detail =>
        ([request; ToastError (default "Failed to submit application" detail)],
         setIsSubmitting false st1)
    end.

(** The inputs each step renders. *)
Definition textInputs (step : Z) : list string :=
  if (step =? 1)%Z then
    [ "first_name"; "last_name"; "gender"; "date_of_birth"; "place_of_birth";
      "email"; "phone"; "residential_address"; "submission_location_id";
      "emergency_contact_name"; "emergency_contact_phone";
      "emergency_contact_relationship" ]
  else if (step =? 2)%Z then
    [ "passport_type"; "reason_for_issuance"; "previous_passport_number" ]
  else if (step =? 3)%Z then [ "notes" ]
  else [].

Definition fileInputs (step : Z) : list string :=
  if (step =? 3)%Z then [ "photo"; "id_document" ] else [].

(** What the user can do with the rendered form. *)
Inductive Event :=
| Change (name value : string)
| FileChange (name : string) (file : option string)
| ClickNext
| ClickPrevious
| ClickSubmit (created : CreateOutcome) (uploadOk : bool).

Definition inList (name : string) (names : list string) : bool :=
  existsb (String.eqb name) names.

(** One event on the rendered form: an input fires only on the step
    that shows it, Previous is disabled on step 1, Next is shown before
    the last step and Submit on the last one, disabled while
    submitting. *)
Definition fire (ev : Event) (st : State) : list Effect * State :=
  match ev with
  | Change name value =>
      if inList name (textInputs (currentStep st))
      then ([], handleChange name value st) else ([], st)
  | FileChange name file =>
      if inList name (fileInputs (currentStep st))
      then ([], handleFileChange name file st) else ([], st)
  | ClickNext =>
      if (currentStep st <? STEPS_length)%Z then ([], nextStep st) else ([], st)
  | ClickPrevious =>
      if (currentStep st =? 1)%Z then ([], st) else ([], prevStep st)
  | ClickSubmit created uploadOk =>
      if (currentStep st <? STEPS_length)%Z || isSubmitting st then ([], st)
      else handleSubmit created uploadOk st
  end.

(** The state after a sequence of events, and all effects on the way. *)
Fixpoint run (events : list Event) (st : State) : list Effect * State :=
  match events with
  | [] => ([], st)
  | ev :: rest =>
      let '(effects, st1) := fire ev st in
      let '(more, st2) := run rest st1 in
      (effects ++ more, st2)
  end.

(** The required fields of the steps before [step] are all filled. *)
Definition completed (step : Z) (data : gmap string FormValue) : Prop :=
  forall k field message,
    (1 <= k < step)%Z -> In (field, message) (required k) ->
    filled (data !! field) = true.

(** The names of all text inputs of the form. *)
Definition textNames : list string :=
  textInputs 1 ++ textInputs 2 ++ textInputs 3.

(** Every text input holds text. *)
Definition textual (data : gmap string FormValue) : Prop :=
  forall name, In name textNames -> exists s, data !! name = Some (Text s).

(** What holds in every state the form can reach. *)
Definition Inv (st : State) : Prop :=
  (1 <= currentStep st <= STEPS_length)%Z
  /\ completed (currentStep st) (formData st)
  /\ textual (formData st).

(** The text fields a submitted application must carry. *)
Definition requiredText : list string :=
  [ "first_name"; "last_name"; "gender"; "email"; "phone"; "date_of_birth";
    "place_of_birth"; "residential_address"; "submission_location_id";
    "reason_for_issuance" ].

(** A complete pass through the form. *)
Definition sampleSession : list Event :=
  [ Change "first_name" "Thabo"; Change "last_name" "Mokoena";
    Change "gender" "male"; Change "email" "thabo@example.org";
    Change "phone" "58129821"; Change "date_of_birth" "1990-04-12";
    Change "place_of_birth" "Maseru"; Change "residential_address" "12 Kingsway, Maseru";
    Change "submission_location_id" "loc-1"; ClickNext;
    Change "reason_for_issuance" "New"; ClickNext;
    FileChange "photo" (Some "photo.jpg"); FileChange "id_document" (Some "id.pdf");
    ClickNext; ClickSubmit (Created "app-9" "PA-2025-0009") true ].

End ApplicationForm.

(** ** Booking pages: what the server says about a date *)

Module Booking.

(** The answer of [checkAvailability]. *)
Record Availability := mkAvailability {
  requested_date : string;
  available_slots : list TimeSlot
}.

(** How an awaited call settles; [detail] is the truthy
    [error.response?.data?.detail], when there is one. *)
Inductive Outcome (A : Type) :=
| Resolved (result : A)
| Rejected (detail : option string).
Arguments Resolved {A} result.
Arguments Rejected {A} detail.

(** The body of [createAppointment]. *)
Record AppointmentRequest := mkAppointmentRequest {
  passport_application_id : string;
  time_slot_id : string;
  location_id : string;
  appointment_type : option string
}.

Inductive Effect :=
| ToastError (message : string)
| ToastSuccess (message : string)
| CheckAvailability (application_id location_id preferred_date : string)
| CreateAppointment (request : AppointmentRequest)
| Navigate (path : string).

End Booking.

(** ** pages/applicant/BookSubmissionAppointment *)

Module BookSubmissionAppointment.
Import Booking.

(** The application as this page uses it. *)
Record ApplicationData := mkApplicationData {
  summary : Application;
  submission_location_id : string
}.

Record State := mkState {
  applicationId : string;
  loading : bool;
  bookingLoading : bool;
  application : option ApplicationData;
  selectedDate : string;
  availability : option Availability;
  selectedSlot : option TimeSlot
}.

Definition initial (applicationId : string) : State :=
  {| applicationId := applicationId; loading := false; bookingLoading := false;
     application := None; selectedDate := ""; availability := None;
     selectedSlot := None |}.

Definition setApplication (a : ApplicationData) (st : State) : State :=
  {| applicationId := applicationId st; loading := loading st;
     bookingLoading := bookingLoading st; application := Some a;
     selectedDate := selectedDate st; availability := availability st;
     selectedSlot := selectedSlot st |}.

Definition setSelectedDate (d : string) (st : State) : State :=
  {| applicationId := applicationId st; loading := loading st;
     bookingLoading := bookingLoading st; application := application st;
     selectedDate := d; availability := availability st;
     selectedSlot := selectedSlot st |}.

Definition setAvailability (a : option Availability) (st : State) : State :=
  {| applicationId := applicationId st; loading := loading st;
     bookingLoading := bookingLoading st; application := application st;
     selectedDate := selectedDate st; availability := a;
     selectedSlot := selectedSlot st |}.

Definition setSelectedSlot (s : option TimeSlot) (st : State) : State :=
  {| applicationId := applicationId st; loading := loading st;
     bookingLoading := bookingLoading st; application := application st;
     selectedDate := selectedDate st; availability := availability st;
     selectedSlot := s |}.

Definition setLoading (b : bool) (st : State) : State :=
  {| applicationId := applicationId st; loading := b;
     bookingLoading := bookingLoading st; application := application st;
     selectedDate := selectedDate st; availability := availability st;
     selectedSlot := selectedSlot st |}.

Definition setBookingLoading (b : bool) (st : State) : State :=
  {| applicationId := applicationId st; loading := loading st;
     bookingLoading := b; application := application st;
     selectedDate := selectedDate st; availability := availability st;
     selectedSlot := selectedSlot st |}.

(** [handleCheckAvailability]; reading [submission_location_id] of a
    missing application raises inside the [try] and ends in the error
    toast. *)
Definition handleCheckAvailability (outcome : Outcome Availability) (st : State)
    : list Effect * State :=
  if String.eqb (selectedDate st) "" then ([ToastError "Please select a date"], st)
  else
    match application st with
    | None => ([ToastError "Failed to check availability"],
               setLoading false (setLoading true st))
    | Some app =>
        let request := CheckAvailability (applicationId st)
                         (submission_location_id app) (selectedDate st) in
        match outcome with
        | Resolved data =>
            ([request], setLoading false (setAvailability (Some data) (setLoading true st)))
        | Rejected detail =>
            ([request; ToastError (default "Failed to check availability" detail)],
             setLoading false (setLoading true st))
        end
    end.

(** [handleBookAppointment] *)
Definition handleBookAppointment (outcome : Outcome unit) (st : State)
    : list Effect * State :=
  match selectedSlot st with
  | None => ([ToastError "Please select a time slot"], st)
  | Some slot =>
      match application st with
      | None => ([ToastError "Failed to book appointment"],
                 setBookingLoading false (setBookingLoading true st))
      | Some app =>
          let request := CreateAppointment
                           {| passport_application_id := applicationId st;
                              time_slot_id := slot_id slot;
                              location_id := submission_location_id app;
                              appointment_type := Some "submission" |} in
          match outcome with
          | Resolved _ =>
              ([request; ToastSuccess "Submission appointment booked successfully!";
                Navigate "/applicant/appointments"],
               setBookingLoading false (setBookingLoading true st))
          | Rejected detail =>
              ([request; ToastError (default "Failed to book appointment" detail)],
               setBookingLoading false (setBookingLoading true st))
          end
      end
  end.

(** What can happen on the page. *)
Inductive Event :=
| ApplicationLoaded (a : ApplicationData)
| SetDate (d : string)
| ClickCheck (outcome : Outcome Availability)
| ClickChooseDifferentDate
| ClickSlot (index : nat)
| ClickConfirm (outcome : Outcome unit).

(** One event on the rendered page, a handler running to its end before
    the next event.  Until the application is loaded only the spinner
    is shown.  Without an availability the page shows
    the date input and the check button; with one it shows the way back
    and, when there are slots, the slot buttons and the confirm button,
    [disabled={!selectedSlot || bookingLoading}]. *)
Definition fire (ev : Event) (st : State) : list Effect * State :=
  match ev, application st with
  | ApplicationLoaded a, _ => ([], setApplication a st)
  | _, None => ([], st)
  | SetDate d, Some _ =>
      match availability st with
      | None => ([], setSelectedDate d st)
      | Some _ => ([], st)
      end
  | ClickCheck outcome, Some _ =>
      match availability st with
      | None => if loading st then ([], st) else handleCheckAvailability outcome st
      | Some _ => ([], st)
      end
  | ClickChooseDifferentDate, Some _ =>
      match availability st with
      | None => ([], st)
      | Some _ => ([], setSelectedSlot None (setAvailability None st))
      end
  | ClickSlot index, Some _ =>
      match availability st with
      | None => ([], st)
      | Some a =>
          match available_slots a !! index with
          | Some slot => ([], setSelectedSlot (Some slot) st)
          | None => ([], st)
          end
      end
  | ClickConfirm outcome, Some _ =>
      match availability st with
      | None => ([], st)
      | Some a =>
          match available_slots a, selectedSlot st with
          | [], _ => ([], st)
          | _, None => ([], st)
          | _, Some _ =>
              if bookingLoading st then ([], st)
              else handleBookAppointment outcome st
          end
      end
  end.

Fixpoint run (events : list Event) (st : State) : list Effect * State :=
  match events with
  | [] => ([], st)
  | ev :: rest =>
      let '(effects, st1) := fire ev st in
      let '(more, st2) := run rest st1 in
      (effects ++ more, st2)
  end.

(** The selected slot is one of the slots on display. *)
Definition slotOnDisplay (st : State) : Prop :=
  forall slot, selectedSlot st = Some slot ->
    exists a, availability st = Some a /\ In slot (available_slots a).

(** What a state owes to the events seen so far. *)
Definition Known (id : string) (all : list Event) (st : State) : Prop :=
  applicationId st = id
  /\ (forall a, availability st = Some a -> In (ClickCheck (Resolved a)) all)
  /\ (forall app, application st = Some app -> In (ApplicationLoaded app) all)
  /\ slotOnDisplay st.

(** What a booking request owes to them. *)
Definition Sound (id : string) (all : list Event) (r : AppointmentRequest) : Prop :=
  passport_application_id r = id
  /\ appointment_type r = Some "submission"
  /\ (exists a slot, In (ClickCheck (Resolved a)) all
        /\ In slot (available_slots a) /\ time_slot_id r = slot_id slot)
  /\ (exists app, In (ApplicationLoaded app) all
        /\ location_id r = submission_location_id app).

(** What one step keeps and what it may send. *)
Definition Step (id : string) (all : list Event) (res : list Effect * State) : Prop :=
  Known id all (snd res)
  /\ (forall r, In (CreateAppointment r) (fst res) -> Sound id all r)
  /\ (forall a l d, In (CheckAvailability a l d) (fst res) -> a = id /\ d <> "").

(** A visit: the application arrives, a date is checked, the first
    slot is chosen and confirmed. *)
Definition sampleApplication : ApplicationData :=
  {| summary := {| app_id := "app-1"; application_number := "LSO-2025-000001";
                   app_status := "submitted" |};
     submission_location_id := "maseru" |}.

Definition sampleAnswer : Availability :=
  {| requested_date := "2025-03-03";
     available_slots :=
       [ {| slot_id := "slot-morning"; start_time := "09:00";
            available_capacity := 3 |} ] |}.

Definition sampleVisit : list Event :=
  [ ApplicationLoaded sampleApplication; SetDate "2025-03-03";
    ClickCheck (Resolved sampleAnswer); ClickSlot 0; ClickConfirm (Resolved tt) ].

End BookSubmissionAppointment.

(** ** pages/applicant/BookAppointment: booking a collection *)

Module BookAppointment.
Import Booking.

Record State := mkState {
  step : Z;
  loading : bool;
  bookingLoading : bool;
  applications : list Application;
  locations : list string;
  selectedApplicationId : string;
  selectedLocationId : string;
  selectedDate : string;
  availability : option Availability;
  selectedSlot : option TimeSlot
}.

(** [useState(applicationId || '')] for the selected application. *)
Definition initial (applicationId : option string) : State :=
  {| step := 1; loading := false; bookingLoading := false;
     applications := []; locations := [];
     selectedApplicationId := default "" applicationId;
     selectedLocationId := ""; selectedDate := "";
     availability := None; selectedSlot := None |}.

Definition setLoading (b : bool) (st : State) : State :=
  {| step := step st; loading := b; bookingLoading := bookingLoading st;
     applications := applications st; locations := locations st;
     selectedApplicationId := selectedApplicationId st;
     selectedLocationId := selectedLocationId st;
     selectedDate := selectedDate st;
     availability := availability st; selectedSlot := selectedSlot st |}.

Definition setBookingLoading (b : bool) (st : State) : State :=
  {| step := step st; loading := loading st; bookingLoading := b;
     applications := applications st; locations := locations st;
     selectedApplicationId := selectedApplicationId st;
     selectedLocationId := selectedLocationId st;
     selectedDate := selectedDate st;
     availability := availability st; selectedSlot := selectedSlot st |}.

Definition setApplications (apps : list Application) (st : State) : State :=
  {| step := step st; loading := loading st; bookingLoading := bookingLoading st;
     applications := apps; locations := locations st;
     selectedApplicationId := selectedApplicationId st;
     selectedLocationId := selectedLocationId st;
     selectedDate := selectedDate st;
     availability := availability st; selectedSlot := selectedSlot st |}.

Definition setLocations (locs : list string) (st : State) : State :=
  {| step := step st; loading := loading st; bookingLoading := bookingLoading st;
     applications := applications st; locations := locs;
     selectedApplicationId := selectedApplicationId st;
     selectedLocationId := selectedLocationId st;
     selectedDate := selectedDate st;
     availability := availability st; selectedSlot := selectedSlot st |}.

(** [fetchInitialData] keeps the applications that are ready for
    pickup. *)
Definition fetchInitialData (outcome : Outcome (list Application * list string))
    (st : State) : list Effect * State :=
  match outcome with
  | Resolved (apps, locs) =>
      let readyApps :=
        List.filter (fun app => String.eqb (app_status app) "ready_for_pickup") apps in
      ([], setLoading false
             (setLocations locs (setApplications readyApps (setLoading true st))))
  | Rejected _ =>
      ([ToastError "Failed to load data"], setLoading false (setLoading true st))
  end.

Definition setStep (n : Z) (st : State) : State :=
  {| step := n; loading := loading st; bookingLoading := bookingLoading st;
     applications := applications st; locations := locations st;
     selectedApplicationId := selectedApplicationId st;
     selectedLocationId := selectedLocationId st;
     selectedDate := selectedDate st;
     availability := availability st; selectedSlot := selectedSlot st |}.

Definition setSelectedApplicationId (v : string) (st : State) : State :=
  {| step := step st; loading := loading st; bookingLoading := bookingLoading st;
     applications := applications st; locations := locations st;
     selectedApplicationId := v;
     selectedLocationId := selectedLocationId st;
     selectedDate := selectedDate st;
     availability := availability st; selectedSlot := selectedSlot st |}.

Definition setSelectedLocationId (v : string) (st : State) : State :=
  {| step := step st; loading := loading st; bookingLoading := bookingLoading st;
     applications := applications st; locations := locations st;
     selectedApplicationId := selectedApplicationId st;
     selectedLocationId := v;
     selectedDate := selectedDate st;
     availability := availability st; selectedSlot := selectedSlot st |}.

Definition setSelectedDate (v : string) (st : State) : State :=
  {| step := step st; loading := loading st; bookingLoading := bookingLoading st;
     applications := applications st; locations := locations st;
     selectedApplicationId := selectedApplicationId st;
     selectedLocationId := selectedLocationId st;
     selectedDate := v;
     availability := availability st; selectedSlot := selectedSlot st |}.

Definition setAvailability (a : option Availability) (st : State) : State :=
  {| step := step st; loading := loading st; bookingLoading := bookingLoading st;
     applications := applications st; locations := locations st;
     selectedApplicationId := selectedApplicationId st;
     selectedLocationId := selectedLocationId st;
     selectedDate := selectedDate st;
     availability := a; selectedSlot := selectedSlot st |}.

Definition setSelectedSlot (s : option TimeSlot) (st : State) : State :=
  {| step := step st; loading := loading st; bookingLoading := bookingLoading st;
     applications := applications st; locations := locations st;
     selectedApplicationId := selectedApplicationId st;
     selectedLocationId := selectedLocationId st;
     selectedDate := selectedDate st;
     availability := availability st; selectedSlot := s |}.

(** [handleCheckAvailability]: all three fields are needed; a good
    answer is stored and opens step 2.  The selected slot is not
    touched. *)
Definition handleCheckAvailability (outcome : Outcome Availability) (st : State)
    : list Effect * State :=
  if String.eqb (selectedApplicationId st) ""
     || String.eqb (selectedLocationId st) ""
     || String.eqb (selectedDate st) ""
  then ([ToastError "Please fill all fields"], st)
  else
    let request := CheckAvailability (selectedApplicationId st)
                     (selectedLocationId st) (selectedDate st) in
    match outcome with
    | Resolved data =>
        ([request],
         setLoading false (setStep 2 (setAvailability (Some data) (setLoading true st))))
    | Rejected detail =>
        ([request; ToastError (default "Failed to check availability" detail)],
         setLoading false (setLoading true st))
    end.

(** [handleBookAppointment]; [result] is the confirmation code. *)
Definition handleBookAppointment (outcome : Outcome string) (st : State)
    : list Effect * State :=
  match selectedSlot st with
  | None => ([ToastError "Please select a time slot"], st)
  | Some slot =>
      let request := CreateAppointment
                       {| passport_application_id := selectedApplicationId st;
                          time_slot_id := slot_id slot;
                          location_id := selectedLocationId st;
                          appointment_type := None |} in
      match outcome with
      | Resolved code =>
          ([request; ToastSuccess ("Appointment booked! Confirmation: " ++ code)%string;
            Navigate "/applicant/appointments"],
           setBookingLoading false (setBookingLoading true st))
      | Rejected detail =>
          ([request; ToastError (default "Failed to book appointment" detail)],
           setBookingLoading false (setBookingLoading true st))
      end
  end.

Inductive Event :=
| DataLoaded (outcome : Outcome (list Application * list string))
| SelectApplication (id : string)
| SelectLocation (id : string)
| SetDate (d : string)
| ClickCheck (outcome : Outcome Availability)
| ClickBack
| ClickSlot (index : nat)
| ClickConfirm (outcome : Outcome string).

(** One event on the rendered page, a handler running to its end before
    the next event.  Without a ready application the page shows no form
    at all.  Step 1 shows the three inputs and the
    check button; step 2 shows the way back and, when there are slots,
    the slot buttons and the confirm button. *)
Definition fire (ev : Event) (st : State) : list Effect * State :=
  match ev with
  | DataLoaded outcome => fetchInitialData outcome st
  | _ =>
      match applications st with
      | [] => ([], st)
      | _ :: _ =>
          if (step st =? 1)%Z then
            match ev with
            | SelectApplication id => ([], setSelectedApplicationId id st)
            | SelectLocation id => ([], setSelectedLocationId id st)
            | SetDate d => ([], setSelectedDate d st)
            | ClickCheck outcome =>
                if loading st then ([], st) else handleCheckAvailability outcome st
            | _ => ([], st)
            end
          else if (step st =? 2)%Z then
            match availability st with
            | None => ([], st)
            | Some a =>
                match ev with
                | ClickBack => ([], setStep 1 st)
                | ClickSlot index =>
                    match available_slots a !! index with
                    | Some slot => ([], setSelectedSlot (Some slot) st)
                    | None => ([], st)
                    end
                | ClickConfirm outcome =>
                    match available_slots a, selectedSlot st with
                    | [], _ => ([], st)
                    | _, None => ([], st)
                    | _, Some _ =>
                        if bookingLoading st then ([], st)
                        else handleBookAppointment outcome st
                    end
                | _ => ([], st)
                end
            end
          else ([], st)
      end
  end.

Fixpoint run (events : list Event) (st : State) : list Effect * State :=
  match events with
  | [] => ([], st)
  | ev :: rest =>
      let '(effects, st1) := fire ev st in
      let '(more, st2) := run rest st1 in
      (effects ++ more, st2)
  end.

(** What holds in every state the page can reach. *)
Definition Inv (st : State) : Prop :=
  (step st = 1 \/ step st = 2)%Z
  /\ (forall app, In app (applications st) -> app_status app = "ready_for_pickup")
  /\ (step st = 2%Z ->
      availability st <> None
      /\ selectedApplicationId st <> ""
      /\ selectedLocationId st <> ""
      /\ selectedDate st <> "").

(** What a state owes to the events seen so far: the answer on display
    and the selected slot come from answers to a check. *)
Definition Known (all : list Event) (st : State) : Prop :=
  (forall a, availability st = Some a -> In (ClickCheck (Resolved a)) all)
  /\ (forall slot, selectedSlot st = Some slot ->
        exists a, In (ClickCheck (Resolved a)) all /\ In slot (available_slots a)).


(** What a booking request owes to the events and to the requests sent
    so far. *)
Definition Sound (all : list Event) (sent : list Effect) (r : AppointmentRequest)
    : Prop :=
  appointment_type r = None
  /\ passport_application_id r <> ""
  /\ location_id r <> ""
  /\ (exists d, In (CheckAvailability (passport_application_id r) (location_id r) d)
                  sent)
  /\ (exists a slot, In (ClickCheck (Resolved a)) all
        /\ In slot (available_slots a) /\ time_slot_id r = slot_id slot).

(** Whether an effect is a request to the server. *)
Definition isRequest (e : Effect) : bool :=
  match e with
  | CheckAvailability _ _ _ | CreateAppointment _ => true
  | _ => false
  end.

(** Whether a list of applications has one ready for pickup. *)
Definition anyReady (apps : list Application) : bool :=
  existsb (fun app => String.eqb (app_status app) "ready_for_pickup") apps.

(** A visit: one application ready for pickup, a location, a date with
    one slot, and that slot chosen. *)
Definition readyApplication : Application :=
  {| app_id := "app-1"; application_number := "LSO-2025-000001";
     app_status := "ready_for_pickup" |}.

Definition morningSlot : TimeSlot :=
  {| slot_id := "slot-morning"; start_time := "09:00"; available_capacity := 3 |}.

Definition afternoonSlot : TimeSlot :=
  {| slot_id := "slot-afternoon"; start_time := "14:00"; available_capacity := 1 |}.

Definition firstAnswer : Availability :=
  {| requested_date := "2025-03-03"; available_slots := [morningSlot] |}.

Definition secondAnswer : Availability :=
  {| requested_date := "2025-03-04"; available_slots := [afternoonSlot] |}.

Definition sampleVisit : list Event :=
  [ DataLoaded (Resolved ([readyApplication], ["maseru"]));
    SelectApplication "app-1"; SelectLocation "maseru"; SetDate "2025-03-03";
    ClickCheck (Resolved firstAnswer); ClickSlot 0 ].


(** A visit on which the only application is still being processed. *)
Definition idleVisit : list Event :=
  [ DataLoaded (Rejected None);
    DataLoaded (Resolved ([ {| app_id := "app-2";
                               application_number := "LSO-2025-000002";
                               app_status := "processing" |} ], ["maseru"]));
    SelectApplication "app-2"; SelectLocation "maseru"; SetDate "2025-03-03";
    ClickCheck (Resolved firstAnswer) ].

End BookAppointment.

(** * Properties *)

(** ** Array.prototype.find *)

Section Find.

Context {A : Type} (p : A -> bool).

Lemma find_None_Forall (l : list A) :
  List.find p l = None <-> Forall (fun x => p x = false) l.
Proof.
  induction l as [|x l IH]; simpl.
  - split; [constructor | reflexivity].
  - destruct (p x) eqn:Hx.
    + split; [discriminate |].
      intros H. inversion H; congruence.
    + rewrite IH. split.
      * intros H. constructor; assumption.
      * intros H. inversion H; assumption.
Qed.

(** [find] returns the first element that satisfies the predicate:
    everything before it in the list fails it. *)
Lemma find_Some_first (l : list A) (a : A) :
  List.find p l = Some a ->
  exists before after,
    l = before ++ a :: after /\ Forall (fun x => p x = false) before /\ p a = true.
Proof.
  induction l as [|x l IH]; simpl; [discriminate |].
  destruct (p x) eqn:Hx.
  - intros [= ->]. exists [], l. repeat split; [constructor | assumption].
  - intros H. destruct (IH H) as (before & after & -> & Hb & Ha).
    exists (x :: before), after. repeat split; [constructor; assumption | assumption].
Qed.

Lemma find_first_Some (before after : list A) (a : A) :
  Forall (fun x => p x = false) before -> p a = true ->
  List.find p (before ++ a :: after) = Some a.
Proof.
  induction 1 as [|x before Hx _ IH]; simpl; intros Ha.
  - rewrite Ha. reflexivity.
  - rewrite Hx. apply IH, Ha.
Qed.

End Find.

Lemma eqb_false_neq (s t : string) : String.eqb s t = false <-> s <> t.
Proof. apply String.eqb_neq. Qed.

Lemma Forall_eqb_false {A} (f : A -> string) (t : string) (l : list A) :
  Forall (fun x => String.eqb (f x) t = false) l <-> Forall (fun x => f x <> t) l.
Proof.
  split; intros H; eapply Forall_impl; try exact H; intros x; apply eqb_false_neq.
Qed.

(** ** Appointment eligibility *)

Module Eligibility.
Import ApplicationDetail.

Lemma truthy_false {A} (o : option A) : negb (truthy o) = true <-> o = None.
Proof. destruct o; simpl; split; congruence. Qed.

Lemma canBookSubmission_spec (app : Application) (appts : list Appointment) :
  canBookSubmission (mkState (Some app) appts) = true <->
  app_status app = "submitted"
  /\ Forall (fun a => apt_type a <> "submission") appts.
Proof.
  unfold canBookSubmission, statusIs, getSubmissionAppointment; simpl.
  rewrite andb_true_iff, String.eqb_eq, truthy_false, find_None_Forall.
  rewrite Forall_eqb_false. reflexivity.
Qed.

Lemma canBookCollection_spec (app : Application) (appts : list Appointment) :
  canBookCollection (mkState (Some app) appts) = true <->
  app_status app = "ready_for_pickup"
  /\ Forall (fun a => apt_type a <> "collection") appts.
Proof.
  unfold canBookCollection, statusIs, getCollectionAppointment; simpl.
  rewrite andb_true_iff, String.eqb_eq, truthy_false, find_None_Forall.
  rewrite Forall_eqb_false. reflexivity.
Qed.

(** C1.  For every application and every appointment list,
    [canBookSubmission] is true exactly when the status is ['submitted']
    and no appointment of the list has type ['submission'], and
    [canBookCollection] is true exactly when the status is
    ['ready_for_pickup'] and no appointment of the list has type
    ['collection']. *)
Theorem canBook_iff (app : Application) (appts : list Appointment) :
  (canBookSubmission (mkState (Some app) appts) = true <->
     app_status app = "submitted"
     /\ Forall (fun a => apt_type a <> "submission") appts)
  /\ (canBookCollection (mkState (Some app) appts) = true <->
        app_status app = "ready_for_pickup"
        /\ Forall (fun a => apt_type a <> "collection") appts).
Proof. split; [apply canBookSubmission_spec | apply canBookCollection_spec]. Qed.

(** Before the application has loaded nothing can be booked. *)
Lemma canBook_unloaded (appts : list Appointment) :
  canBookSubmission (mkState None appts) = false
  /\ canBookCollection (mkState None appts) = false.
Proof. split; reflexivity. Qed.

(** After [fetchData] the helpers see the appointments of this
    application only, so the two flags speak about those. *)
Lemma canBookSubmission_fetchData (id : string) (app : Application)
    (appointmentsData : list Appointment) :
  canBookSubmission (fetchData id app appointmentsData) = true <->
  app_status app = "submitted"
  /\ Forall (fun a => apt_type a <> "submission")
            (filterAppointments id app appointmentsData).
Proof. apply canBookSubmission_spec. Qed.

Example canBook_submitted_empty :
  canBookSubmission (mkState (Some (mkApplication "app-1" "PA-2025-0001" "submitted")) []) = true
  /\ canBookCollection (mkState (Some (mkApplication "app-1" "PA-2025-0001" "submitted")) []) = false.
Proof. split; reflexivity. Qed.

Lemma find_firstOfType (t : string) (appts : list Appointment) :
  firstOfType t appts (List.find (fun apt => String.eqb (apt_type apt) t) appts).
Proof.
  unfold firstOfType.
  destruct (List.find _ appts) as [apt|] eqn:Hfind.
  - apply find_Some_first in Hfind as (before & after & -> & Hb & Ha).
    exists before, after. repeat split.
    + apply Forall_eqb_false with (f := apt_type). exact Hb.
    + apply String.eqb_eq. exact Ha.
  - apply find_None_Forall in Hfind.
    apply Forall_eqb_false with (f := apt_type). exact Hfind.
Qed.

(** C9.  On every appointment list, duplicates of a type included, the
    two derivations return a result, and it is the first appointment of
    the type in list order, or none when the list has no appointment of
    the type. *)
Theorem appointment_is_first_of_type (app : option Application)
    (appts : list Appointment) :
  firstOfType "submission" appts (getSubmissionAppointment (mkState app appts))
  /\ firstOfType "collection" appts (getCollectionAppointment (mkState app appts)).
Proof. split; apply find_firstOfType. Qed.

(** [firstOfType] determines the result: two results that both meet it
    are equal. *)
Lemma firstOfType_unique (t : string) (appts : list Appointment)
    (r1 r2 : option Appointment) :
  firstOfType t appts r1 -> firstOfType t appts r2 -> r1 = r2.
Proof.
  assert (Hfind : forall r, firstOfType t appts r ->
            List.find (fun apt => String.eqb (apt_type apt) t) appts = r).
  { intros [apt|]; simpl.
    - intros (before & after & -> & Hb & Ha).
      apply find_first_Some.
      + apply Forall_eqb_false with (f := apt_type). exact Hb.
      + apply String.eqb_eq. exact Ha.
    - intros H. apply find_None_Forall.
      apply Forall_eqb_false with (f := apt_type). exact H. }
  intros H1 H2. rewrite <- (Hfind _ H1), <- (Hfind _ H2). reflexivity.
Qed.

End Eligibility.

(** ** What the detail page offers *)

Module Offers.
Import ApplicationDetail.

Lemma no_type_no_active (t : string) (appts : list Appointment) :
  Forall (fun a => apt_type a <> t) appts ->
  Forall (fun a => ~ activeOfType t a) appts.
Proof.
  intros H. eapply Forall_impl; [exact H |].
  intros a Ha [Ht _]. exact (Ha Ht).
Qed.

Lemma submissionSection_link (app : Application) (st : State) (aid : string) :
  submissionSection app st = BookAppointmentLink Submission aid ->
  canBookSubmission st = true.
Proof.
  unfold submissionSection.
  destruct (getSubmissionAppointment st); [discriminate |].
  destruct (canBookSubmission st); [reflexivity | discriminate].
Qed.

Lemma collectionSection_link (app : Application) (st : State) (aid : string) :
  collectionSection app st = BookAppointmentLink Collection aid ->
  canBookCollection st = true.
Proof.
  unfold collectionSection.
  destruct (getCollectionAppointment st); [discriminate |].
  destruct (canBookCollection st); [reflexivity | discriminate].
Qed.

(** C4.  Whenever the page offers "Book Submission Appointment" the
    application is ['submitted'] and the list holds no non-cancelled
    submission appointment; whenever it offers "Book Collection
    Appointment" the application is ['ready_for_pickup'] and the list
    holds no non-cancelled collection appointment. *)
Theorem booking_offered_only_when_eligible (st : State) :
  (offersBookSubmission st ->
     exists app, application st = Some app
       /\ app_status app = "submitted"
       /\ Forall (fun a => ~ activeOfType "submission" a) (appointments st))
  /\ (offersBookCollection st ->
        exists app, application st = Some app
          /\ app_status app = "ready_for_pickup"
          /\ Forall (fun a => ~ activeOfType "collection" a) (appointments st)).
Proof.
  destruct st as [[app|] appts]; split;
    intros (sub & col & aid & Hr & Hl); unfold render in Hr; simpl in Hr;
    try discriminate; injection Hr as <- <-; exists app; split; try reflexivity.
  - apply submissionSection_link in Hl.
    apply Eligibility.canBookSubmission_spec in Hl as [Hs Hn].
    split; [exact Hs | apply no_type_no_active, Hn].
  - apply collectionSection_link in Hl.
    apply Eligibility.canBookCollection_spec in Hl as [Hs Hn].
    split; [exact Hs | apply no_type_no_active, Hn].
Qed.

Lemma booking_offered_only_when_eligible_witness :
  let app := mkApplication "app-1" "PA-2025-0001" "submitted" in
  let st := mkState (Some app) [] in
  exists a, application st = Some a /\ app_status a = "submitted"
    /\ Forall (fun x => ~ activeOfType "submission" x) (appointments st).
Proof.
  apply (proj1 (booking_offered_only_when_eligible
                  (mkState (Some (mkApplication "app-1" "PA-2025-0001" "submitted")) []))).
  exists (BookAppointmentLink Submission "app-1"),
         (InfoText "Collection appointment will be available once your passport is ready"),
         "app-1".
  split; reflexivity.
Defined.

(** The booking scenario: a submitted application without appointments
    is offered the submission booking; once the refetch returns a
    submission appointment the card replaces the booking link. *)
Example booking_scenario :
  let app := mkApplication "app-1" "PA-2025-0001" "submitted" in
  let apt := mkAppointment "apt-1" "app-1" "PA-2025-0001" "submission" "scheduled" true in
  submissionSection app (fetchData "app-1" app [])
    = BookAppointmentLink Submission "app-1"
  /\ submissionSection app (fetchData "app-1" app [apt])
       = AppointmentCard apt [RescheduleLink "apt-1" "app-1"; CancelButton "apt-1"].
Proof. split; reflexivity. Qed.

(** Two submission appointments: the first in list order is shown. *)
Example duplicate_submission_appointments :
  let a1 := mkAppointment "apt-1" "app-1" "PA-2025-0001" "submission" "scheduled" true in
  let a2 := mkAppointment "apt-2" "app-1" "PA-2025-0001" "submission" "confirmed" true in
  let c1 := mkAppointment "apt-3" "app-1" "PA-2025-0001" "collection" "scheduled" true in
  getSubmissionAppointment (mkState None [c1; a1; a2]) = Some a1
  /\ getCollectionAppointment (mkState None [a1; a2]) = None.
Proof. split; reflexivity. Qed.

End Offers.

(** ** Cancel and reschedule actions *)

Module Actions.
Import ApplicationDetail.

Lemma cancelVisible_iff (apt : Appointment) :
  MyAppointments.cancelVisible apt = true <->
  apt_status apt = "scheduled" /\ can_be_rescheduled apt = true.
Proof.
  unfold MyAppointments.cancelVisible, MyAppointments.rowActions.
  rewrite <- String.eqb_eq, <- andb_true_iff.
  destruct (String.eqb (apt_status apt) "scheduled" && can_be_rescheduled apt);
    simpl; split; congruence.
Qed.

Lemma cardActions_flag (app : Application) (apt : Appointment) :
  existsb isCancel (cardActions app apt) = can_be_rescheduled apt
  /\ existsb isReschedule (cardActions app apt) = can_be_rescheduled apt.
Proof. unfold cardActions. destruct (can_be_rescheduled apt); split; reflexivity. Qed.

(** C2, as the code has it.  For every scheduled appointment whose
    [can_be_rescheduled] flag is false the appointment list shows no
    cancel action and the detail card shows neither reschedule nor
    cancel: the list shows Cancel exactly when the status is
    ['scheduled'] and the flag is true, and the card shows both actions
    exactly when the flag is true. *)
Theorem cancel_follows_reschedule_flag (app : Application) (apt : Appointment) :
  apt_status apt = "scheduled" ->
  can_be_rescheduled apt = false ->
  MyAppointments.rowActions apt = []
  /\ MyAppointments.cancelVisible apt = false
  /\ cardActions app apt = []
  /\ (forall a : Appointment,
        MyAppointments.cancelVisible a = true <->
        apt_status a = "scheduled" /\ can_be_rescheduled a = true)
  /\ (forall a : Appointment,
        existsb isCancel (cardActions app a) = can_be_rescheduled a
        /\ existsb isReschedule (cardActions app a) = can_be_rescheduled a).
Proof.
  intros Hs Hf.
  assert (Hrow : MyAppointments.rowActions apt = []).
  { unfold MyAppointments.rowActions. rewrite Hf, andb_false_r. reflexivity. }
  split; [exact Hrow |].
  split; [unfold MyAppointments.cancelVisible; rewrite Hrow; reflexivity |].
  split; [unfold cardActions; rewrite Hf; reflexivity |].
  split; [exact cancelVisible_iff | intros a; apply cardActions_flag].
Qed.

Lemma cancel_follows_reschedule_flag_witness :
  let app := mkApplication "app-1" "PA-2025-0001" "ready_for_pickup" in
  let apt := mkAppointment "apt-7" "app-1" "PA-2025-0001" "collection" "scheduled" false in
  MyAppointments.rowActions apt = [] /\ cardActions app apt = [].
Proof.
  destruct (cancel_follows_reschedule_flag
              (mkApplication "app-1" "PA-2025-0001" "ready_for_pickup")
              (mkAppointment "apt-7" "app-1" "PA-2025-0001" "collection" "scheduled" false)
              eq_refl eq_refl) as (H1 & _ & H2 & _).
  split; [exact H1 | exact H2].
Defined.

(** C2 as the specification words it fails: a scheduled appointment
    with [can_be_rescheduled = false] has no cancel action in the list
    and none on the card. *)
Lemma cancel_hidden_counterexample :
  let app := mkApplication "app-1" "PA-2025-0001" "ready_for_pickup" in
  let apt := mkAppointment "apt-7" "app-1" "PA-2025-0001" "collection" "scheduled" false in
  apt_status apt = "scheduled"
  /\ can_be_rescheduled apt = false
  /\ MyAppointments.cancelVisible apt = false
  /\ existsb isCancel (cardActions app apt) = false.
Proof. repeat split. Qed.

End Actions.

(** ** The reschedule page *)

Module Reschedule.
Import RescheduleAppointment.

Lemma handleReschedule_request (outcome : ApiOutcome) (st : State) :
  existsb isRequest (fst (handleReschedule outcome st)) = true <->
  is_Some (selectedSlot st).
Proof.
  unfold handleReschedule.
  destruct (selectedSlot st) as [slot|]; simpl.
  - split; [intros _; eexists; reflexivity | reflexivity].
  - split; [discriminate | intros [x Hx]; discriminate].
Qed.

(** C3, as the code has it.  The entry point is gated: the detail card
    links to the reschedule page exactly when [can_be_rescheduled] is
    true.  The page itself does not consult the flag: a click on
    "Confirm Reschedule" sends the reschedule request exactly when the
    appointment and the application are loaded, a slot is selected and
    no request is pending, and the request names the route's appointment
    and the selected slot. *)
Theorem reschedule_gated_at_entry_only (app : Application) (apt : Appointment)
    (outcome : ApiOutcome) (st : State) :
  (In (ApplicationDetail.RescheduleLink (apt_id apt) (app_id app))
      (ApplicationDetail.cardActions app apt)
     <-> can_be_rescheduled apt = true)
  /\ (existsb isRequest (fst (clickConfirm outcome st)) = true <->
        is_Some (appointment st) /\ is_Some (application st)
        /\ is_Some (selectedSlot st) /\ loading st = false)
  /\ (forall e, In e (fst (clickConfirm outcome st)) -> isRequest e = true ->
        exists slot, selectedSlot st = Some slot
          /\ e = RescheduleRequest (id st) (slot_id slot) (reason st)).
Proof.
  split; [| split].
  - unfold ApplicationDetail.cardActions.
    destruct (can_be_rescheduled apt); simpl; split; intros H;
      solve [reflexivity | left; reflexivity | contradiction | discriminate].
  - unfold clickConfirm, confirmButton.
    destruct (appointment st) as [a|], (application st) as [p|]; simpl;
      try (split; [discriminate | intros ([x Hx] & [y Hy] & _); discriminate]).
    destruct (selectedSlot st) as [slot|] eqn:Hslot, (loading st) eqn:Hl; simpl.
    + split; [discriminate | intros (_ & _ & _ & H); discriminate].
    + unfold handleReschedule. rewrite Hslot. simpl.
      split; [intros _; repeat split; eexists; reflexivity | reflexivity].
    + split; [discriminate | intros (_ & _ & _ & H); discriminate].
    + split; [discriminate | intros (_ & _ & [x Hx] & _); discriminate].
  - intros e He Hreq. unfold clickConfirm in He.
    destruct (confirmButton st) as [[|]|]; simpl in He; try contradiction.
    unfold handleReschedule in He.
    destruct (selectedSlot st) as [slot|]; simpl in He.
    + exists slot. split; [reflexivity |].
      destruct He as [<- | He]; [reflexivity |].
      destruct outcome; simpl in He;
        repeat (destruct He as [<- | He]; [discriminate Hreq |]); contradiction.
    + destruct He as [<- | []]. discriminate Hreq.
Qed.

(** C3 as the specification words it fails: the page opened by its URL
    for an appointment with [can_be_rescheduled = false] sends the
    reschedule request once a slot is chosen. *)
Lemma reschedule_not_blocked_counterexample :
  let apt := mkAppointment "apt-7" "app-1" "PA-2025-0001" "collection" "scheduled" false in
  let app := mkApplication "app-1" "PA-2025-0001" "ready_for_pickup" in
  let slot := mkTimeSlot "slot-42" "09:30" 3 in
  let st := setSelectedSlot slot
              (fetchData [apt] (Some app) (initial "apt-7" (Some "app-1"))) in
  (can_be_rescheduled <$> appointment st) = Some false
  /\ fst (clickConfirm Resolved st)
     = [ RescheduleRequest "apt-7" "slot-42" "";
         ToastSuccess "Appointment rescheduled successfully!";
         Navigate "/applicant/applications/app-1" ].
Proof. split; reflexivity. Qed.

Lemma reschedule_gated_at_entry_only_witness :
  let apt := mkAppointment "apt-7" "app-1" "PA-2025-0001" "collection" "scheduled" true in
  let app := mkApplication "app-1" "PA-2025-0001" "ready_for_pickup" in
  let slot := mkTimeSlot "slot-42" "09:30" 3 in
  let st := setSelectedSlot slot
              (fetchData [apt] (Some app) (initial "apt-7" (Some "app-1"))) in
  exists s, selectedSlot st = Some s
    /\ RescheduleRequest "apt-7" "slot-42" "" = RescheduleRequest (id st) (slot_id s) (reason st).
Proof.
  intros apt app slot st.
  apply (proj2 (proj2 (reschedule_gated_at_entry_only app apt Resolved st))
           (RescheduleRequest "apt-7" "slot-42" ""));
    [left; reflexivity | reflexivity].
Defined.

End Reschedule.

(** ** The officer's daily schedule *)

Module Schedule.
Import DailySchedule.

Lemma checkInStatus_eqb (status : string) :
  String.eqb status "scheduled" || String.eqb status "confirmed"
  || String.eqb status "rescheduled" = true <-> checkInStatus status.
Proof.
  unfold checkInStatus.
  rewrite !orb_true_iff, !String.eqb_eq. tauto.
Qed.

Lemma actionCell_cases (apt : Appointment) :
  (checkInStatus (apt_status apt) /\ actionCell apt = CheckInButton (apt_id apt))
  \/ (~ checkInStatus (apt_status apt) /\ apt_status apt = "checked_in"
      /\ actionCell apt = CompleteButton (apt_id apt))
  \/ (~ checkInStatus (apt_status apt) /\ apt_status apt <> "checked_in"
      /\ isButton (actionCell apt) = false).
Proof.
  unfold actionCell.
  destruct (String.eqb (apt_status apt) "scheduled"
            || String.eqb (apt_status apt) "confirmed"
            || String.eqb (apt_status apt) "rescheduled") eqn:Hc.
  - left. split; [apply checkInStatus_eqb, Hc | reflexivity].
  - right.
    assert (Hn : ~ checkInStatus (apt_status apt)).
    { intros H. apply checkInStatus_eqb in H. congruence. }
    destruct (String.eqb (apt_status apt) "checked_in") eqn:Hk.
    + left. apply String.eqb_eq in Hk. auto.
    + right. apply String.eqb_neq in Hk.
      repeat split; try assumption.
      destruct (String.eqb (apt_status apt) "completed"); reflexivity.
Qed.

(** C5.  On the daily schedule the Check In button is rendered only for
    the statuses ['scheduled'], ['confirmed'] and ['rescheduled'], the
    Complete button only for ['checked_in'], and no button for
    ['cancelled'] or ['no_show']; a click sends the check-in call only
    from the first three statuses and the completion call only from
    ['checked_in'], each for the row's own appointment. *)
Theorem schedule_actions_follow_status (apt : Appointment) (confirmed : bool) :
  (forall i, actionCell apt = CheckInButton i ->
             checkInStatus (apt_status apt) /\ i = apt_id apt)
  /\ (forall i, actionCell apt = CompleteButton i ->
                apt_status apt = "checked_in" /\ i = apt_id apt)
  /\ (apt_status apt = "cancelled" \/ apt_status apt = "no_show" ->
      isButton (actionCell apt) = false /\ click confirmed (actionCell apt) = [])
  /\ (forall i, In (checkInAppointment i) (click confirmed (actionCell apt)) ->
                checkInStatus (apt_status apt) /\ i = apt_id apt)
  /\ (forall i, In (completeAppointment i) (click confirmed (actionCell apt)) ->
                apt_status apt = "checked_in" /\ i = apt_id apt).
Proof.
  destruct (actionCell_cases apt) as [[Hc Ha] | [(Hn & Hk & Ha) | (Hn & Hk & Hb)]].
  - rewrite Ha; simpl.
    split; [| split; [| split; [| split]]].
    + intros i [= <-]. auto.
    + intros i [=].
    + intros [H | H]; destruct Hc as [Hc | [Hc | Hc]]; congruence.
    + intros i [[= <-] | []]. auto.
    + intros i [[=] | []].
  - rewrite Ha; simpl; unfold handleComplete.
    split; [| split; [| split; [| split]]].
    + intros i [=].
    + intros i [= <-]. auto.
    + intros [H | H]; congruence.
    + intros i H. destruct (negb confirmed); simpl in H; [contradiction |].
      destruct H as [[=] | []].
    + intros i H. destruct (negb confirmed); simpl in H; [contradiction |].
      destruct H as [[= <-] | []]. auto.
  - destruct (actionCell apt) eqn:Hcell; simpl in Hb; try discriminate; simpl;
      (split; [| split; [| split; [| split]]]);
      solve [ intros i [=] | intros _; auto | intros i [] ].
Qed.

Lemma schedule_actions_follow_status_witness :
  let apt := mkAppointment "apt-1" "app-1" "PA-2025-0001" "collection" "confirmed" true in
  checkInStatus (apt_status apt) /\ "apt-1" = apt_id apt.
Proof.
  apply (proj1 (proj2 (proj2 (proj2 (schedule_actions_follow_status
           (mkAppointment "apt-1" "app-1" "PA-2025-0001" "collection" "confirmed" true)
           true)))) "apt-1").
  left. reflexivity.
Defined.

End Schedule.

(** The schedule scenario: a scheduled appointment shows Check In only;
    after the check-in the refetched row shows Complete only. *)
Example schedule_scenario :
  let before := mkAppointment "apt-1" "app-1" "PA-2025-0001" "collection" "scheduled" true in
  let after := mkAppointment "apt-1" "app-1" "PA-2025-0001" "collection" "checked_in" false in
  DailySchedule.render (Some [before]) "all"
    = [(before, DailySchedule.CheckInButton "apt-1")]
  /\ DailySchedule.click true (DailySchedule.actionCell before)
     = [DailySchedule.checkInAppointment "apt-1"]
  /\ DailySchedule.render (Some [after]) "all"
     = [(after, DailySchedule.CompleteButton "apt-1")].
Proof. repeat split. Qed.

(** ** The status timeline *)

Module Timeline.
Import StatusTimeline.

Lemma render_length (status : string) : length (render status) = 6%nat.
Proof. reflexivity. Qed.

Lemma render_steps (status : string) : map step (render status) = STATUSES.
Proof. reflexivity. Qed.

(** The six keys are pairwise different, so [findIndex] on a key gives
    its own position. *)
Lemma currentIndex_key (i : nat) (s : Step) :
  STATUSES !! i = Some s -> currentIndex (key s) = Z.of_nat i.
Proof.
  do 6 (destruct i as [|i]; [intros [= <-]; reflexivity |]).
  discriminate.
Qed.

Lemma currentIndex_other (status : string) :
  Forall (fun s => key s <> status) STATUSES -> currentIndex status = (-1)%Z.
Proof.
  intros H. unfold currentIndex, findIndex, STATUSES in *.
  repeat match goal with
         | H : Forall _ (_ :: _) |- _ =>
             let Hh := fresh "Hh" in
             apply Forall_cons in H as [Hh H];
             apply String.eqb_neq in Hh; simpl in Hh
         end.
  simpl. rewrite Hh, Hh0, Hh1, Hh2, Hh3, Hh4. reflexivity.
Qed.

Lemma render_lookup (status : string) (j : nat) (v : StepView) :
  render status !! j = Some v ->
  (j < 6)%nat
  /\ completed v = (Z.of_nat j <=? currentIndex status)%Z
  /\ current v = (Z.of_nat j =? currentIndex status)%Z.
Proof.
  unfold render, STATUSES.
  do 6 (destruct j as [|j];
        [intros [= <-]; split; [lia | split; reflexivity] |]).
  discriminate.
Qed.

(** C10.  The timeline renders its six steps for every status string.
    For the key at index [i] exactly the steps [0..i] are marked
    completed and only step [i] is marked current.  For any other
    string, ['documents_required'], ['rejected'] and ['expired'] among
    them, [findIndex] yields [-1] and no step is marked completed or
    current. *)
Theorem timeline_marks (status : string) :
  length (render status) = 6%nat
  /\ map step (render status) = STATUSES
  /\ (forall i s, STATUSES !! i = Some s -> status = key s ->
        currentIndex status = Z.of_nat i
        /\ forall j v, render status !! j = Some v ->
             (completed v = true <-> (j <= i)%nat)
             /\ (current v = true <-> j = i))
  /\ (Forall (fun s => key s <> status) STATUSES ->
        currentIndex status = (-1)%Z
        /\ Forall (fun v => completed v = false /\ current v = false)
                  (render status))
  /\ Forall (fun s => key s <> "documents_required"
                      /\ key s <> "rejected" /\ key s <> "expired") STATUSES.
Proof.
  split; [apply render_length |].
  split; [apply render_steps |].
  split; [| split].
  - intros i s Hi ->. pose proof (currentIndex_key i s Hi) as Hc.
    split; [exact Hc |].
    intros j v Hj. apply render_lookup in Hj as (_ & -> & ->).
    rewrite Hc. rewrite Z.leb_le, Z.eqb_eq. lia.
  - intros H. pose proof (currentIndex_other status H) as Hc.
    split; [exact Hc |].
    apply Forall_lookup. intros j v Hj.
    apply render_lookup in Hj as (_ & -> & ->). rewrite Hc.
    split; [apply Z.leb_gt | apply Z.eqb_neq]; lia.
  - unfold STATUSES. repeat constructor; simpl; discriminate.
Qed.

Lemma timeline_marks_witness :
  currentIndex "processing" = 2%Z
  /\ (currentIndex "rejected" = (-1)%Z
      /\ Forall (fun v => completed v = false /\ current v = false)
                (render "rejected")).
Proof.
  split.
  - apply (proj1 (proj1 (proj2 (proj2 (timeline_marks "processing")))
                   2%nat (mkStep "processing" "Processing") eq_refl eq_refl)).
  - apply (proj1 (proj2 (proj2 (proj2 (timeline_marks "rejected"))))).
    unfold STATUSES. repeat constructor; simpl; discriminate.
Defined.

Example timeline_quality_check :
  map (fun v => (key (step v), completed v, current v)) (render "quality_check")
  = [ ("submitted", true, false); ("under_review", true, false);
      ("processing", true, false); ("quality_check", true, true);
      ("ready_for_pickup", false, false); ("collected", false, false) ].
Proof. reflexivity. Qed.

Example timeline_documents_required :
  currentIndex "documents_required" = (-1)%Z
  /\ map (fun v => (completed v, current v)) (render "documents_required")
     = repeat (false, false) 6.
Proof. split; reflexivity. Qed.

End Timeline.

(** ** Status labels and colours *)

Module Labels.
Import MyApplications.

Example formatStatus_ready_for_pickup :
  formatStatus "ready_for_pickup" = "Ready For Pickup".
Proof. reflexivity. Qed.

Example formatStatus_all :
  map formatStatus APPLICATION_STATUSES
  = [ "Submitted"; "Under Review"; "Documents Required"; "Processing";
      "Quality Check"; "Ready For Pickup"; "Collected"; "Expired"; "Rejected" ].
Proof. reflexivity. Qed.

Example split_edge_cases :
  split "_" "" = [""] /\ split "_" "a_" = ["a"; ""] /\ split "_" "__" = [""; ""; ""].
Proof. repeat split. Qed.

(** *** Idempotence on every ASCII string *)

Lemma split_not_nil (sep : ascii) (s : string) : split sep s <> [].
Proof.
  destruct s as [|c rest]; simpl; [discriminate |].
  destruct (Ascii.eqb c sep); [discriminate |].
  destruct (split sep rest); discriminate.
Qed.

Lemma split_free (sep : ascii) (s : string) :
  free sep s = true -> split sep s = [s].
Proof.
  induction s as [|c rest IH]; simpl; [reflexivity |].
  intros [Hc Hr]%andb_true_iff.
  apply negb_true_iff in Hc. rewrite Hc, (IH Hr). reflexivity.
Qed.

Lemma free_app (sep : ascii) (s t : string) :
  free sep (s ++ t) = free sep s && free sep t.
Proof.
  induction s as [|c rest IH]; simpl; [reflexivity |].
  rewrite IH, andb_assoc. reflexivity.
Qed.

Lemma split_pieces_free (sep : ascii) (s : string) :
  Forall (fun w => free sep w = true) (split sep s).
Proof.
  induction s as [|c rest IH]; simpl.
  - repeat constructor.
  - destruct (Ascii.eqb c sep) eqn:Hc.
    + constructor; [reflexivity | exact IH].
    + destruct (split sep rest) as [|w ws]; [repeat constructor; simpl; rewrite Hc; reflexivity |].
      inversion IH as [|? ? Hw Hws]; subst.
      constructor; [simpl; rewrite Hc, Hw; reflexivity | exact Hws].
Qed.

Lemma upperChar_idempotent (c : ascii) : upperChar (upperChar c) = upperChar c.
Proof. destruct c as [[] [] [] [] [] [] [] []]; reflexivity. Qed.

Lemma upperChar_underscore (c : ascii) :
  Ascii.eqb c "_" = false -> Ascii.eqb (upperChar c) "_" = false.
Proof. destruct c as [[] [] [] [] [] [] [] []]; simpl; congruence. Qed.

Lemma capitalize_cons (c : ascii) (rest : string) :
  capitalize (String c rest) = String (upperChar c) rest.
Proof. reflexivity. Qed.

Lemma capitalize_free (w : string) :
  free "_" w = true -> free "_" (capitalize w) = true.
Proof.
  destruct w as [|c rest]; [reflexivity |].
  rewrite capitalize_cons. simpl.
  intros [Hc Hr]%andb_true_iff. apply negb_true_iff in Hc.
  rewrite (upperChar_underscore c Hc), Hr. reflexivity.
Qed.

Lemma join_free (ws : list string) :
  Forall (fun w => free "_" w = true) ws -> free "_" (join " " ws) = true.
Proof.
  induction ws as [|w ws IH]; [reflexivity |].
  intros H. inversion H as [|? ? Hw Hws]; subst.
  destruct ws as [|w' ws']; [exact Hw |].
  change (join " " (w :: w' :: ws')) with (w ++ " " ++ join " " (w' :: ws'))%string.
  rewrite !free_app, Hw, (IH Hws). reflexivity.
Qed.

Lemma formatStatus_free (s : string) : free "_" (formatStatus s) = true.
Proof.
  unfold formatStatus. apply join_free.
  apply Forall_map.
  eapply Forall_impl; [apply split_pieces_free |].
  intros w Hw. apply capitalize_free, Hw.
Qed.

(** A string is capitalized when [capitalize] leaves it alone. *)
Lemma capitalize_idempotent (w : string) : capitalize (capitalize w) = capitalize w.
Proof.
  destruct w as [|c rest]; [reflexivity |].
  rewrite !capitalize_cons, upperChar_idempotent. reflexivity.
Qed.

Lemma capitalize_app (w t : string) :
  w <> "" -> capitalize (w ++ t) = (capitalize w ++ t)%string.
Proof. destruct w as [|c rest]; [congruence | reflexivity]. Qed.

Lemma capitalize_join (ws : list string) :
  capitalize (join " " (map capitalize ws)) = join " " (map capitalize ws).
Proof.
  destruct ws as [|w ws]; [reflexivity |].
  destruct ws as [|w' ws'].
  - simpl. apply capitalize_idempotent.
  - change (join " " (map capitalize (w :: w' :: ws')))
      with (capitalize w ++ " " ++ join " " (map capitalize (w' :: ws')))%string.
    destruct w as [|c rest]; [reflexivity |].
    rewrite capitalize_app by (rewrite capitalize_cons; discriminate).
    rewrite capitalize_idempotent. reflexivity.
Qed.

(** Formatting a formatted label changes nothing, whatever the status
    string was. *)
Lemma formatStatus_idempotent (s : string) :
  formatStatus (formatStatus s) = formatStatus s.
Proof.
  unfold formatStatus at 1.
  rewrite (split_free "_" _ (formatStatus_free s)). simpl.
  apply capitalize_join.
Qed.

(** C8.  For each of the nine status values [formatStatus] yields a
    non-empty Title Case label that it maps to itself, the label does
    not contain "undefined", and [getStatusColor] yields the colour the
    table defines for the status. *)
Theorem status_labels_total (status : string) :
  In status APPLICATION_STATUSES ->
  formatStatus status <> ""
  /\ isTitleCase (formatStatus status) = true
  /\ formatStatus (formatStatus status) = formatStatus status
  /\ contains "undefined" (formatStatus status) = false
  /\ colors !! status = Some (getStatusColor status)
  /\ getStatusColor status <> "".
Proof.
  intros H. split; [| split; [| split; [apply formatStatus_idempotent |]]].
  - simpl in H.
    repeat (destruct H as [<- | H]; [discriminate |]). contradiction.
  - simpl in H.
    repeat (destruct H as [<- | H]; [reflexivity |]). contradiction.
  - simpl in H.
    repeat (destruct H as [<- | H];
            [split; [reflexivity | split; [reflexivity | discriminate]] |]).
    contradiction.
Qed.

Lemma status_labels_total_witness :
  formatStatus "documents_required" <> ""
  /\ isTitleCase (formatStatus "documents_required") = true
  /\ formatStatus (formatStatus "documents_required") = formatStatus "documents_required"
  /\ contains "undefined" (formatStatus "documents_required") = false
  /\ colors !! "documents_required" = Some (getStatusColor "documents_required")
  /\ getStatusColor "documents_required" <> "".
Proof.
  apply (status_labels_total "documents_required").
  simpl. right. right. left. reflexivity.
Defined.

End Labels.

(** ** Session clearing on 401 *)

Module Session.
Import Storage ApiClient.

Lemma removeItem_available (key : string) (ls : LocalStorage) :
  accepts_writes ls = true ->
  fst (removeItem key ls) = true
  /\ accepts_writes (snd (removeItem key ls)) = true
  /\ items (snd (removeItem key ls)) !! key = None
  /\ (forall k, items ls !! k = None -> items (snd (removeItem key ls)) !! k = None).
Proof.
  intros H. unfold removeItem, isLocalStorageAvailable. rewrite H. simpl.
  repeat split.
  - assumption.
  - apply lookup_delete_eq.
  - intros k Hk.
    destruct (decide (key = k)) as [-> | Hne]; [apply lookup_delete_eq |].
    rewrite lookup_delete_ne by assumption.
    destruct (decide ("__localStorage_test__" = k)) as [<- | Hne'];
      [apply lookup_delete_eq |].
    rewrite lookup_delete_ne, lookup_insert_ne by assumption. exact Hk.
Qed.

Lemma removeItem_unavailable (key : string) (ls : LocalStorage) :
  accepts_writes ls = false -> removeItem key ls = (false, ls).
Proof.
  intros H. unfold removeItem, isLocalStorageAvailable. rewrite H. reflexivity.
Qed.

Lemma clearAuthData_eq (ls : LocalStorage) :
  clearAuthData ls
  = (fst (removeAuthToken ls) && fst (removeUserData (snd (removeAuthToken ls))),
     snd (removeUserData (snd (removeAuthToken ls)))).
Proof.
  unfold clearAuthData.
  destruct (removeAuthToken ls) as [t ls1]; simpl.
  destruct (removeUserData ls1) as [u ls2]; reflexivity.
Qed.

Lemma clearAuthData_available (ls : LocalStorage) :
  accepts_writes ls = true ->
  fst (clearAuthData ls) = true
  /\ items (snd (clearAuthData ls)) !! Constants.AUTH_TOKEN = None
  /\ items (snd (clearAuthData ls)) !! Constants.USER_DATA = None.
Proof.
  intros H. rewrite clearAuthData_eq. simpl.
  unfold removeAuthToken, removeUserData.
  destruct (removeItem_available Constants.AUTH_TOKEN ls H) as (Ht & Hw & Hk & _).
  destruct (removeItem_available Constants.USER_DATA _ Hw) as (Hu & _ & Hk' & Hkeep).
  rewrite Ht, Hu. repeat split; [apply Hkeep, Hk | exact Hk'].
Qed.

Lemma clearAuthData_unavailable (ls : LocalStorage) :
  accepts_writes ls = false -> clearAuthData ls = (false, ls).
Proof.
  intros H. unfold clearAuthData, removeAuthToken, removeUserData.
  rewrite (removeItem_unavailable _ _ H), (removeItem_unavailable _ _ H).
  reflexivity.
Qed.

Lemma onRejected_401 (d : JSValue) (b : Browser) :
  onRejected (unauthorized d) b
  = ({| localStorage := snd (clearAuthData (localStorage b));
        location_href := "/login" |},
     Rejects (rejection (JStr Constants.UNAUTHORIZED) 401 d)).
Proof.
  unfold onRejected, unauthorized. simpl.
  destruct (clearAuthData (localStorage b)); reflexivity.
Qed.

(** C6, as the code has it.  For every call that fails with HTTP 401,
    whatever the body and whatever the page, the handler navigates to
    [/login] and rejects with the "session expired" error; it removes
    the stored token and the cached user when [localStorage] accepts the
    probe write of [isLocalStorageAvailable], and leaves the storage as
    it is when the probe fails. *)
Theorem unauthorized_clears_session (d : JSValue) (b : Browser) :
  location_href (fst (onRejected (unauthorized d) b)) = "/login"
  /\ snd (onRejected (unauthorized d) b)
     = Rejects (rejection (JStr Constants.UNAUTHORIZED) 401 d)
  /\ (accepts_writes (localStorage b) = true ->
      items (localStorage (fst (onRejected (unauthorized d) b)))
        !! Constants.AUTH_TOKEN = None
      /\ items (localStorage (fst (onRejected (unauthorized d) b)))
           !! Constants.USER_DATA = None)
  /\ (accepts_writes (localStorage b) = false ->
      localStorage (fst (onRejected (unauthorized d) b)) = localStorage b).
Proof.
  rewrite onRejected_401. simpl.
  split; [reflexivity |]. split; [reflexivity |]. split.
  - intros H. apply clearAuthData_available in H as (_ & Ht & Hu). auto.
  - intros H. rewrite (clearAuthData_unavailable _ H). reflexivity.
Qed.

Lemma unauthorized_clears_session_witness :
  let ls := mkLocalStorage
              (<[Constants.AUTH_TOKEN := "eyJhbGciOi"]>
                 (<[Constants.USER_DATA := "{}"]> ∅)) true in
  let b := mkBrowser ls "/applicant/dashboard" in
  items (localStorage (fst (onRejected (unauthorized JNull) b)))
    !! Constants.AUTH_TOKEN = None
  /\ items (localStorage (fst (onRejected (unauthorized JNull) b)))
       !! Constants.USER_DATA = None.
Proof.
  apply (proj1 (proj2 (proj2 (unauthorized_clears_session JNull
           (mkBrowser (mkLocalStorage
              (<[Constants.AUTH_TOKEN := "eyJhbGciOi"]>
                 (<[Constants.USER_DATA := "{}"]> ∅)) true)
              "/applicant/dashboard"))))).
  reflexivity.
Defined.

(** C6 as the specification words it fails: when the browser refuses
    writes (the quota is used up), the probe of [removeItem] fails and
    the token and the user stay in storage after a 401. *)
Lemma token_survives_counterexample :
  let ls := mkLocalStorage
              (<[Constants.AUTH_TOKEN := "eyJhbGciOi"]>
                 (<[Constants.USER_DATA := "{}"]> ∅)) false in
  let b := mkBrowser ls "/applicant/dashboard" in
  let b' := fst (onRejected (unauthorized JNull) b) in
  location_href b' = "/login"
  /\ items (localStorage b') !! Constants.AUTH_TOKEN = Some "eyJhbGciOi"
  /\ items (localStorage b') !! Constants.USER_DATA = Some "{}".
Proof. repeat split. Qed.

End Session.

(** ** Normalized rejections *)

Module Rejections.
Import Storage ApiClient.

Lemma rejection_fields (m : JSValue) (st : Z) (d : JSValue) :
  field "message" (rejection m st d) = Some m
  /\ field "status" (rejection m st d) = Some (JNum st)
  /\ field "data" (rejection m st d) = Some d.
Proof.
  unfold rejection, field.
  split; [apply lookup_insert_eq |].
  split; [rewrite lookup_insert_ne by done; apply lookup_insert_eq |].
  rewrite !lookup_insert_ne by done. apply lookup_insert_eq.
Qed.

Lemma getProp_readable (v : JSValue) (name : string) :
  readable v = true ->
  getProp v name = Normal (match v with
                           | JObj props => default JUndefined (props !! name)
                           | _ => JUndefined
                           end).
Proof. destruct v; simpl; intros H; try discriminate; reflexivity. Qed.

Lemma getProp_unreadable (v : JSValue) (name : string) :
  readable v = false -> getProp v name = ThrowTypeError.
Proof. destruct v; simpl; intros H; try discriminate; reflexivity. Qed.

(** The settlement depends on the response only. *)
Lemma snd_onRejected (r : Response) (b : Browser) :
  snd (onRejected (mkAxiosError (Some r)) b)
  = if (status r =? 401)%Z
    then Rejects (rejection (JStr Constants.UNAUTHORIZED) (status r) (data r))
    else if (status r =? 403)%Z
    then Rejects (rejection (JStr Constants.FORBIDDEN) (status r) (data r))
    else if (status r =? 404)%Z
    then Rejects (rejection (JStr Constants.NOT_FOUND) (status r) (data r))
    else if (status r =? 422)%Z
    then settle (validationRejection (status r) (data r))
    else if (status r =? 500)%Z || (status r =? 502)%Z || (status r =? 503)%Z
    then Rejects (rejection (JStr Constants.SERVER_ERROR) (status r) (data r))
    else settle (defaultRejection (status r) (data r)).
Proof.
  unfold onRejected. simpl.
  destruct (status r =? 401)%Z.
  - destruct (clearAuthData (localStorage b)); reflexivity.
  - repeat match goal with |- context [if ?c then _ else _] => destruct c end;
      reflexivity.
Qed.

Lemma validationRejection_readable (st : Z) (d : JSValue) :
  readable d = true ->
  (isArray (detailOf d) = true -> readable (first (detailOf d)) = true) ->
  validationRejection st d
  = Normal (JObj (<["message" := validationMessageOf (detailOf d)]>
                 (<["status" := JNum st]>
                 (<["data" := d]>
                 (<["errors" := detailOf d]> ∅))))).
Proof.
  intros Hd Hf. unfold validationRejection.
  rewrite (getProp_readable d "detail" Hd).
  change (match d with
          | JObj props => default JUndefined (props !! "detail")
          | _ => JUndefined
          end) with (detailOf d).
  unfold validationMessageOf. simpl.
  destruct (isArray (detailOf d)) eqn:Harr.
  - assert (Ht : truthy (detailOf d) = true)
      by (destruct (detailOf d); try discriminate; reflexivity).
    rewrite Ht. simpl.
    rewrite (getProp_readable _ "msg" (Hf eq_refl)).
    change (match first (detailOf d) with
            | JObj props => default JUndefined (props !! "msg")
            | _ => JUndefined
            end) with (msgOf (first (detailOf d))).
    simpl. reflexivity.
  - rewrite andb_false_r. destruct (isString (detailOf d)); reflexivity.
Qed.

Lemma validationRejection_unreadable (st : Z) (d : JSValue) :
  readable d = false
  \/ (isArray (detailOf d) = true /\ readable (first (detailOf d)) = false) ->
  validationRejection st d = ThrowTypeError.
Proof.
  unfold validationRejection. intros [Hd | [Harr Hf]].
  - rewrite (getProp_unreadable d "detail" Hd). reflexivity.
  - destruct (readable d) eqn:Hd.
    + rewrite (getProp_readable d "detail" Hd).
      change (match d with
              | JObj props => default JUndefined (props !! "detail")
              | _ => JUndefined
              end) with (detailOf d).
      simpl. rewrite Harr.
      assert (Ht : truthy (detailOf d) = true)
        by (destruct (detailOf d); try discriminate; reflexivity).
      rewrite Ht. simpl.
      rewrite (getProp_unreadable _ "msg" Hf). reflexivity.
    + rewrite (getProp_unreadable d "detail" Hd). reflexivity.
Qed.

Lemma defaultRejection_readable (st : Z) (d : JSValue) :
  readable d = true ->
  defaultRejection st d
  = Normal (rejection (orElse (detailOf d) (JStr "An error occurred")) st d).
Proof.
  intros Hd. unfold defaultRejection.
  rewrite (getProp_readable d "detail" Hd). reflexivity.
Qed.

Lemma defaultRejection_unreadable (st : Z) (d : JSValue) :
  readable d = false -> defaultRejection st d = ThrowTypeError.
Proof.
  intros Hd. unfold defaultRejection.
  rewrite (getProp_unreadable d "detail" Hd). reflexivity.
Qed.

Lemma settlement_readable (r : Response) (b : Browser) :
  bodyReadable r = true ->
  exists m,
    snd (onRejected (mkAxiosError (Some r)) b) = Rejects m
    /\ field "message" m
       = Some (if (status r =? 401)%Z then JStr Constants.UNAUTHORIZED
               else if (status r =? 403)%Z then JStr Constants.FORBIDDEN
               else if (status r =? 404)%Z then JStr Constants.NOT_FOUND
               else if (status r =? 422)%Z
                    then validationMessageOf (detailOf (data r))
               else if (status r =? 500)%Z || (status r =? 502)%Z
                       || (status r =? 503)%Z
                    then JStr Constants.SERVER_ERROR
               else orElse (detailOf (data r)) (JStr "An error occurred"))
    /\ field "status" m = Some (JNum (status r))
    /\ field "data" m = Some (data r).
Proof.
  intros H. rewrite snd_onRejected.
  unfold bodyReadable, fixedMessageStatus in H.
  destruct (status r =? 401)%Z eqn:E401;
    [eexists; split; [reflexivity | apply rejection_fields] |].
  destruct (status r =? 403)%Z eqn:E403;
    [eexists; split; [reflexivity | apply rejection_fields] |].
  destruct (status r =? 404)%Z eqn:E404;
    [eexists; split; [reflexivity | apply rejection_fields] |].
  destruct (status r =? 422)%Z eqn:E422.
  - apply Z.eqb_eq in E422. rewrite E422 in H. simpl in H.
    apply andb_true_iff in H as [Hd Hf].
    rewrite validationRejection_readable.
    + eexists. split; [reflexivity |]. unfold field.
      split; [apply lookup_insert_eq |].
      split; [rewrite lookup_insert_ne by done; apply lookup_insert_eq |].
      rewrite !lookup_insert_ne by done. apply lookup_insert_eq.
    + exact Hd.
    + intros Harr. rewrite Harr in Hf. exact Hf.
  - destruct (status r =? 500)%Z eqn:E500;
      [eexists; split; [reflexivity | apply rejection_fields] |].
    destruct (status r =? 502)%Z eqn:E502;
      [eexists; split; [reflexivity | apply rejection_fields] |].
    destruct (status r =? 503)%Z eqn:E503;
      [eexists; split; [reflexivity | apply rejection_fields] |].
    simpl in H. apply andb_true_iff in H as [Hd _].
    simpl. rewrite defaultRejection_readable by exact Hd.
    eexists. split; [reflexivity | apply rejection_fields].
Qed.

(** When the handler has to read a property of [undefined] or [null]
    the promise rejects with the [TypeError] instead. *)
Lemma settlement_unreadable (r : Response) (b : Browser) :
  bodyReadable r = false ->
  snd (onRejected (mkAxiosError (Some r)) b) = RejectsTypeError.
Proof.
  intros H. rewrite snd_onRejected.
  unfold bodyReadable, fixedMessageStatus in H.
  apply orb_false_iff in H as [Hfix H].
  repeat (apply orb_false_iff in Hfix as [Hfix ?]).
  rewrite Hfix.
  repeat match goal with E : (_ =? _)%Z = false |- _ => rewrite E; clear E end.
  simpl. destruct (status r =? 422)%Z eqn:E422; simpl in H.
  - rewrite validationRejection_unreadable; [reflexivity |].
    destruct (readable (data r)); [right | left; reflexivity].
    simpl in H. apply orb_false_iff in H as [Ha Hf].
    apply negb_false_iff in Ha. auto.
  - rewrite andb_true_r in H.
    rewrite defaultRejection_unreadable by exact H. reflexivity.
Qed.

Lemma validation_settlement (r : Response) (b : Browser) :
  status r = 422%Z -> bodyReadable r = true ->
  messageOf (snd (onRejected (mkAxiosError (Some r)) b))
  = Some (validationMessageOf (detailOf (data r))).
Proof.
  intros Hs Hr.
  destruct (settlement_readable r b Hr) as (m & -> & Hm & _).
  simpl. rewrite Hm, Hs. reflexivity.
Qed.

(** C7, as the code has it.  A failed call without a response rejects
    with [{message, status: 0}], an object that has no [data] property.
    A failed call with a response whose body the handler can read
    rejects with an object that has [message], [status] and [data], the
    last two being the status and the body of the response.  When
    responses have a non-zero status, the rejection has status 0 exactly
    when there was no response.  For a readable 422 the message is
    [detail[0].msg] when [detail] is an array and that [msg] is truthy,
    [detail] itself when it is a string, and the generic validation
    message in every other case. *)
Theorem failed_call_rejection (error : AxiosError) (b : Browser) :
  (response error = None ->
     snd (onRejected error b)
     = Rejects (JObj (<["message" := JStr Constants.NETWORK_ERROR]>
                     (<["status" := JNum 0]> ∅)))
     /\ dataOf (snd (onRejected error b)) = None)
  /\ (forall r, response error = Some r -> bodyReadable r = true ->
        normalized (snd (onRejected error b))
        /\ statusOf (snd (onRejected error b)) = Some (JNum (status r))
        /\ dataOf (snd (onRejected error b)) = Some (data r))
  /\ ((forall r, response error = Some r -> status r <> 0%Z) ->
        (statusOf (snd (onRejected error b)) = Some (JNum 0)
         <-> response error = None))
  /\ (forall r, response error = Some r -> status r = 422%Z ->
        bodyReadable r = true ->
        let detail := detailOf (data r) in
        let message := messageOf (snd (onRejected error b)) in
        (isArray detail = true -> truthy (msgOf (first detail)) = true ->
           message = Some (msgOf (first detail)))
        /\ (isArray detail = true -> truthy (msgOf (first detail)) = false ->
              message = Some (JStr Constants.VALIDATION_ERROR))
        /\ (isString detail = true -> message = Some detail)
        /\ (isArray detail = false -> isString detail = false ->
              message = Some (JStr Constants.VALIDATION_ERROR))).
Proof.
  destruct error as [[r|]]; simpl response.
  - split; [discriminate |].
    split; [| split].
    + intros r' [= <-] Hr.
      destruct (settlement_readable r b Hr) as (m & -> & Hm & Hs & Hd).
      simpl. rewrite Hm, Hs, Hd. repeat split; eexists; reflexivity.
    + intros Hnz. split; [| discriminate].
      intros H0. exfalso. apply (Hnz r eq_refl).
      destruct (bodyReadable r) eqn:Hr.
      * destruct (settlement_readable r b Hr) as (m & Hm & _ & Hs & _).
        rewrite Hm in H0. simpl in H0. congruence.
      * rewrite (settlement_unreadable r b Hr) in H0. discriminate.
    + intros r' [= <-] Hs Hr. simpl.
      rewrite (validation_settlement r b Hs Hr). unfold validationMessageOf.
      split; [| split; [| split]].
      * intros -> ->. reflexivity.
      * intros -> ->. reflexivity.
      * intros H. destruct (detailOf (data r)); try discriminate. reflexivity.
      * intros -> ->. reflexivity.
  - split; [intros _; split; reflexivity |].
    split; [discriminate |].
    split; [| discriminate].
    intros _. split; reflexivity.
Qed.

Lemma failed_call_rejection_witness :
  let body := JObj (<["detail" :=
                JArr [JObj (<["msg" := JStr "field required"]>
                           (<["type" := JStr "missing"]> ∅))]]> ∅) in
  let error := mkAxiosError (Some (mkResponse 422 body)) in
  let b := mkBrowser (mkLocalStorage ∅ true) "/applicant/applications/new" in
  messageOf (snd (onRejected error b)) = Some (JStr "field required").
Proof.
  intros body error b.
  apply (proj1 (proj2 (proj2 (proj2 (failed_call_rejection error b)))
                  (mkResponse 422 body) eq_refl eq_refl eq_refl));
    reflexivity.
Defined.

(** C7 as the specification words it fails: the rejection of a call
    that got no response has no [data] property, and a 422 whose [detail]
    array starts with an entry without [msg] gets the generic message,
    not that entry's [msg]. *)
Lemma rejection_shape_counterexample :
  let b := mkBrowser (mkLocalStorage ∅ true) "/applicant/dashboard" in
  let offline := snd (onRejected (mkAxiosError None) b) in
  let body := JObj (<["detail" := JArr [JObj (<["type" := JStr "missing"]> ∅)]]> ∅) in
  let invalid := snd (onRejected (mkAxiosError (Some (mkResponse 422 body))) b) in
  ~ normalized offline
  /\ dataOf offline = None
  /\ isArray (detailOf body) = true
  /\ msgOf (first (detailOf body)) = JUndefined
  /\ messageOf invalid = Some (JStr Constants.VALIDATION_ERROR).
Proof.
  split.
  - intros (_ & _ & [x Hx]). discriminate Hx.
  - repeat split.
Qed.

(** A 422 with an empty [detail] array makes the handler read [msg] of
    [undefined]: the promise rejects with a [TypeError]. *)
Example empty_detail_throws :
  let b := mkBrowser (mkLocalStorage ∅ true) "/applicant/dashboard" in
  let body := JObj (<["detail" := JArr []]> ∅) in
  snd (onRejected (mkAxiosError (Some (mkResponse 422 body))) b) = RejectsTypeError.
Proof. reflexivity. Qed.

End Rejections.

(** ** Text helpers *)

Module TextFacts.
Import Text.

Lemma length_append (s t : string) :
  String.length (s ++ t) = (String.length s + String.length t)%nat.
Proof. induction s as [|c s IH]; simpl; [reflexivity | rewrite IH; reflexivity]. Qed.

Lemma length_substring0 (n : nat) (s : string) :
  String.length (String.substring 0 n s) = Nat.min n (String.length s).
Proof.
  revert s. induction n as [|n IH]; intros [|c s]; simpl; try reflexivity.
  rewrite IH. reflexivity.
Qed.

Lemma digit_not_space (c : ascii) : isDigit c = true -> isSpace c = false.
Proof. destruct c as [[] [] [] [] [] [] [] []]; vm_compute; congruence. Qed.

Lemma digit_not_dash (c : ascii) : isDigit c = true -> c <> "-"%char.
Proof. intros H ->. discriminate H. Qed.

Lemma allChars_filter (p : ascii -> bool) (s : string) :
  allChars p (filterChars p s) = true.
Proof.
  induction s as [|c s IH]; simpl; [reflexivity |].
  destruct (p c) eqn:Hc; simpl; [rewrite Hc |]; exact IH.
Qed.

Lemma filter_all (p : ascii -> bool) (s : string) :
  allChars p s = true -> filterChars p s = s.
Proof.
  induction s as [|c s IH]; simpl; [reflexivity |].
  intros [Hc Hs]%andb_true_iff. rewrite Hc, (IH Hs). reflexivity.
Qed.

(** When what is left after dropping the blanks is all digits, dropping
    the non-digits leaves the same string. *)
Lemma digitsOnly_removeSpaces (s : string) :
  allChars isDigit (removeSpaces s) = true -> digitsOnly s = removeSpaces s.
Proof.
  unfold digitsOnly, removeSpaces.
  induction s as [|c s IH]; simpl; [reflexivity |].
  destruct (isSpace c) eqn:Hsp; simpl.
  - intros H. rewrite (IH H).
    destruct (isDigit c) eqn:Hd; [| reflexivity].
    apply digit_not_space in Hd. congruence.
  - intros [Hc Hs]%andb_true_iff. rewrite Hc, (IH Hs). reflexivity.
Qed.

Lemma trimStart_id (c : ascii) (s : string) :
  isSpace c = false -> trimStart (String c s) = String c s.
Proof. intros H. simpl. rewrite H. reflexivity. Qed.

Lemma trimEnd_nospace (s : string) :
  allChars (fun c => negb (isSpace c)) s = true -> trimEnd s = s.
Proof.
  induction s as [|c s IH]; simpl; [reflexivity |].
  intros [Hc Hs]%andb_true_iff. rewrite (IH Hs).
  apply negb_true_iff in Hc. rewrite Hc. destruct s; reflexivity.
Qed.

Lemma trim_nospace (s : string) :
  allChars (fun c => negb (isSpace c)) s = true -> trim s = s.
Proof.
  intros H. unfold trim.
  destruct s as [|c s]; [reflexivity |].
  pose proof H as H'. simpl in H'. apply andb_true_iff in H' as [Hc _].
  apply negb_true_iff in Hc. rewrite (trimStart_id c s Hc).
  apply trimEnd_nospace, H.
Qed.

Lemma digits_nospace (s : string) :
  allChars isDigit s = true -> allChars (fun c => negb (isSpace c)) s = true.
Proof.
  induction s as [|c s IH]; simpl; [reflexivity |].
  intros [Hc Hs]%andb_true_iff.
  rewrite (digit_not_space c Hc), (IH Hs). reflexivity.
Qed.

Lemma prefix_nil (s : string) : String.prefix "" s = true.
Proof. destruct s; reflexivity. Qed.

Lemma prefix_cons (a b : ascii) (s t : string) :
  String.prefix (String a s) (String b t) = Ascii.eqb a b && String.prefix s t.
Proof.
  cbn [String.prefix].
  destruct (ascii_dec a b) as [-> | Hne].
  - rewrite Ascii.eqb_refl. reflexivity.
  - apply Ascii.eqb_neq in Hne. rewrite Hne. reflexivity.
Qed.

Lemma prefix_nil_r (a : ascii) (s : string) : String.prefix (String a s) "" = false.
Proof. reflexivity. Qed.

Lemma contains_cons (needle : string) (c : ascii) (s : string) :
  MyApplications.contains needle (String c s)
  = String.prefix needle (String c s) || MyApplications.contains needle s.
Proof. reflexivity. Qed.

Lemma contains_dash_digits (s : string) :
  allChars isDigit s = true -> MyApplications.contains "-" s = false.
Proof.
  induction s as [|c s IH]; [reflexivity |].
  cbn [allChars]. intros [Hc Hs]%andb_true_iff.
  rewrite contains_cons, prefix_cons, (IH Hs).
  destruct (Ascii.eqb_spec "-" c) as [<- | _]; [discriminate Hc | reflexivity].
Qed.

End TextFacts.

(** ** Display formatters *)

Module Formats.
Import Text TextFacts Formatters Validation.

(** X1. [truncateText] returns a short text unchanged and cuts a long one
    to its first [maxLength] characters followed by three dots, so the
    result never has more than [maxLength + 3] characters (and can be
    longer than the text it abbreviates). *)
Theorem truncateText_bounds (text : string) (maxLength : nat) :
  (String.length (truncateText text maxLength) <= maxLength + 3)%nat
  /\ ((String.length text <= maxLength)%nat -> truncateText text maxLength = text)
  /\ ((maxLength < String.length text)%nat ->
      truncateText text maxLength = (substring 0 maxLength text ++ "...")%string
      /\ String.length (truncateText text maxLength) = (maxLength + 3)%nat).
Proof.
  unfold truncateText, substring.
  destruct (String.eqb_spec text "") as [-> | Hne]; simpl.
  - split; [lia |]. split; [reflexivity |]. intros H. inversion H.
  - destruct (Nat.leb_spec (String.length text) maxLength) as [Hle | Hlt].
    + split; [lia |]. split; [reflexivity |]. intros H. lia.
    + rewrite Nat.sub_0_r, length_append, length_substring0. simpl.
      split; [lia |]. split; [intros H; lia |]. intros _. split; [reflexivity | lia].
Qed.

Lemma truncateText_bounds_witness :
  truncateText "Maseru" 4 = "Mase..." /\ String.length (truncateText "Maseru" 4) = 7%nat.
Proof.
  apply (proj2 (proj2 (truncateText_bounds "Maseru" 4))). simpl. lia.
Defined.

(** X2. Formatting an application number twice gives what formatting it
    once gives, for every input string. *)
Theorem formatApplicationNumber_idempotent (appNumber : string) :
  formatApplicationNumber (formatApplicationNumber appNumber)
  = formatApplicationNumber appNumber.
Proof.
  unfold formatApplicationNumber at 2 3.
  destruct (String.eqb appNumber "") eqn:Hempty; [reflexivity |].
  destruct (MyApplications.contains "-" appNumber) eqn:Hdash.
  - unfold formatApplicationNumber. rewrite Hempty, Hdash. reflexivity.
  - destruct (9 <=? String.length appNumber)%nat eqn:Hlen.
    + set (year := substring 0 4 appNumber).
      set (number := MyApplications.slice 4 appNumber).
      unfold formatApplicationNumber.
      replace (MyApplications.contains "-" ("PASS-" ++ year ++ "-" ++ number)%string)
        with true; [reflexivity |].
      change ("PASS-" ++ year ++ "-" ++ number)%string
        with (String "P" (String "A" (String "S" (String "S"
               (String "-" (year ++ "-" ++ number)%string))))).
      rewrite !contains_cons, !prefix_cons, !prefix_nil. reflexivity.
    + unfold formatApplicationNumber. rewrite Hempty, Hdash, Hlen. reflexivity.
Qed.

Arguments isDigit : simpl never.
Arguments isSpace : simpl never.
Arguments String.prefix : simpl never.

Lemma digitsN_cons (n : nat) (c : ascii) (s : string) :
  digitsN (S n) (String c s) = isDigit c && digitsN n s.
Proof.
  unfold digitsN. simpl.
  destruct (String.length s =? n)%nat, (isDigit c); reflexivity.
Qed.

Lemma digitsN_zero (s : string) : digitsN 0 s = true -> s = "".
Proof. destruct s; [reflexivity | discriminate]. Qed.

Lemma digitsN_all (n : nat) (s : string) :
  digitsN n s = true -> String.length s = n /\ allChars isDigit s = true.
Proof.
  unfold digitsN. intros [Hl Hd]%andb_true_iff.
  apply Nat.eqb_eq in Hl. auto.
Qed.

(** Name the characters of a string known to be [n] digits. *)
Ltac digits H s :=
  repeat (destruct s as [|? s]; [discriminate H |];
          rewrite digitsN_cons in H;
          let Hd := fresh "Hd" in apply andb_true_iff in H as [Hd H]);
  apply digitsN_zero in H; subst s.

Ltac nospace :=
  cbv [String.append]; simpl;
  repeat match goal with
         | H : isDigit ?c = true |- context [isSpace ?c] =>
             rewrite (digit_not_space c H)
         end;
  reflexivity.

Ltac usedigits :=
  repeat match goal with
         | H : isDigit ?c = true |- context [isDigit ?c] => rewrite H
         | H : isDigit ?c = true |- context [isSpace ?c] =>
             rewrite (digit_not_space c H)
         end.

(** X3. A nine-digit application number is valid and is formatted as
    [PASS-YYYY-NNNNN], which is valid again.  A number of ten or more
    digits is valid too, but what it is formatted to is not. *)
Theorem formatApplicationNumber_validity (appNumber : string) :
  (digitsN 9 appNumber = true ->
     isValidApplicationNumber appNumber = true
     /\ formatApplicationNumber appNumber
        = ("PASS-" ++ substring 0 4 appNumber ++ "-"
           ++ MyApplications.slice 4 appNumber)%string
     /\ isValidApplicationNumber (formatApplicationNumber appNumber) = true)
  /\ (allChars isDigit appNumber = true ->
      (10 <= String.length appNumber)%nat ->
      isValidApplicationNumber appNumber = true
      /\ isValidApplicationNumber (formatApplicationNumber appNumber) = false).
Proof.
  split.
  - intros H. pose proof (digitsN_all _ _ H) as [Hlen Hall].
    assert (Hfmt : formatApplicationNumber appNumber
                   = ("PASS-" ++ substring 0 4 appNumber ++ "-"
                      ++ MyApplications.slice 4 appNumber)%string).
    { unfold formatApplicationNumber.
      rewrite (contains_dash_digits _ Hall), Hlen.
      destruct appNumber; [discriminate Hlen | reflexivity]. }
    split; [| split; [exact Hfmt |]].
    + unfold isValidApplicationNumber.
      rewrite (trim_nospace _ (digits_nospace _ Hall)), Hall, Hlen.
      destruct appNumber; [discriminate Hlen |].
      simpl. apply orb_true_r.
    + rewrite Hfmt. clear Hfmt Hlen Hall. digits H appNumber.
      unfold isValidApplicationNumber, substring.
      cbv [String.append]. simpl.
      rewrite trim_nospace by nospace.
      rewrite !prefix_cons, prefix_nil. simpl.
      rewrite !digitsN_cons. usedigits. reflexivity.
  - intros Hall Hlen.
    assert (Hfmt : formatApplicationNumber appNumber
                   = ("PASS-" ++ substring 0 4 appNumber ++ "-"
                      ++ MyApplications.slice 4 appNumber)%string).
    { unfold formatApplicationNumber.
      rewrite (contains_dash_digits _ Hall).
      destruct (Nat.leb_spec 9 (String.length appNumber)); [| lia].
      destruct appNumber; [simpl in Hlen; lia | reflexivity]. }
    split.
    + unfold isValidApplicationNumber.
      rewrite (trim_nospace _ (digits_nospace _ Hall)), Hall.
      destruct (Nat.leb_spec 9 (String.length appNumber)); [| lia].
      destruct appNumber; [simpl in Hlen; lia |].
      simpl. apply orb_true_r.
    + rewrite Hfmt. clear Hfmt.
      do 10 (destruct appNumber as [|? appNumber]; [simpl in Hlen; lia |]).
      simpl in Hall.
      repeat (apply andb_true_iff in Hall as [? Hall]).
      unfold isValidApplicationNumber, substring.
      cbv [String.append]. fold String.append. simpl.
      rewrite trim_nospace
        by (simpl; usedigits; simpl; apply digits_nospace, Hall).
      simpl. rewrite orb_false_r, !digitsN_cons.
      destruct appNumber; unfold digitsN; simpl;
        rewrite ?andb_false_r; reflexivity.
Qed.

Lemma formatApplicationNumber_validity_witness :
  isValidApplicationNumber "202500017" = true
  /\ formatApplicationNumber "202500017" = "PASS-2025-00017"
  /\ isValidApplicationNumber (formatApplicationNumber "202500017") = true.
Proof.
  apply (proj1 (formatApplicationNumber_validity "202500017")). reflexivity.
Defined.

Lemma removeSpaces_digitsOnly (s : string) :
  digitsOnly (removeSpaces s) = digitsOnly s.
Proof.
  unfold digitsOnly, removeSpaces.
  induction s as [|c s IH]; [reflexivity |].
  cbn [filterChars].
  destruct (isSpace c) eqn:Hsp; cbn [negb filterChars]; rewrite IH.
  - destruct (isDigit c) eqn:Hd; [| reflexivity].
    apply digit_not_space in Hd. congruence.
  - reflexivity.
Qed.

(** X4. A valid ID number (thirteen digits, blanks allowed between them) is
    shown in groups of 3, 3, 3 and 4 digits; the grouped form is valid
    again, keeps the digits, and is what formatting it once more gives. *)
Theorem formatIdNumber_valid (idNumber : string) :
  isValidIdNumber idNumber = true ->
  formatIdNumber idNumber
  = (substring 0 3 (removeSpaces idNumber) ++ " "
     ++ substring 3 6 (removeSpaces idNumber) ++ " "
     ++ substring 6 9 (removeSpaces idNumber) ++ " "
     ++ MyApplications.slice 9 (removeSpaces idNumber))%string
  /\ isValidIdNumber (formatIdNumber idNumber) = true
  /\ removeSpaces (formatIdNumber idNumber) = removeSpaces idNumber
  /\ formatIdNumber (formatIdNumber idNumber) = formatIdNumber idNumber.
Proof.
  unfold isValidIdNumber at 1. unfold ID_NUMBER_REGEX.
  destruct (String.eqb idNumber "") eqn:Hempty; [discriminate |].
  intros H.
  pose proof (digitsN_all _ _ H) as [Hlen Hall].
  assert (Hfmt : formatIdNumber idNumber
            = (substring 0 3 (removeSpaces idNumber) ++ " "
               ++ substring 3 6 (removeSpaces idNumber) ++ " "
               ++ substring 6 9 (removeSpaces idNumber) ++ " "
               ++ MyApplications.slice 9 (removeSpaces idNumber))%string).
  { unfold formatIdNumber. rewrite Hempty.
    rewrite (digitsOnly_removeSpaces _ Hall), Hlen. reflexivity. }
  rewrite Hfmt. split; [reflexivity |].
  clear Hfmt Hlen Hall Hempty.
  generalize dependent (removeSpaces idNumber). clear idNumber.
  intros ds H. digits H ds.
  unfold substring. cbv [String.append]. simpl.
  unfold isValidIdNumber, ID_NUMBER_REGEX, formatIdNumber, removeSpaces, digitsOnly.
  simpl. usedigits. simpl. usedigits. simpl.
  rewrite !digitsN_cons. usedigits. split; [reflexivity |]. split; reflexivity.
Qed.

Lemma formatIdNumber_valid_witness :
  formatIdNumber "12345 67890 123" = "123 456 789 0123"
  /\ isValidIdNumber (formatIdNumber "12345 67890 123") = true
  /\ removeSpaces (formatIdNumber "12345 67890 123") = "1234567890123"
  /\ formatIdNumber (formatIdNumber "12345 67890 123")
     = formatIdNumber "12345 67890 123".
Proof.
  apply (formatIdNumber_valid "12345 67890 123"). reflexivity.
Defined.

Lemma digitsOnly_digits (s : string) :
  allChars isDigit s = true -> digitsOnly s = s.
Proof. apply filter_all. Qed.

Lemma prefix_uncons (a : ascii) (s t : string) :
  String.prefix (String a s) t = true ->
  exists t', t = String a t' /\ String.prefix s t' = true.
Proof.
  destruct t as [|b t]; [discriminate |].
  rewrite prefix_cons. intros [Hab Hp]%andb_true_iff.
  apply Ascii.eqb_eq in Hab as <-. eauto.
Qed.

(** The digits of a valid phone number: eight local digits, with the
    country code 266 in front when the input carried it. *)
Lemma validPhone_digits (phone : string) :
  isValidPhone phone = true ->
  String.eqb phone "" = false
  /\ exists l, digitsN 8 l = true
       /\ (digitsOnly phone = l \/ digitsOnly phone = String "2" (String "6" (String "6" l))).
Proof.
  unfold isValidPhone, PHONE_REGEX.
  destruct (String.eqb phone "") eqn:Hempty; [discriminate |].
  intros H. split; [reflexivity |].
  rewrite <- (removeSpaces_digitsOnly phone).
  generalize dependent (removeSpaces phone). intros r H.
  apply orb_true_iff in H as [H | H]; [apply orb_true_iff in H as [H | H] |].
  - exists r. split; [exact H |]. left.
    apply digitsOnly_digits, (digitsN_all _ _ H).
  - apply andb_true_iff in H as [Hp Hd].
    apply prefix_uncons in Hp as (r1 & -> & Hp).
    apply prefix_uncons in Hp as (r2 & -> & Hp).
    apply prefix_uncons in Hp as (r3 & -> & Hp).
    apply prefix_uncons in Hp as (r4 & -> & _).
    simpl in Hd. exists r4. split; [exact Hd |]. right.
    unfold digitsOnly. simpl.
    replace (isDigit "+") with false by reflexivity.
    replace (isDigit "2") with true by reflexivity.
    replace (isDigit "6") with true by reflexivity.
    rewrite (filter_all _ _ (proj2 (digitsN_all _ _ Hd))). reflexivity.
  - apply andb_true_iff in H as [Hp Hd].
    apply prefix_uncons in Hp as (r1 & -> & Hp).
    apply prefix_uncons in Hp as (r2 & -> & Hp).
    apply prefix_uncons in Hp as (r3 & -> & _).
    simpl in Hd. exists r3. split; [exact Hd |]. right.
    unfold digitsOnly. simpl.
    replace (isDigit "2") with true by reflexivity.
    replace (isDigit "6") with true by reflexivity.
    rewrite (filter_all _ _ (proj2 (digitsN_all _ _ Hd))). reflexivity.
Qed.

Lemma localFormat_valid (l : string) :
  digitsN 8 l = true ->
  isValidPhone (localFormat l) = true
  /\ formatPhoneNumber (localFormat l) = localFormat l.
Proof.
  intros H. digits H l.
  unfold localFormat, substring. cbv [String.append]. simpl.
  unfold isValidPhone, formatPhoneNumber, PHONE_REGEX, removeSpaces, digitsOnly.
  simpl.
  replace (isDigit "+") with false by reflexivity.
  replace (isDigit " ") with false by reflexivity.
  replace (isDigit "2") with true by reflexivity.
  replace (isDigit "6") with true by reflexivity.
  replace (isSpace "+") with false by reflexivity.
  replace (isSpace " ") with true by reflexivity.
  replace (isSpace "2") with false by reflexivity.
  replace (isSpace "6") with false by reflexivity.
  usedigits. simpl.
  rewrite ?prefix_cons, ?prefix_nil. simpl.
  rewrite ?digitsN_cons. usedigits. simpl.
  rewrite ?orb_true_r. split; reflexivity.
Qed.

(** X5. A valid phone number whose digits carry the country code, or do
    not begin with 266, is shown as [+266 XXXX XXXX] with its eight local
    digits; that form is valid again and formatting it changes nothing. *)
Theorem formatPhoneNumber_valid (phone : string) :
  isValidPhone phone = true ->
  String.length (digitsOnly phone) = 11%nat
  \/ String.prefix "266" (digitsOnly phone) = false ->
  formatPhoneNumber phone
  = localFormat (MyApplications.slice (String.length (digitsOnly phone) - 8)
                                      (digitsOnly phone))
  /\ isValidPhone (formatPhoneNumber phone) = true
  /\ formatPhoneNumber (formatPhoneNumber phone) = formatPhoneNumber phone.
Proof.
  intros Hv Hcase.
  destruct (validPhone_digits phone Hv) as (Hempty & l & Hl & Hd).
  assert (Hfmt : formatPhoneNumber phone = localFormat l
                 /\ MyApplications.slice (String.length (digitsOnly phone) - 8)
                                         (digitsOnly phone) = l).
  { unfold formatPhoneNumber. rewrite Hempty.
    pose proof (digitsN_all _ _ Hl) as [Hlen _].
    destruct Hd as [Hd | Hd]; rewrite Hd in *.
    - destruct Hcase as [Hc | Hc]; [lia |].
      rewrite Hc, Hlen. split; reflexivity.
    - rewrite ?prefix_cons, ?prefix_nil. simpl. rewrite ?Hlen. split; reflexivity. }
  destruct Hfmt as [-> ->].
  split; [reflexivity |]. apply localFormat_valid, Hl.
Qed.

Lemma formatPhoneNumber_valid_witness :
  formatPhoneNumber "+266 5812 9821"
  = localFormat (MyApplications.slice
                   (String.length (digitsOnly "+266 5812 9821") - 8)
                   (digitsOnly "+266 5812 9821"))
  /\ isValidPhone (formatPhoneNumber "+266 5812 9821") = true
  /\ formatPhoneNumber (formatPhoneNumber "+266 5812 9821")
     = formatPhoneNumber "+266 5812 9821".
Proof.
  apply (formatPhoneNumber_valid "+266 5812 9821"); [reflexivity | left; reflexivity].
Defined.

Arguments removeSpaces : simpl never.
Arguments digitsOnly : simpl never.
Arguments digitsN : simpl never.

Lemma removeSpaces_cons (c : ascii) (s : string) :
  removeSpaces (String c s)
  = if isSpace c then removeSpaces s else String c (removeSpaces s).
Proof. unfold removeSpaces. simpl. destruct (isSpace c); reflexivity. Qed.

Lemma digitsOnly_cons (c : ascii) (s : string) :
  digitsOnly (String c s)
  = if isDigit c then String c (digitsOnly s) else digitsOnly s.
Proof. reflexivity. Qed.

Lemma removeSpaces_nil : removeSpaces "" = "".
Proof. reflexivity. Qed.

Lemma digitsOnly_nil : digitsOnly "" = "".
Proof. reflexivity. Qed.

Lemma digitsN_nil (n : nat) : digitsN n "" = Nat.eqb 0 n.
Proof. unfold digitsN. simpl. apply andb_true_r. Qed.

(** Evaluate the character tests on literal characters. *)
Ltac concrete :=
  repeat match goal with
         | |- context [isSpace (Ascii ?a ?b ?c ?d ?e ?f ?g ?h)] =>
             let v := eval vm_compute in (isSpace (Ascii a b c d e f g h)) in
             change (isSpace (Ascii a b c d e f g h)) with v
         | |- context [isDigit (Ascii ?a ?b ?c ?d ?e ?f ?g ?h)] =>
             let v := eval vm_compute in (isDigit (Ascii a b c d e f g h)) in
             change (isDigit (Ascii a b c d e f g h)) with v
         end.

(** Run the string functions over a string whose characters are named. *)
Ltac norm :=
  repeat (progress (cbv [String.append substring];
                    rewrite ?removeSpaces_cons, ?removeSpaces_nil,
                      ?digitsOnly_cons, ?digitsOnly_nil,
                      ?prefix_cons, ?prefix_nil, ?prefix_nil_r,
                      ?digitsN_cons, ?digitsN_nil;
                    usedigits; concrete; simpl)).

(** X6. An eight-digit local number that begins with 266 is valid, but the
    formatter takes its first three digits for the country code and
    shows the other five; the result is not a valid phone number. *)
Theorem formatPhoneNumber_local_266 (rest : string) :
  digitsN 5 rest = true ->
  isValidPhone ("266" ++ rest) = true
  /\ formatPhoneNumber ("266" ++ rest)
     = ("+266 " ++ substring 0 4 rest ++ " " ++ MyApplications.slice 4 rest)%string
  /\ isValidPhone (formatPhoneNumber ("266" ++ rest)) = false.
Proof.
  intros H. digits H rest.
  unfold isValidPhone, formatPhoneNumber, PHONE_REGEX. norm.
  split; [reflexivity |]. split; [reflexivity |]. norm. reflexivity.
Qed.

Lemma formatPhoneNumber_local_266_witness :
  isValidPhone "26612345" = true
  /\ formatPhoneNumber "26612345" = "+266 1234 5"
  /\ isValidPhone (formatPhoneNumber "26612345") = false.
Proof.
  apply (formatPhoneNumber_local_266 "12345"). reflexivity.
Defined.

End Formats.

(** ** Password rules *)

Module Passwords.
Import Text Validation.



Example validatePassword_examples :
  validatePassword "Maseru#2025" = mkPasswordCheck true []
  /\ validatePassword "maseru"
     = mkPasswordCheck false
         [ "Password must be at least 8 characters";
           "Password must contain at least one uppercase letter";
           "Password must contain at least one number";
           "Password must contain at least one special character" ].
Proof. split; reflexivity. Qed.

End Passwords.

(** ** Names and words *)

Module Words.
Import Text TextFacts Formatters MyApplications.

Lemma lowerChar_idempotent (c : ascii) : lowerChar (lowerChar c) = lowerChar c.
Proof. destruct c as [[] [] [] [] [] [] [] []]; reflexivity. Qed.

Lemma lowerChar_upperChar (c : ascii) : lowerChar (upperChar c) = lowerChar c.
Proof. destruct c as [[] [] [] [] [] [] [] []]; reflexivity. Qed.

Lemma lowerChar_space (c : ascii) :
  Ascii.eqb (lowerChar c) " " = Ascii.eqb c " ".
Proof. destruct c as [[] [] [] [] [] [] [] []]; reflexivity. Qed.

Lemma upperChar_space (c : ascii) :
  Ascii.eqb (upperChar c) " " = Ascii.eqb c " ".
Proof. destruct c as [[] [] [] [] [] [] [] []]; reflexivity. Qed.

Lemma toLowerCase_app (s t : string) :
  toLowerCase (s ++ t) = (toLowerCase s ++ toLowerCase t)%string.
Proof. induction s as [|c s IH]; simpl; [reflexivity | rewrite IH; reflexivity]. Qed.

Lemma toLowerCase_join (ws : list string) :
  toLowerCase (join " " ws) = join " " (map toLowerCase ws).
Proof.
  induction ws as [|w ws IH]; [reflexivity |].
  destruct ws as [|w' ws']; [reflexivity |].
  change (join " " (w :: w' :: ws')) with (w ++ " " ++ join " " (w' :: ws'))%string.
  rewrite !toLowerCase_app, IH. reflexivity.
Qed.

Lemma toLowerCase_idempotent (s : string) :
  toLowerCase (toLowerCase s) = toLowerCase s.
Proof.
  induction s as [|c s IH]; simpl; [reflexivity |].
  rewrite lowerChar_idempotent, IH. reflexivity.
Qed.

(** Lowering the case does not move the blanks. *)
Lemma split_toLowerCase (s : string) :
  split " " (toLowerCase s) = map toLowerCase (split " " s).
Proof.
  induction s as [|c s IH]; [reflexivity |].
  cbn [toLowerCase split]. rewrite lowerChar_space, IH.
  destruct (Ascii.eqb c " ") eqn:Hc.
  - apply Ascii.eqb_eq in Hc as ->. reflexivity.
  - pose proof (Labels.split_not_nil " " s) as Hnil.
    destruct (split " " s); [contradiction | reflexivity].
Qed.

Lemma toLowerCase_capitalize (w : string) :
  toLowerCase (capitalize w) = toLowerCase w.
Proof.
  destruct w as [|c w]; [reflexivity |].
  rewrite Labels.capitalize_cons. simpl.
  rewrite lowerChar_upperChar. reflexivity.
Qed.

Lemma capitalize_free_space (w : string) :
  free " " w = true -> free " " (capitalize w) = true.
Proof.
  destruct w as [|c w]; [reflexivity |].
  rewrite Labels.capitalize_cons. simpl.
  rewrite upperChar_space. auto.
Qed.

Lemma split_app_sep (sep : ascii) (w s : string) :
  free sep w = true ->
  split sep (w ++ String sep s) = w :: split sep s.
Proof.
  induction w as [|c w IH]; simpl.
  - intros _. rewrite Ascii.eqb_refl. reflexivity.
  - intros [Hc Hw]%andb_true_iff. apply negb_true_iff in Hc.
    rewrite Hc, (IH Hw). reflexivity.
Qed.

(** Joining blank-free words and splitting again gives the words back. *)
Lemma split_join (ws : list string) :
  ws <> [] -> Forall (fun w => free " " w = true) ws ->
  split " " (join " " ws) = ws.
Proof.
  induction ws as [|w ws IH]; [congruence |].
  intros _ H. inversion H as [|? ? Hw Hws]; subst.
  destruct ws as [|w' ws'].
  - simpl. apply Labels.split_free, Hw.
  - change (join " " (w :: w' :: ws'))
      with (w ++ String " " (join " " (w' :: ws')))%string.
    rewrite (split_app_sep " " _ _ Hw), IH; [reflexivity | discriminate | exact Hws].
Qed.

Lemma capitalizeWords_nonempty (text : string) :
  text <> "" ->
  capitalizeWords text
  = join " " (map capitalize (split " " (toLowerCase text))).
Proof.
  intros H. unfold capitalizeWords.
  destruct (String.eqb_spec text ""); [contradiction | reflexivity].
Qed.

(** X8. [capitalizeWords] is idempotent: a text that went through it once
    comes back unchanged, whatever its case and spacing were. *)
Theorem capitalizeWords_idempotent (text : string) :
  capitalizeWords (capitalizeWords text) = capitalizeWords text.
Proof.
  destruct (String.eqb_spec text "") as [-> | Hne]; [reflexivity |].
  rewrite (capitalizeWords_nonempty text Hne).
  set (ws := split " " (toLowerCase text)).
  assert (Hnil : ws <> []) by apply Labels.split_not_nil.
  assert (Hfree : Forall (fun w => free " " w = true) ws)
    by apply Labels.split_pieces_free.
  assert (Hlow : map toLowerCase ws = ws).
  { unfold ws. rewrite <- split_toLowerCase, toLowerCase_idempotent. reflexivity. }
  unfold capitalizeWords.
  destruct (String.eqb_spec (join " " (map capitalize ws)) "") as [-> | _];
    [reflexivity |].
  rewrite toLowerCase_join, map_map.
  rewrite (map_ext _ toLowerCase toLowerCase_capitalize), Hlow.
  rewrite split_join; [reflexivity | exact Hnil | exact Hfree].
Qed.

Example capitalizeWords_examples :
  capitalizeWords "mOSHOESHOE  road" = "Moshoeshoe  Road"
  /\ capitalizeWords "" = "".
Proof. split; reflexivity. Qed.

Lemma join_two_initials (a b : string) :
  join "" [a; b] = (a ++ b)%string.
Proof. simpl. reflexivity. Qed.

(** X9. [getInitials] never returns more than two characters, returns [?]
    for an empty name, and for a first and a last name separated by one
    blank returns the capitals of their first letters. *)
Theorem getInitials_spec (name : string) :
  (String.length (getInitials name) <= 2)%nat
  /\ (name = "" -> getInitials name = "?")
  /\ (forall c1 first c2 last,
        free " " (String c1 first) = true ->
        free " " (String c2 last) = true ->
        name = (String c1 first ++ " " ++ String c2 last)%string ->
        getInitials name = String (upperChar c1) (String (upperChar c2) "")).
Proof.
  split; [| split].
  - unfold getInitials. destruct (String.eqb name ""); [simpl; lia |].
    unfold substring. rewrite length_substring0. lia.
  - intros ->. reflexivity.
  - intros c1 first c2 last H1 H2 ->.
    unfold getInitials.
    change (String c1 first ++ " " ++ String c2 last)%string
      with (String c1 (first ++ String " " (String c2 last)))%string.
    cbn [String.eqb].
    change (String c1 (first ++ String " " (String c2 last)))%string
      with (String c1 first ++ String " " (String c2 last))%string.
    rewrite (split_app_sep " " _ _ H1), (Labels.split_free " " _ H2).
    reflexivity.
Qed.

Lemma getInitials_spec_witness :
  getInitials "thabo Mokoena" = "TM".
Proof.
  apply (proj2 (proj2 (getInitials_spec "thabo Mokoena"))
           "t"%char "habo" "M"%char "okoena");
    reflexivity.
Defined.

End Words.

(** ** Reading and writing the storage *)

Module StorageFacts.
Import Storage ApiClient StorageAccess.

Section Builtins.

Variable JSON_parse : string -> option JSValue.
Variable serialize : JSValue -> string.
Variable display : JSValue -> string.

Lemma probe_refused (ls : LocalStorage) :
  accepts_writes ls = false -> isLocalStorageAvailable ls = (false, ls).
Proof. intros H. unfold isLocalStorageAvailable. rewrite H. reflexivity. Qed.

Lemma probe_accepted (ls : LocalStorage) :
  accepts_writes ls = true ->
  isLocalStorageAvailable ls
  = (true, withItems (fun m => delete probeKey (<[probeKey := "test"]> m)) ls).
Proof. intros H. unfold isLocalStorageAvailable. rewrite H. reflexivity. Qed.

Lemma probe_lookup (m : gmap string string) (k : string) :
  delete probeKey (<[probeKey := "test"]> m) !! k
  = if decide (k = probeKey) then None else m !! k.
Proof.
  destruct (decide (k = probeKey)) as [-> | Hne].
  - apply lookup_delete_eq.
  - rewrite lookup_delete_ne, lookup_insert_ne by congruence. reflexivity.
Qed.

(** X10. When the browser refuses writes every helper gives up without
    touching the storage: [getItem] answers with the default even for a
    key that is stored, and [setItem], [removeItem] and [clear] report
    failure. *)
Theorem storage_refused (key : string) (value defaultValue : JSValue)
    (ls : LocalStorage) :
  accepts_writes ls = false ->
  getItem JSON_parse key defaultValue ls = (defaultValue, ls)
  /\ setItem serialize key value ls = (false, ls)
  /\ removeItem key ls = (false, ls)
  /\ clear ls = (false, ls).
Proof.
  intros H. unfold getItem, setItem, removeItem, clear.
  rewrite (probe_refused ls H). repeat split.
Qed.



(** X12. [removeItem] with writes accepted: the key is gone, the probe key is
    gone, and every other key keeps its item. *)
Theorem removeItem_frame (key : string) (ls : LocalStorage) :
  accepts_writes ls = true ->
  fst (removeItem key ls) = true
  /\ items (snd (removeItem key ls)) !! key = None
  /\ items (snd (removeItem key ls)) !! probeKey = None
  /\ (forall k, k <> key -> k <> probeKey ->
        items (snd (removeItem key ls)) !! k = items ls !! k).
Proof.
  intros H. unfold removeItem. rewrite (probe_accepted ls H). simpl.
  split; [reflexivity |]. split; [apply lookup_delete_eq |]. split.
  - destruct (decide (key = probeKey)) as [-> | Hne]; [apply lookup_delete_eq |].
    rewrite lookup_delete_ne by congruence. apply lookup_delete_eq.
  - intros k Hk Hp. rewrite lookup_delete_ne by congruence.
    rewrite probe_lookup. destruct (decide (k = probeKey)); [contradiction | reflexivity].
Qed.

Lemma clearAuthData_items (ls : LocalStorage) (k : string) :
  k <> Constants.AUTH_TOKEN -> k <> Constants.USER_DATA -> k <> probeKey ->
  items (snd (clearAuthData ls)) !! k = items ls !! k.
Proof.
  intros Ht Hu Hp. destruct (accepts_writes ls) eqn:H.
  - rewrite Session.clearAuthData_eq. simpl.
    unfold removeAuthToken, removeUserData, removeItem.
    rewrite (probe_accepted ls H). simpl.
    rewrite probe_accepted by exact H. simpl.
    rewrite lookup_delete_ne by congruence.
    rewrite probe_lookup. destruct (decide (k = probeKey)); [contradiction |].
    rewrite lookup_delete_ne by congruence.
    rewrite probe_lookup. destruct (decide (k = probeKey)); [contradiction |].
    reflexivity.
  - rewrite (Session.clearAuthData_unavailable ls H). reflexivity.
Qed.

Lemma clearAuthData_accepts (ls : LocalStorage) :
  accepts_writes (snd (clearAuthData ls)) = accepts_writes ls.
Proof.
  destruct (accepts_writes ls) eqn:H.
  - rewrite Session.clearAuthData_eq. simpl.
    unfold removeAuthToken, removeUserData, removeItem.
    rewrite (probe_accepted ls H). simpl.
    rewrite probe_accepted by exact H. simpl. exact H.
  - rewrite (Session.clearAuthData_unavailable ls H). exact H.
Qed.

Lemma getItem_fst (key : string) (defaultValue : JSValue) (ls : LocalStorage) :
  fst (getItem JSON_parse key defaultValue ls)
  = if accepts_writes ls
    then match (if decide (key = probeKey) then None else items ls !! key) with
         | None => defaultValue
         | Some item => match JSON_parse item with
                        | Some value => value
                        | None => JStr item
                        end
         end
    else defaultValue.
Proof.
  unfold getItem. destruct (accepts_writes ls) eqn:H.
  - rewrite (probe_accepted ls H). simpl. rewrite probe_lookup.
    destruct (decide (key = probeKey)); [reflexivity |].
    destruct (items ls !! key) as [item|]; [| reflexivity].
    destruct (JSON_parse item); reflexivity.
  - rewrite (probe_refused ls H). reflexivity.
Qed.

(** X13. Clearing the session leaves the theme preference as it was. *)
Theorem clearAuthData_keeps_theme (ls : LocalStorage) :
  fst (getTheme JSON_parse (snd (clearAuthData ls))) = fst (getTheme JSON_parse ls).
Proof.
  unfold getTheme. rewrite !getItem_fst, clearAuthData_accepts.
  destruct (accepts_writes ls); [| reflexivity].
  destruct (decide (Constants.THEME = probeKey)); [reflexivity |].
  rewrite clearAuthData_items by discriminate. reflexivity.
Qed.

Lemma getAuthToken_cleared (ls : LocalStorage) :
  fst (getAuthToken JSON_parse (snd (clearAuthData ls))) = JNull.
Proof.
  unfold getAuthToken. rewrite getItem_fst, clearAuthData_accepts.
  destruct (accepts_writes ls) eqn:H; [| reflexivity].
  destruct (decide (Constants.AUTH_TOKEN = probeKey)); [reflexivity |].
  destruct (Session.clearAuthData_available ls H) as (_ & -> & _). reflexivity.
Qed.

Lemma clearAuthData_anonymous (headers : gmap string string) (ls : LocalStorage) :
  fst (isAuthenticated JSON_parse (snd (clearAuthData ls))) = false
  /\ fst (onRequest JSON_parse display headers (snd (clearAuthData ls))) = headers.
Proof.
  pose proof (getAuthToken_cleared ls) as H.
  unfold isAuthenticated, onRequest.
  destruct (getAuthToken JSON_parse (snd (clearAuthData ls))) as [token ls1].
  simpl in H. subst token. split; reflexivity.
Qed.

(** After [clearAuthData] the client counts as logged out, whether or
    not the storage could be written: [isAuthenticated] is false and the
    next request carries no [Authorization] header. *)
Lemma cleared_session_is_anonymous (headers : gmap string string)
    (ls : LocalStorage) :
  fst (isAuthenticated JSON_parse (snd (clearAuthData ls))) = false
  /\ fst (onRequest JSON_parse display headers (snd (clearAuthData ls))) = headers.
Proof. apply clearAuthData_anonymous. Qed.

(** X14. A request made after a 401 carries no [Authorization] header,
    whatever the storage held and whether or not it could be cleared. *)
Theorem request_after_401_is_anonymous (data : JSValue) (b : Browser)
    (headers : gmap string string) :
  fst (onRequest JSON_parse display headers
         (localStorage (fst (onRejected (unauthorized data) b))))
  = headers.
Proof.
  rewrite Session.onRejected_401. simpl.
  apply clearAuthData_anonymous.
Qed.


End Builtins.



Lemma removeItem_frame_witness :
  let ls := mkLocalStorage
              (<[Constants.AUTH_TOKEN := "eyJhbGciOi"]>
                 (<[Constants.THEME := "dark"]> ∅)) true in
  items (snd (removeItem Constants.AUTH_TOKEN ls)) !! Constants.AUTH_TOKEN = None.
Proof.
  intros ls.
  apply (proj1 (proj2 (removeItem_frame Constants.AUTH_TOKEN ls eq_refl))).
Defined.


Lemma storage_refused_witness :
  let ls := mkLocalStorage (<[Constants.AUTH_TOKEN := "eyJhbGciOi"]> ∅) false in
  getItem (fun _ => None) Constants.AUTH_TOKEN JNull ls = (JNull, ls)
  /\ setItem (fun _ => "") Constants.AUTH_TOKEN (JStr "dark") ls = (false, ls)
  /\ removeItem Constants.AUTH_TOKEN ls = (false, ls)
  /\ clear ls = (false, ls).
Proof.
  intros ls.
  apply (storage_refused (fun _ => None) (fun _ => "")
           Constants.AUTH_TOKEN (JStr "dark") JNull ls eq_refl).
Defined.

End StorageFacts.

(** ** The session provider *)

Module Auth.
Import Storage ApiClient AuthProvider.

Section Builtins.

Variable JSON_parse : string -> option JSValue.
Variable serialize : JSValue -> string.
Variable display : JSValue -> string.






(** A login whose API call is rejected changes neither the provider nor
    the storage and hands the rejection on. *)
Lemma login_rejected (error : Settlement) (st : State) (ls : LocalStorage) :
  let '(st', ls', toasts, result) :=
    login serialize display (Rejected error) st ls in
  st' = st /\ ls' = ls /\ result = Rethrown error.
Proof. simpl. repeat split. Qed.

(** X18. [logout] signs the provider out whatever the logout call did: no
    current user, no role, [isAuthenticated] false in the provider and in
    the storage helpers, and no [Authorization] header on the next
    request. *)
Theorem logout_signs_out (outcome : ApiOutcome) (st : State) (ls : LocalStorage)
    (role : string) (headers : gmap string string) :
  let '(st', ls', toasts) := logout outcome st ls in
  user st' = JNull
  /\ isAuthenticated st' = false
  /\ hasRole role st' = false
  /\ fst (StorageAccess.isAuthenticated JSON_parse ls') = false
  /\ fst (StorageAccess.onRequest JSON_parse display headers ls') = headers.
Proof.
  unfold logout. cbn beta iota zeta.
  split; [reflexivity |]. split; [reflexivity |]. split; [reflexivity |].
  apply StorageFacts.clearAuthData_anonymous.
Qed.

(** X19. After [initAuth] the provider is no longer loading; it is signed in
    exactly when a truthy user was stored and the session check
    resolved, and a failed check leaves it signed out without a token
    the request interceptor would send. *)
Theorem initAuth_outcome (getCurrentUser : ApiOutcome) (ls : LocalStorage)
    (headers : gmap string string) :
  let '(st', ls') := initAuth JSON_parse getCurrentUser initial ls in
  loading st' = false
  /\ (isAuthenticated st' = true <->
      truthy (fst (StorageAccess.getUserData JSON_parse ls)) = true
      /\ exists currentUser, getCurrentUser = Resolved currentUser)
  /\ (truthy (fst (StorageAccess.getUserData JSON_parse ls)) = true ->
      (exists error, getCurrentUser = Rejected error) ->
      user st' = JNull
      /\ fst (StorageAccess.onRequest JSON_parse display headers ls') = headers).
Proof.
  unfold initAuth.
  destruct (StorageAccess.getUserData JSON_parse ls) as [storedUser ls1] eqn:Hget.
  simpl. destruct (truthy storedUser) eqn:Hstored.
  - destruct getCurrentUser as [currentUser | error]; simpl.
    + split; [reflexivity |]. split.
      * split; [intros _; split; [reflexivity | eexists; reflexivity] | reflexivity].
      * intros _ [e He]. discriminate He.
    + split; [reflexivity |]. split.
      * split; [discriminate | intros [_ [u Hu]]; discriminate Hu].
      * intros _ _. split; [reflexivity |].
        apply StorageFacts.clearAuthData_anonymous.
  - simpl. split; [reflexivity |]. split.
    + split; [discriminate | intros [H _]; discriminate H].
    + intros H. discriminate H.
Qed.

End Builtins.



Lemma initAuth_outcome_witness :
  let parse := fun s : string => Some (JStr s) in
  let ls := mkLocalStorage
              (<[Constants.USER_DATA := "thabo"]>
                 (<[Constants.AUTH_TOKEN := "eyJhbGciOi"]> ∅)) true in
  let headers : gmap string string := <["Content-Type" := "application/json"]> ∅ in
  truthy (fst (StorageAccess.getUserData parse ls)) = true
  /\ user (fst (initAuth parse (Rejected RejectsTypeError) initial ls)) = JNull
  /\ fst (StorageAccess.onRequest parse (fun _ => "") headers
            (snd (initAuth parse (Rejected RejectsTypeError) initial ls)))
     = headers.
Proof.
  intros parse ls headers.
  assert (Hstored : truthy (fst (StorageAccess.getUserData parse ls)) = true)
    by reflexivity.
  split; [exact Hstored |].
  pose proof (initAuth_outcome parse (fun _ => "") (Rejected RejectsTypeError)
                ls headers) as H.
  destruct (initAuth parse (Rejected RejectsTypeError) initial ls) as [st' ls'].
  destruct H as (_ & _ & H).
  apply (H Hstored). exists RejectsTypeError. reflexivity.
Defined.

End Auth.

(** ** The application wizard *)

Module Wizard.
Import ApplicationForm.

Lemma foldl_checks_empty (data : gmap string FormValue)
    (checks : list (string * string)) (acc : gmap string string) :
  foldl (fun errs check =>
           if filled (data !! fst check) then errs
           else <[fst check := snd check]> errs) acc checks = ∅
  <-> acc = ∅ /\ Forall (fun check => filled (data !! fst check) = true) checks.
Proof.
  revert acc. induction checks as [|check checks IH]; intros acc; simpl.
  - split; [intros H; split; [exact H | constructor] | intros [H _]; exact H].
  - rewrite IH. destruct (filled (data !! fst check)) eqn:Hf.
    + split; intros [Ha Hc]; (split; [exact Ha |]).
      * constructor; assumption.
      * inversion Hc; assumption.
    + split.
      * intros [Ha _]. exfalso. exact (insert_non_empty _ _ _ Ha).
      * intros [_ Hc]. inversion Hc. congruence.
Qed.

Lemma newErrors_empty (step : Z) (data : gmap string FormValue) :
  newErrors step data = ∅
  <-> forall field message,
        In (field, message) (required step) -> filled (data !! field) = true.
Proof.
  unfold newErrors. rewrite foldl_checks_empty, Forall_forall.
  split.
  - intros [_ H] field message Hin.
    apply (H (field, message)), list_elem_of_In, Hin.
  - intros H. split; [reflexivity |]. intros [field message] Hin.
    apply (H field message), list_elem_of_In, Hin.
Qed.

Lemma foldl_checks_lookup (data : gmap string FormValue)
    (checks : list (string * string)) (acc : gmap string string) (field : string) :
  is_Some (foldl (fun errs check =>
                    if filled (data !! fst check) then errs
                    else <[fst check := snd check]> errs) acc checks !! field)
  <-> is_Some (acc !! field)
      \/ exists message, In (field, message) checks
                         /\ filled (data !! field) = false.
Proof.
  revert acc. induction checks as [|[f m] checks IH]; intros acc; simpl.
  - split; [auto | intros [H | (x & [] & _)]; exact H].
  - rewrite IH. simpl. destruct (filled (data !! f)) eqn:Hf.
    + split.
      * intros [H | (x & Hin & Hx)]; [auto | right; eauto].
      * intros [H | (x & [Heq | Hin] & Hx)]; [auto | | right; eauto].
        injection Heq as -> ->. congruence.
    + split.
      * intros [H | (x & Hin & Hx)]; [| right; eauto].
        destruct (decide (f = field)) as [-> | Hne]; [right; eauto |].
        rewrite lookup_insert_ne in H by exact Hne. auto.
      * intros [H | (x & [Heq | Hin] & Hx)]; [| | right; eauto].
        -- left. destruct (decide (f = field)) as [-> | Hne].
           ++ rewrite lookup_insert_eq. eauto.
           ++ rewrite lookup_insert_ne by exact Hne. exact H.
        -- injection Heq as -> ->. left. rewrite lookup_insert_eq. eauto.
Qed.

Lemma newErrors_lookup (step : Z) (data : gmap string FormValue) (field : string) :
  is_Some (newErrors step data !! field)
  <-> exists message, In (field, message) (required step)
                      /\ filled (data !! field) = false.
Proof.
  unfold newErrors. rewrite foldl_checks_lookup, lookup_empty.
  split; [intros [[x Hx] | H]; [discriminate | exact H] | auto].
Qed.

(** X20. [Next] moves on exactly when every required field of the step is
    filled, and then by one step, never past the last; otherwise the
    step stays and exactly the empty required fields carry a message.
    The entered data is never changed by it. *)
Theorem nextStep_validates (st : State) :
  formData (nextStep st) = formData st
  /\ ((forall field message,
         In (field, message) (required (currentStep st)) ->
         filled (formData st !! field) = true) ->
      currentStep (nextStep st) = Z.min (currentStep st + 1) STEPS_length
      /\ errors (nextStep st) = ∅)
  /\ (forall field message,
        In (field, message) (required (currentStep st)) ->
        filled (formData st !! field) = false ->
        currentStep (nextStep st) = currentStep st)
  /\ (forall field,
        is_Some (errors (nextStep st) !! field)
        <-> exists message,
              In (field, message) (required (currentStep st))
              /\ filled (formData st !! field) = false).
Proof.
  unfold nextStep, validateStep.
  destruct (bool_decide_reflect (newErrors (currentStep st) (formData st) = ∅))
    as [Hempty | Hsome]; simpl.
  - split; [reflexivity |]. split; [intros _; split; [reflexivity | exact Hempty] |].
    split.
    + intros field message Hin Hf.
      rewrite newErrors_empty in Hempty. rewrite (Hempty _ _ Hin) in Hf. discriminate.
    + intros field. apply newErrors_lookup.
  - split; [reflexivity |]. split.
    + intros H. exfalso. apply Hsome, newErrors_empty, H.
    + split; [reflexivity |]. intros field. apply newErrors_lookup.
Qed.

Lemma nextStep_validates_witness :
  currentStep (nextStep initial) = currentStep initial.
Proof.
  apply (proj1 (proj2 (proj2 (nextStep_validates initial)))
           "first_name" "First name is required").
  - left. reflexivity.
  - reflexivity.
Defined.

Lemma steps_cases (k : Z) :
  (1 <= k <= STEPS_length)%Z -> k = 1%Z \/ k = 2%Z \/ k = 3%Z \/ k = 4%Z.
Proof. unfold STEPS_length. lia. Qed.

(** The inputs of a step are not among the required fields of the steps
    before it. *)
Lemma inputs_after (k j : Z) (name field message : string) :
  (1 <= j < k)%Z -> (k <= STEPS_length)%Z ->
  inList name (textInputs k) || inList name (fileInputs k) = true ->
  In (field, message) (required j) -> field <> name.
Proof.
  intros Hj Hk Hname Hin <-.
  assert (Hk' : (1 <= k <= STEPS_length)%Z) by lia.
  assert (Hj' : (1 <= j <= STEPS_length)%Z) by (unfold STEPS_length in *; lia).
  destruct (steps_cases k Hk') as [-> | [-> | [-> | ->]]];
    destruct (steps_cases j Hj') as [-> | [-> | [-> | ->]]]; try lia;
    simpl in Hin;
    repeat (destruct Hin as [Hin | Hin]; [injection Hin as <- <-; discriminate Hname |]);
    contradiction.
Qed.

Lemma completed_insert (k : Z) (data : gmap string FormValue) (name : string)
    (v : FormValue) :
  (1 <= k <= STEPS_length)%Z ->
  inList name (textInputs k) || inList name (fileInputs k) = true ->
  completed k data -> completed k (<[name := v]> data).
Proof.
  intros Hk Hname Hc j field message Hj Hin.
  rewrite lookup_insert_ne.
  - apply (Hc j field message Hj Hin).
  - intros <-. apply (inputs_after k j name name message Hj ltac:(lia) Hname Hin).
    reflexivity.
Qed.

Lemma textual_change (data : gmap string FormValue) (name value : string) :
  textual data -> textual (<[name := Text value]> data).
Proof.
  intros H n Hn. destruct (decide (name = n)) as [-> | Hne].
  - rewrite lookup_insert_eq. eauto.
  - rewrite lookup_insert_ne by exact Hne. apply (H n Hn).
Qed.

Lemma textual_file (k : Z) (data : gmap string FormValue) (name f : string) :
  inList name (fileInputs k) = true ->
  textual data -> textual (<[name := FileValue f]> data).
Proof.
  intros Hname H n Hn. rewrite lookup_insert_ne; [apply (H n Hn) |].
  intros <-. unfold fileInputs in Hname.
  destruct (k =? 3)%Z; [| discriminate Hname].
  unfold textNames in Hn. simpl in Hn.
  repeat (destruct Hn as [<- | Hn]; [discriminate Hname |]). contradiction.
Qed.

Lemma nextStep_currentStep (st : State) :
  currentStep (nextStep st)
  = if bool_decide (newErrors (currentStep st) (formData st) = ∅)
    then Z.min (currentStep st + 1) STEPS_length else currentStep st.
Proof.
  unfold nextStep, validateStep.
  destruct (bool_decide (newErrors (currentStep st) (formData st) = ∅)); reflexivity.
Qed.

Lemma nextStep_formData (st : State) : formData (nextStep st) = formData st.
Proof.
  unfold nextStep, validateStep.
  destruct (bool_decide (newErrors (currentStep st) (formData st) = ∅)); reflexivity.
Qed.

Lemma handleSubmit_state (created : CreateOutcome) (uploadOk : bool) (st : State) :
  currentStep (snd (handleSubmit created uploadOk st)) = currentStep st
  /\ formData (snd (handleSubmit created uploadOk st)) = formData st.
Proof.
  unfold handleSubmit, validateStep.
  destruct (bool_decide (newErrors (currentStep st) (formData st) = ∅));
    [destruct created |]; split; reflexivity.
Qed.

Lemma Inv_fire (ev : Event) (st : State) : Inv st -> Inv (snd (fire ev st)).
Proof.
  intros (Hk & Hc & Ht). unfold Inv.
  destruct ev as [name value | name file | | | created uploadOk]; unfold fire.
  - destruct (inList name (textInputs (currentStep st))) eqn:Hin;
      [| exact (conj Hk (conj Hc Ht))].
    split; [exact Hk |]. split.
    + apply completed_insert; [exact Hk | simpl; rewrite Hin; reflexivity | exact Hc].
    + apply textual_change, Ht.
  - destruct (inList name (fileInputs (currentStep st))) eqn:Hin;
      [| exact (conj Hk (conj Hc Ht))].
    destruct file as [f|]; [| exact (conj Hk (conj Hc Ht))].
    split; [exact Hk |]. split.
    + apply completed_insert;
        [exact Hk | simpl; rewrite Hin; apply orb_true_r | exact Hc].
    + apply (textual_file (currentStep st)); assumption.
  - destruct (Z.ltb_spec (currentStep st) STEPS_length) as [Hlt | Hge];
      [| exact (conj Hk (conj Hc Ht))].
    cbn [snd]. rewrite nextStep_currentStep, nextStep_formData.
    destruct (bool_decide_reflect (newErrors (currentStep st) (formData st) = ∅))
      as [Hempty | Hsome]; [| exact (conj Hk (conj Hc Ht))].
    rewrite Z.min_l by lia. split; [lia |]. split; [| exact Ht].
    intros j field message Hj Hin.
    destruct (Z.eq_dec j (currentStep st)) as [-> | Hne].
    + rewrite newErrors_empty in Hempty. apply (Hempty _ _ Hin).
    + apply (Hc j field message); [lia | exact Hin].
  - destruct (Z.eqb_spec (currentStep st) 1) as [H1 | H1];
      [exact (conj Hk (conj Hc Ht)) |].
    cbn [snd prevStep setCurrentStep currentStep formData].
    rewrite Z.max_l by lia. split; [lia |]. split; [| exact Ht].
    intros j field message Hj Hin. apply (Hc j field message); [lia | exact Hin].
  - destruct ((currentStep st <? STEPS_length)%Z || isSubmitting st);
      [exact (conj Hk (conj Hc Ht)) |].
    destruct (handleSubmit_state created uploadOk st) as [-> ->].
    exact (conj Hk (conj Hc Ht)).
Qed.

Lemma Inv_initial : Inv initial.
Proof.
  split; [unfold STEPS_length; simpl; lia |]. split.
  - intros j field message Hj. simpl in Hj. lia.
  - intros name Hn. unfold textNames in Hn. simpl in Hn.
    repeat (destruct Hn as [<- | Hn]; [eexists; reflexivity |]). contradiction.
Qed.

Lemma Inv_run (events : list Event) (st : State) :
  Inv st -> Inv (snd (run events st)).
Proof.
  revert st. induction events as [|ev events IH]; intros st H; simpl; [exact H |].
  pose proof (Inv_fire ev st H) as H1.
  destruct (fire ev st) as [effects st1]. simpl in H1.
  specialize (IH st1 H1). destruct (run events st1) as [more st2]. exact IH.
Qed.

(** X21. Whatever the user does with the form, the wizard stays on one of
    its four steps and every required field of the steps already passed
    is filled; going back and editing cannot leave a gap behind. *)
Theorem wizard_steps_complete (events : list Event) :
  (1 <= currentStep (snd (run events initial)) <= STEPS_length)%Z
  /\ completed (currentStep (snd (run events initial)))
               (formData (snd (run events initial))).
Proof.
  destruct (Inv_run events initial Inv_initial) as (Hk & Hc & _). auto.
Qed.

(** Every effect of a run comes from one event fired in a state the
    form can reach. *)
Lemma run_effect (events : list Event) (st : State) (e : Effect) :
  Inv st -> In e (fst (run events st)) ->
  exists ev st1, Inv st1 /\ In e (fst (fire ev st1)).
Proof.
  revert st. induction events as [|ev events IH]; intros st H Hin; simpl in Hin;
    [contradiction |].
  pose proof (Inv_fire ev st H) as H1.
  destruct (fire ev st) as [effects st1] eqn:Hfire. simpl in H1.
  destruct (run events st1) as [more st2] eqn:Hrun. simpl in Hin.
  apply in_app_or in Hin as [Hin | Hin].
  - exists ev, st. rewrite Hfire. auto.
  - apply (IH st1 H1). rewrite Hrun. exact Hin.
Qed.

Lemma fire_create (ev : Event) (st : State)
    (payload : gmap string ApiClient.JSValue) :
  In (CreateApplication payload) (fst (fire ev st)) ->
  (STEPS_length <= currentStep st)%Z
  /\ payload = applicationData (formData st).
Proof.
  destruct ev as [name value | name file | | | created uploadOk]; unfold fire.
  - destruct (inList name (textInputs (currentStep st))); intros [].
  - destruct (inList name (fileInputs (currentStep st))); intros [].
  - destruct (currentStep st <? STEPS_length)%Z; intros [].
  - destruct (currentStep st =? 1)%Z; intros [].
  - destruct (Z.ltb_spec (currentStep st) STEPS_length) as [Hlt | Hge]; simpl;
      [intros [] |].
    destruct (isSubmitting st); [intros [] |].
    unfold handleSubmit, validateStep.
    destruct (bool_decide (newErrors (currentStep st) (formData st) = ∅));
      simpl; [| intros []].
    intros Hin. split; [exact Hge |].
    destruct created as [id number | detail]; simpl in Hin.
    + destruct Hin as [Heq | Hin]; [congruence |].
      apply in_app_or in Hin as [Hin | Hin].
      * destruct (filled (formData st !! "photo") || filled (formData st !! "id_document"));
          [| contradiction].
        destruct Hin as [Heq | Hin]; [discriminate |].
        destruct uploadOk; simpl in Hin; [contradiction |].
        destruct Hin as [Heq | []]. discriminate.
      * simpl in Hin. destruct Hin as [Heq | [Heq | []]]; discriminate.
    + destruct Hin as [Heq | [Heq | []]]; [congruence | discriminate].
Qed.

Lemma textOf_filled (data : gmap string FormValue) (field : string) :
  textual data -> In field textNames -> filled (data !! field) = true ->
  textOf data field <> "".
Proof.
  intros Ht Hin Hf. destruct (Ht field Hin) as [s Hs].
  unfold textOf. rewrite Hs in *. simpl in Hf.
  apply negb_true_iff, String.eqb_neq in Hf. exact Hf.
Qed.

Lemma toLowerCase_nonempty (s : string) : s <> "" -> Text.toLowerCase s <> "".
Proof. destruct s; [congruence | discriminate]. Qed.

Lemma applicationData_complete (data : gmap string FormValue) :
  textual data -> completed STEPS_length data ->
  applicationData data !! "pages" = Some (ApiClient.JNum 32)
  /\ forall field, In field requiredText ->
       exists s, applicationData data !! field = Some (ApiClient.JStr s) /\ s <> "".
Proof.
  intros Ht Hc.
  assert (Hreq : forall k field message,
             (1 <= k < STEPS_length)%Z -> In (field, message) (required k) ->
             In field textNames -> textOf data field <> "").
  { intros k field message Hk Hin Hn.
    apply (textOf_filled data field Ht Hn), (Hc k field message Hk Hin). }
  unfold applicationData, whenFilled, always.
  destruct (String.eqb (textOf data "emergency_contact_name") "");
    destruct (String.eqb (textOf data "emergency_contact_phone") "");
    destruct (String.eqb (textOf data "emergency_contact_relationship") "");
    destruct (String.eqb (textOf data "previous_passport_number") "");
    destruct (String.eqb (textOf data "notes") "");
    (split; [reflexivity |]);
    intros field Hin; unfold requiredText in Hin; simpl in Hin;
    repeat (destruct Hin as [<- | Hin];
            [eexists; split; [reflexivity |];
             first [ apply toLowerCase_nonempty; eapply (Hreq 2%Z);
                     [unfold STEPS_length; lia | left; reflexivity
                     | unfold textNames; simpl; tauto]
                   | eapply (Hreq 1%Z);
                     [unfold STEPS_length; lia | simpl; tauto
                     | unfold textNames; simpl; tauto] ] |]);
    contradiction.
Qed.

(** X22. Every application the form sends carries all the required text
    fields, none of them empty, and 32 pages: the request can only leave
    from the last step, which is reached only through the checks of the
    three steps before it. *)
Theorem submitted_application_complete (events : list Event)
    (payload : gmap string ApiClient.JSValue) :
  In (CreateApplication payload) (fst (run events initial)) ->
  payload !! "pages" = Some (ApiClient.JNum 32)
  /\ forall field, In field requiredText ->
       exists s, payload !! field = Some (ApiClient.JStr s) /\ s <> "".
Proof.
  intros Hin.
  destruct (run_effect events initial _ Inv_initial Hin)
    as (ev & st & (Hk & Hc & Ht) & Hfire).
  apply fire_create in Hfire as [Hlast ->].
  apply applicationData_complete; [exact Ht |].
  replace STEPS_length with (currentStep st) by lia. exact Hc.
Qed.

(** An upload that follows a submitted application sends both files. *)
Lemma fire_upload (ev : Event) (st : State) (id : string) (parts : list string) :
  Inv st -> In (UploadDocuments id parts) (fst (fire ev st)) ->
  parts = ["passport_photo"; "id_document"].
Proof.
  intros (Hk & Hc & _).
  destruct ev as [name value | name file | | | created uploadOk]; unfold fire.
  - destruct (inList name (textInputs (currentStep st))); intros [].
  - destruct (inList name (fileInputs (currentStep st))); intros [].
  - destruct (currentStep st <? STEPS_length)%Z; intros [].
  - destruct (currentStep st =? 1)%Z; intros [].
  - destruct (Z.ltb_spec (currentStep st) STEPS_length) as [Hlt | Hge]; simpl;
      [intros [] |].
    destruct (isSubmitting st); [intros [] |].
    assert (Hphoto : filled (formData st !! "photo") = true).
    { apply (Hc 3%Z "photo" "Passport photo is required");
        [unfold STEPS_length in *; lia | left; reflexivity]. }
    assert (Hid : filled (formData st !! "id_document") = true).
    { apply (Hc 3%Z "id_document" "ID document is required");
        [unfold STEPS_length in *; lia | right; left; reflexivity]. }
    unfold handleSubmit, validateStep, uploadParts.
    destruct (bool_decide (newErrors (currentStep st) (formData st) = ∅));
      simpl; [| intros []].
    rewrite Hphoto, Hid. simpl.
    destruct created as [i number | detail]; simpl.
    + intros [Heq | [Heq | Hin]]; [discriminate | congruence |].
      destruct uploadOk; simpl in Hin;
        repeat (destruct Hin as [Heq | Hin]; [discriminate |]); contradiction.
    + intros [Heq | [Heq | []]]; discriminate.
Qed.

(** X23. Every document upload the form sends carries both the passport
    photo and the ID document. *)
Theorem upload_sends_both_documents (events : list Event) (id : string)
    (parts : list string) :
  In (UploadDocuments id parts) (fst (run events initial)) ->
  parts = ["passport_photo"; "id_document"].
Proof.
  intros Hin.
  destruct (run_effect events initial _ Inv_initial Hin) as (ev & st & Hinv & Hfire).
  apply (fire_upload ev st id parts Hinv Hfire).
Qed.

Lemma submitted_application_complete_witness :
  let payload := applicationData (formData (snd (run sampleSession initial))) in
  payload !! "pages" = Some (ApiClient.JNum 32)
  /\ forall field, In field requiredText ->
       exists s, payload !! field = Some (ApiClient.JStr s) /\ s <> "".
Proof.
  intros payload.
  apply (submitted_application_complete sampleSession payload).
  vm_compute. left. reflexivity.
Defined.

Lemma upload_sends_both_documents_witness :
  exists parts,
    In (UploadDocuments "app-9" parts) (fst (run sampleSession initial))
    /\ parts = ["passport_photo"; "id_document"].
Proof.
  assert (H : In (UploadDocuments "app-9" ["passport_photo"; "id_document"])
                (fst (run sampleSession initial))).
  { vm_compute. right. left. reflexivity. }
  exists ["passport_photo"; "id_document"]. split; [exact H |].
  exact (upload_sends_both_documents sampleSession "app-9" _ H).
Defined.

Lemma wizard_steps_complete_witness :
  currentStep (snd (run sampleSession initial)) = 4%Z
  /\ filled (formData (snd (run sampleSession initial)) !! "first_name") = true.
Proof.
  assert (H : currentStep (snd (run sampleSession initial)) = 4%Z)
    by (vm_compute; reflexivity).
  split; [exact H |].
  apply (proj2 (wizard_steps_complete sampleSession) 1%Z "first_name"
           "First name is required").
  - rewrite H. lia.
  - left. reflexivity.
Defined.

Example sampleSession_effects :
  map (fun e => match e with
                | CreateApplication _ => "create"
                | UploadDocuments _ _ => "upload"
                | ToastSuccess _ => "toast"
                | ToastError _ => "error"
                | Navigate path => path
                end) (fst (run sampleSession initial))
  = [ "create"; "upload"; "toast";
      "/applicant/appointments/book-submission?application=app-9" ]
  /\ currentStep (snd (run sampleSession initial)) = 4%Z.
Proof. split; vm_compute; reflexivity. Qed.

End Wizard.

(** ** The submission booking page *)

Module SubmissionBooking.
Import Booking BookSubmissionAppointment.

Lemma lookup_In {A} (l : list A) (i : nat) (x : A) : l !! i = Some x -> In x l.
Proof.
  revert i; induction l as [|y l IH]; intros [|i] H; simpl in *;
    try discriminate.
  - left; congruence.
  - right; eauto.
Qed.

Lemma Step_quiet id all st : Known id all st -> Step id all ([], st).
Proof. intros H; split; [exact H|split; [intros r []|intros a l d []]]. Qed.

Lemma Known_slot id all st slot :
  Known id all st -> selectedSlot st = Some slot ->
  exists a, availability st = Some a /\ In slot (available_slots a)
            /\ In (ClickCheck (Resolved a)) all.
Proof.
  intros (_ & Hav & _ & Hslot) E.
  destruct (Hslot slot E) as (a & Ha & Hin). eauto.
Qed.

Lemma Known_application id all st app :
  Known id all st -> application st = Some app -> In (ApplicationLoaded app) all.
Proof. intros (_ & _ & Happ & _); apply Happ. Qed.

Lemma Known_id id all st : Known id all st -> applicationId st = id.
Proof. now intros (H & _). Qed.

(** A state change keeps [Known] when what it brings in is accounted
    for. *)
Lemma Known_update id all st st' :
  Known id all st ->
  applicationId st' = applicationId st ->
  (forall a, availability st' = Some a ->
     availability st = Some a \/ In (ClickCheck (Resolved a)) all) ->
  (forall app, application st' = Some app ->
     application st = Some app \/ In (ApplicationLoaded app) all) ->
  (forall slot, selectedSlot st' = Some slot ->
     (selectedSlot st = Some slot /\ availability st' = availability st)
     \/ exists a, availability st' = Some a /\ In slot (available_slots a)) ->
  Known id all st'.
Proof.
  intros (Hid & Hav & Happ & Hslot) Eid Eav Eapp Eslot.
  split; [congruence|split; [|split]].
  - intros a E. destruct (Eav a E); auto.
  - intros app E. destruct (Eapp app E); auto.
  - intros slot E. destruct (Eslot slot E) as [[E1 E2]|H]; [|exact H].
    destruct (Hslot slot E1) as (a & Ha & Hin). exists a; split; congruence.
Qed.

Lemma eqb_empty (s : string) : String.eqb s "" = false -> s <> "".
Proof. intros H E; subst s; discriminate. Qed.

Ltac quiet := solve [apply Step_quiet; assumption].
Ltac sends_nothing := split; [|split; [intros ? []|intros ? ? ? []]].
Ltac same := solve [intros ? ?; left; auto | intros ? ? ; left; split; auto].

Lemma fire_Step id all ev st :
  Known id all st -> In ev all -> Step id all (fire ev st).
Proof.
  intros K Hev. unfold fire.
  destruct ev as [a | d | o | | i | o].
  - sends_nothing.
    apply (Known_update id all st); simpl; auto; try same.
    intros app E; right; injection E as <-; exact Hev.
  - destruct (application st) as [app|] eqn:Ea; [|quiet].
    destruct (availability st) as [av|] eqn:Ev; [quiet|].
    sends_nothing.
    apply (Known_update id all st); simpl; auto; try same.
  - destruct (application st) as [app|] eqn:Ea; [|quiet].
    destruct (availability st) as [av|] eqn:Ev; [quiet|].
    destruct (loading st); [quiet|].
    unfold handleCheckAvailability.
    destruct (String.eqb (selectedDate st) "") eqn:Ed.
    { split; [exact K|split; [intros r [E|[]]; discriminate E
                              |intros a' l d' [E|[]]; discriminate E]]. }
    rewrite Ea.
    assert (Hnone : selectedSlot st = None).
    { destruct (selectedSlot st) as [s|] eqn:Es; [|reflexivity].
      destruct (Known_slot _ _ _ _ K Es) as (a & Ha & _). congruence. }
    destruct o as [data | detail].
    + split; [|split].
      * apply (Known_update id all st); simpl; auto; try same.
        -- intros a E; right; injection E as <-; exact Hev.
        -- intros slot E. congruence.
      * intros r [E|[]]; discriminate E.
      * intros a' l d' [E|[]]. injection E as <- _ <-.
        split; [now apply Known_id with all|now apply eqb_empty].
    + split; [|split].
      * apply (Known_update id all st); simpl; auto; try same.
      * intros r [E|[E|[]]]; discriminate E.
      * intros a' l d' [E|[E|[]]]; [|discriminate E]. injection E as <- _ <-.
        split; [now apply Known_id with all|now apply eqb_empty].
  - destruct (application st) as [app|] eqn:Ea; [|quiet].
    destruct (availability st) as [av|] eqn:Ev; [|quiet].
    sends_nothing.
    apply (Known_update id all st); simpl; auto; try same.
    + intros a E; discriminate E.
    + intros slot E; discriminate E.
  - destruct (application st) as [app|] eqn:Ea; [|quiet].
    destruct (availability st) as [av|] eqn:Ev; [|quiet].
    destruct (available_slots av !! i) as [slot|] eqn:El; [|quiet].
    sends_nothing.
    apply (Known_update id all st); simpl; auto; try same.
    intros s E. injection E as <-. right.
    exists av; split; [exact Ev|now apply lookup_In with i].
  - destruct (application st) as [app|] eqn:Ea; [|quiet].
    destruct (availability st) as [av|] eqn:Ev; [|quiet].
    destruct (available_slots av) as [|s0 rest] eqn:Es; [quiet|].
    destruct (selectedSlot st) as [slot|] eqn:Ese; [|quiet].
    destruct (bookingLoading st); [quiet|].
    unfold handleBookAppointment. rewrite Ese, Ea.
    assert (S : Sound id all
                  {| passport_application_id := applicationId st;
                     time_slot_id := slot_id slot;
                     location_id := submission_location_id app;
                     appointment_type := Some "submission" |}).
    { split; [now apply Known_id with all|split; [reflexivity|split]]; simpl.
      - destruct (Known_slot _ _ _ _ K Ese) as (a & Ha & Hin & Hc).
        exists a, slot; auto.
      - exists app; split; [now apply (Known_application id all st)|reflexivity]. }
    assert (K' : Known id all (setBookingLoading false (setBookingLoading true st))).
    { apply (Known_update id all st); simpl; auto; try same. }
    destruct o as [[] | detail].
    + split; [exact K'|split].
      * intros r [E|[E|[E|[]]]]; try discriminate E. injection E as <-. exact S.
      * intros a' l d' [E|[E|[E|[]]]]; discriminate E.
    + split; [exact K'|split].
      * intros r [E|[E|[]]]; try discriminate E. injection E as <-. exact S.
      * intros a' l d' [E|[E|[]]]; discriminate E.
Qed.

Lemma run_cons ev rest st :
  run (ev :: rest) st
  = (fst (fire ev st) ++ fst (run rest (snd (fire ev st))),
     snd (run rest (snd (fire ev st)))).
Proof.
  simpl. destruct (fire ev st) as [e s1]. simpl.
  destruct (run rest s1) as [m s2]. reflexivity.
Qed.

Lemma run_Step id all events st :
  Known id all st -> incl events all -> Step id all (run events st).
Proof.
  revert st; induction events as [|ev rest IH]; intros st K Hin.
  - now apply Step_quiet.
  - rewrite run_cons.
    destruct (fire_Step id all ev st K (Hin ev (or_introl eq_refl)))
      as (K1 & C1 & A1).
    destruct (IH (snd (fire ev st)) K1 (fun e H => Hin e (or_intror H)))
      as (K2 & C2 & A2).
    split; [exact K2|split].
    + intros r H. simpl in H. apply in_app_or in H as [H|H]; auto.
    + intros a l d H. simpl in H. apply in_app_or in H as [H|H]; eauto.
Qed.

Lemma Known_initial id all : Known id all (initial id).
Proof.
  split; [reflexivity|split; [|split]]; intros ? E; discriminate E.
Qed.

(** X24. On the submission booking page the selected slot is always one
    of the slots of the availability on display, whatever the applicant
    does: choosing another date drops it together with the answer. *)
Theorem selected_slot_on_display (events : list Event) (id : string) :
  slotOnDisplay (snd (run events (initial id))).
Proof.
  destruct (run_Step id events events (initial id) (Known_initial id events)
              (fun e H => H)) as ((_ & _ & _ & H) & _).
  exact H.
Qed.

(** X25. Every booking request the submission page sends is for the
    application of the page, is of type submission, names a slot the
    server offered in an answer to a check, and the location of the
    loaded application. *)
Theorem submission_request_sound (events : list Event) (id : string)
    (r : AppointmentRequest) :
  In (CreateAppointment r) (fst (run events (initial id))) ->
  passport_application_id r = id
  /\ appointment_type r = Some "submission"
  /\ (exists a slot, In (ClickCheck (Resolved a)) events
        /\ In slot (available_slots a) /\ time_slot_id r = slot_id slot)
  /\ (exists app, In (ApplicationLoaded app) events
        /\ location_id r = submission_location_id app).
Proof.
  destruct (run_Step id events events (initial id) (Known_initial id events)
              (fun e H => H)) as (_ & H & _).
  exact (H r).
Qed.

(** X26. The submission page asks for availability only with a date
    chosen, and for the application of the page. *)
Theorem submission_check_needs_date (events : list Event) (id a l d : string) :
  In (CheckAvailability a l d) (fst (run events (initial id))) ->
  a = id /\ d <> "".
Proof.
  destruct (run_Step id events events (initial id) (Known_initial id events)
              (fun e H => H)) as (_ & _ & H).
  exact (H a l d).
Qed.

Lemma submission_request_sound_witness :
  let r := {| passport_application_id := "app-1";
              time_slot_id := "slot-morning";
              location_id := "maseru";
              appointment_type := Some "submission" |} in
  In (CreateAppointment r) (fst (run sampleVisit (initial "app-1")))
  /\ exists a slot, In (ClickCheck (Resolved a)) sampleVisit
        /\ In slot (available_slots a) /\ time_slot_id r = slot_id slot.
Proof.
  intros r.
  assert (H : In (CreateAppointment r) (fst (run sampleVisit (initial "app-1")))).
  { vm_compute. right; left; reflexivity. }
  split; [exact H|].
  exact (proj1 (proj2 (proj2 (submission_request_sound sampleVisit "app-1" r H)))).
Defined.

Lemma submission_check_needs_date_witness :
  In (CheckAvailability "app-1" "maseru" "2025-03-03")
     (fst (run sampleVisit (initial "app-1")))
  /\ "2025-03-03" <> "".
Proof.
  assert (H : In (CheckAvailability "app-1" "maseru" "2025-03-03")
                (fst (run sampleVisit (initial "app-1")))).
  { vm_compute. left; reflexivity. }
  split; [exact H|].
  exact (proj2 (submission_check_needs_date sampleVisit "app-1" "app-1" "maseru"
                  "2025-03-03" H)).
Defined.

Lemma selected_slot_on_display_witness :
  exists a,
    availability (snd (run sampleVisit (initial "app-1"))) = Some a
    /\ In {| slot_id := "slot-morning"; start_time := "09:00";
             available_capacity := 3 |} (available_slots a).
Proof.
  apply (selected_slot_on_display sampleVisit "app-1").
  vm_compute. reflexivity.
Defined.

End SubmissionBooking.

Module CollectionBooking.
Import Booking BookAppointment.


Lemma filter_ready apps app :
  In app (List.filter (fun app => String.eqb (app_status app) "ready_for_pickup") apps) ->
  app_status app = "ready_for_pickup".
Proof.
  intros H. apply filter_In in H as [_ H]. now apply String.eqb_eq in H.
Qed.

Ltac inv_sent :=
  repeat match goal with
  | H : _ \/ _ |- _ => destruct H
  | H : False |- _ => destruct H
  | H : @eq Effect _ _ |- _ => first [discriminate H | injection H as <-]
  end.

Ltac fin :=
  intros; simpl in *; inv_sent;
  try solve [ tauto | congruence | discriminate | lia
            | apply in_or_app; simpl; tauto
            | eauto using filter_ready ].

Ltac parts := split; [split; [|split]|split; [split|split]]; simpl; fin.



Lemma run_step ev rest st :
  run (ev :: rest) st
  = (fst (fire ev st) ++ fst (run rest (snd (fire ev st))),
     snd (run rest (snd (fire ev st)))).
Proof.
  simpl. destruct (fire ev st) as [e s1]. simpl.
  destruct (run rest s1) as [m s2]. reflexivity.
Qed.







Lemma nonempty_eqb (s : string) : s <> "" -> String.eqb s "" = false.
Proof. intros H. destruct s; [congruence|reflexivity]. Qed.

(** X29. Going back to step 1 keeps the selected slot.  With a slot
    selected at step 2, going back, choosing another date, checking it
    and confirming books the slot selected before, whatever the new
    answer offers. *)
Theorem stale_slot_is_booked (st : State) (slot : TimeSlot) (d : string)
    (answer : Availability) (o : Outcome string) :
  Inv st -> applications st <> [] -> step st = 2%Z ->
  selectedSlot st = Some slot ->
  loading st = false -> bookingLoading st = false ->
  d <> "" -> available_slots answer <> [] ->
  In (CheckAvailability (selectedApplicationId st) (selectedLocationId st) d)
     (fst (run [ClickBack; SetDate d; ClickCheck (Resolved answer);
                ClickConfirm o] st))
  /\ In (CreateAppointment
           {| passport_application_id := selectedApplicationId st;
              time_slot_id := slot_id slot;
              location_id := selectedLocationId st;
              appointment_type := None |})
        (fst (run [ClickBack; SetDate d; ClickCheck (Resolved answer);
                   ClickConfirm o] st)).
Proof.
  intros (_ & _ & H2) Happs Hstep Hsel Hld Hbl Hd Hslots.
  destruct (H2 Hstep) as (Hav & Ha & Hl & _).
  destruct st as [stp ld bl apps locs aid lid date av sel]; simpl in *.
  subst stp sel ld bl.
  destruct apps as [|app0 apps]; [congruence|].
  destruct av as [av|]; [|congruence].
  destruct (available_slots answer) as [|s0 rest] eqn:Es; [congruence|].
  unfold run, fire, handleCheckAvailability, handleBookAppointment; simpl.
  rewrite (nonempty_eqb aid Ha), (nonempty_eqb lid Hl), (nonempty_eqb d Hd); simpl.
  rewrite Es; simpl.
  destruct o as [code|detail]; simpl; auto.
Qed.

Lemma stale_slot_is_booked_witness :
  let st := snd (run sampleVisit (initial None)) in
  ~ In morningSlot (available_slots secondAnswer)
  /\ In (CreateAppointment
           {| passport_application_id := "app-1";
              time_slot_id := "slot-morning";
              location_id := "maseru";
              appointment_type := None |})
        (fst (run [ClickBack; SetDate "2025-03-04";
                   ClickCheck (Resolved secondAnswer);
                   ClickConfirm (Resolved "CONF-1")] st)).
Proof.
  intros st. split.
  - simpl. intros [H|[]]. discriminate H.
  - apply (stale_slot_is_booked st morningSlot "2025-03-04" secondAnswer
             (Resolved "CONF-1")); vm_compute; try reflexivity; try discriminate.
    split; [now right|split; [|intros _; repeat split; discriminate]].
    intros app [<-|[]]. reflexivity.
Defined.


Lemma filter_none apps :
  anyReady apps = false ->
  List.filter (fun app => String.eqb (app_status app) "ready_for_pickup") apps = [].
Proof.
  unfold anyReady. induction apps as [|app apps IH]; simpl; [reflexivity|].
  destruct (String.eqb (app_status app) "ready_for_pickup"); simpl;
    [discriminate|exact IH].
Qed.

Lemma fire_no_application all ev st :
  (forall apps locs, In (DataLoaded (Resolved (apps, locs))) all ->
     anyReady apps = false) ->
  In ev all -> applications st = [] ->
  applications (snd (fire ev st)) = []
  /\ Forall (fun e => isRequest e = false) (fst (fire ev st)).
Proof.
  intros Hall Hev Happs. unfold fire. rewrite Happs.
  destruct ev as [o | id | id | d | o | | i | o]; simpl; auto.
  destruct o as [[apps locs]|detail]; simpl.
  - split; [|constructor]. apply filter_none, (Hall apps locs), Hev.
  - split; [exact Happs|repeat constructor].
Qed.

Lemma run_no_application all events : forall st,
  (forall apps locs, In (DataLoaded (Resolved (apps, locs))) all ->
     anyReady apps = false) ->
  incl events all -> applications st = [] ->
  Forall (fun e => isRequest e = false) (fst (run events st)).
Proof.
  induction events as [|ev rest IH]; intros st Hall Hin Happs.
  - constructor.
  - rewrite run_step. simpl.
    destruct (fire_no_application all ev st Hall (Hin ev (or_introl eq_refl)) Happs)
      as (H1 & H2).
    apply Forall_app; split; [exact H2|].
    apply IH; auto. intros e H; apply Hin; now right.
Qed.

(** X30. As long as no loaded list of applications has one that is ready
    for pickup, the collection booking page sends no request: neither
    an availability check nor a booking. *)
Theorem no_ready_application_no_request (events : list Event) (id : option string) :
  (forall apps locs, In (DataLoaded (Resolved (apps, locs))) events ->
     anyReady apps = false) ->
  Forall (fun e => isRequest e = false) (fst (run events (initial id))).
Proof.
  intros H. apply (run_no_application events events); auto.
  intros e He; exact He.
Qed.

Lemma no_ready_application_no_request_witness :
  (forall apps locs, In (DataLoaded (Resolved (apps, locs))) idleVisit ->
     anyReady apps = false)
  /\ Forall (fun e => isRequest e = false) (fst (run idleVisit (initial (Some "app-2")))).
Proof.
  assert (H : forall apps locs, In (DataLoaded (Resolved (apps, locs))) idleVisit ->
                anyReady apps = false).
  { intros apps locs [E|[E|[E|[E|[E|[E|[]]]]]]]; try discriminate E.
    injection E as <- _. reflexivity. }
  split; [exact H|].
  exact (no_ready_application_no_request idleVisit (Some "app-2") H).
Defined.


End CollectionBooking.
